(** * go-strval: lenient scalar wrappers (Bool, Int, Float, String)

    A shallow embedding of [strval.go]: the boolean-word parser
    [parseBool], the JSON / YAML codec methods and the database
    [Scan] / [Value] methods of the wrappers, together with the parts of
    the Go standard library they call ([strings], [strconv],
    [encoding/json]).

    Conventions.
    - A Go [string] is a sequence of bytes: Rocq's [string].
    - [int] and [int64] are 64-bit; values are [Z], ranges are written out.
    - [float64] is [spec_float] at precision 53 and [emax] 1024.
    - A pointer-receiver method is a computation in a state monad whose
      state holds the receiver and the records handed to [slog]. *)

From Stdlib Require Import ZArith String Ascii List Bool Lia.
From Stdlib Require Import Floats.SpecFloat.
From ExtLib Require Import Structures.Monad Structures.MonadState.
From ExtLib Require Import Data.Monads.StateMonad.
Import ListNotations.
Import MonadNotation.

Local Open Scope monad_scope.
Local Open Scope string_scope.
Local Open Scope Z_scope.

(* ===================================================================== *)
(** * Bytes and strings *)
(* ===================================================================== *)

Module Bytes.

Definition code (c : ascii) : Z := Z.of_N (N_of_ascii c).

Definition of_code (n : Z) : ascii := ascii_of_N (Z.to_N (n mod 256)).

Definition in_range (lo hi c : ascii) : bool :=
  (code lo <=? code c) && (code c <=? code hi).

Definition same (c d : ascii) : bool := code c =? code d.

(** [utf8.RuneSelf]: bytes below 0x80 are single-byte runes. *)
Definition RuneSelf : Z := 128.

(** [lower] of strconv: ASCII lower-casing by or-ing the case bit. *)
Definition lower (c : ascii) : ascii := of_code (Z.lor (code c) 32).

Definition is_digit (c : ascii) : bool := in_range "0" "9" c.

End Bytes.

Module Strings.

Import Bytes.

(** The Unicode paths of package [strings] that the ASCII fast paths
    fall back to.  Their tables are not part of this repository; the
    model takes them as given functions and fixes only when they are
    called. *)
Record Unicode : Type := {
  (** [strings.TrimFunc(s, unicode.IsSpace)] *)
  TrimFunc_IsSpace : string -> string;
  (** [strings.TrimRightFunc(s, unicode.IsSpace)] *)
  TrimRightFunc_IsSpace : string -> string;
  (** [strings.Map(unicode.ToLower, s)] *)
  Map_ToLower : string -> string
}.

(** [asciiSpace]: tab, newline, vertical tab, form feed, carriage
    return and space. *)
Definition asciiSpace (c : ascii) : bool :=
  in_range "009" "013" c || same c " ".

Fixpoint rev_acc (s acc : string) : string :=
  match s with
  | EmptyString => acc
  | String c r => rev_acc r (String c acc)
  end.

Definition rev (s : string) : string := rev_acc s EmptyString.

(** The second loop of [TrimSpace], run on the reversed string: [r] is
    [s[start:stop]] read from its end.  The flag reports a byte >=
    [RuneSelf] met at [stop - 1]; the string is [s[start:stop]] at the
    time the loop is left, reversed. *)
Fixpoint trim_stop (r : string) : bool * string :=
  match r with
  | EmptyString => (false, EmptyString)
  | String c r' =>
      if RuneSelf <=? code c then (true, r)
      else if asciiSpace c then trim_stop r'
      else (false, r)
  end.

(** [strings.TrimSpace]. *)
Fixpoint TrimSpace (U : Unicode) (s : string) : string :=
  match s with
  | EmptyString => EmptyString
  | String c s' =>
      if RuneSelf <=? code c then TrimFunc_IsSpace U s
      else if asciiSpace c then TrimSpace U s'
      else
        match trim_stop (rev s) with
        | (true, t) => TrimRightFunc_IsSpace U (rev t)
        | (false, t) => rev t
        end
  end.

Fixpoint isASCII (s : string) : bool :=
  match s with
  | EmptyString => true
  | String c r => (code c <? RuneSelf) && isASCII r
  end.

Fixpoint hasUpper (s : string) : bool :=
  match s with
  | EmptyString => false
  | String c r => in_range "A" "Z" c || hasUpper r
  end.

Fixpoint lower_ascii (s : string) : string :=
  match s with
  | EmptyString => EmptyString
  | String c r =>
      String (if in_range "A" "Z" c then of_code (code c + 32) else c)
             (lower_ascii r)
  end.

(** [strings.ToLower]. *)
Definition ToLower (U : Unicode) (s : string) : string :=
  if isASCII s then
    if hasUpper s then lower_ascii s else s
  else Map_ToLower U s.

(** An instance whose Unicode paths return their argument.  Every
    closed example below runs on ASCII input, where no Unicode path is
    reached, so the choice does not show in the results. *)
Definition ascii_only : Unicode :=
  {| TrimFunc_IsSpace := fun s => s;
     TrimRightFunc_IsSpace := fun s => s;
     Map_ToLower := fun s => s |}.

End Strings.

(* ===================================================================== *)
(** * Errors, log records and the method monad *)
(* ===================================================================== *)

Definition float64 : Type := spec_float.

Inductive NumErr : Type := ErrSyntax | ErrRange.

(** The error values that reach this package. *)
Inductive error : Type :=
| Errorf (msg : string)                         (* fmt.Errorf *)
| NumError (func num : string) (e : NumErr)     (* *strconv.NumError *)
| JsonSyntaxError                               (* *json.SyntaxError *)
| JsonUnmarshalTypeError (value type : string)  (* *json.UnmarshalTypeError *)
| JsonUnsupportedValueError (str : string)      (* *json.UnsupportedValueError *)
| YamlTypeError (msgs : list string).           (* *yaml.TypeError *)

Inductive result (A : Type) : Type :=
| Ok (a : A)
| Err (e : error).
Arguments Ok {A} a.
Arguments Err {A} e.

(** An argument of [slog.Error] after the message. *)
Inductive attr : Type :=
| AttrString (s : string)
| AttrError (e : error).

Inductive Level : Type := LevelError.

Record LogRecord : Type := {
  level : Level;
  message : string;
  attrs : list (string * attr)
}.

(** The state a pointer-receiver method works on: the value behind the
    receiver and the records emitted so far (oldest first). *)
Record St (T : Type) : Type := {
  recv : T;
  logs : list LogRecord
}.
Arguments recv {T} s.
Arguments logs {T} s.
Arguments Build_St {T} recv logs.

Abbreviation method T := (state (St T)).

(** [*p = v] *)
Definition store {T : Type} (v : T) : method T unit :=
  mkState (fun s => (tt, {| recv := v; logs := logs s |})).

(** [slog.Error(msg, args...)] *)
Definition slog_Error {T : Type} (msg : string) (args : list (string * attr))
  : method T unit :=
  mkState (fun s =>
             (tt, {| recv := recv s;
                     logs := logs s ++ [ {| level := LevelError; message := msg; attrs := args |} ] |})).

(** Running a method on a receiver holding [v0] with an empty log. *)
Definition call {T A : Type} (m : method T A) (v0 : T) : A * St T :=
  runState m {| recv := v0; logs := [] |}.

(* ===================================================================== *)
(** * Package strconv: integers *)
(* ===================================================================== *)

Module Strconv.

Import Bytes.

Definition syntaxError (fn str : string) : error := NumError fn str ErrSyntax.
Definition rangeError (fn str : string) : error := NumError fn str ErrRange.

Definition maxUint64 : Z := 2 ^ 64 - 1.

(** The loop of [ParseUint(s, 10, 64)]: [n] is the value read so far.
    The result is the value and what went wrong, if anything. *)
Fixpoint ParseUint_loop (s : string) (n : Z) : Z * option NumErr :=
  match s with
  | EmptyString => (n, None)
  | String c r =>
      let d :=
        if in_range "0" "9" c then Some (code c - code "0")
        else if in_range "a" "z" (lower c) then Some (code (lower c) - code "a" + 10)
        else None in
      match d with
      | None => (0, Some ErrSyntax)
      | Some d =>
          if 10 <=? d then (0, Some ErrSyntax)
          else if maxUint64 / 10 + 1 <=? n then (maxUint64, Some ErrRange)
          else
            let n' := n * 10 in
            let n1 := (n' + d) mod 2 ^ 64 in
            if (n1 <? n') || (maxUint64 <? n1) then (maxUint64, Some ErrRange)
            else ParseUint_loop r n1
      end
  end.

(** [strconv.ParseUint(s, 10, 64)] *)
Definition ParseUint (s : string) : Z * option NumErr :=
  match s with
  | EmptyString => (0, Some ErrSyntax)
  | _ => ParseUint_loop s 0
  end.

(** [strconv.ParseInt(s, 10, 64)]; [fn] is the function name the error
    record ends up with. *)
Definition ParseInt_as (fn : string) (s : string) : Z * option error :=
  match s with
  | EmptyString => (0, Some (syntaxError fn s))
  | String c r =>
      let s0 := s in
      let neg := same c "-" in
      let s := if same c "+" || same c "-" then r else s in
      match ParseUint s with
      | (_, Some ErrSyntax) => (0, Some (syntaxError fn s0))
      | (un, _) =>
          let cutoff := 2 ^ 63 in
          if negb neg && (cutoff <=? un) then (cutoff - 1, Some (rangeError fn s0))
          else if neg && (cutoff <? un) then (- cutoff, Some (rangeError fn s0))
          else (if neg then - un else un, None)
      end
  end.

Definition ParseInt : string -> Z * option error := ParseInt_as "ParseInt".

(** The fast path of [Atoi]: digits only, no range check needed. *)
Fixpoint Atoi_fast (s : string) (n : Z) : option Z :=
  match s with
  | EmptyString => Some n
  | String ch r =>
      let ch := (code ch - code "0") mod 256 in
      if 9 <? ch then None else Atoi_fast r (n * 10 + ch)
  end.

(** [strconv.Atoi] on a 64-bit platform. *)
Definition Atoi (s : string) : Z * option error :=
  let sLen := Z.of_nat (String.length s) in
  if (0 <? sLen) && (sLen <? 19) then
    match s with
    | EmptyString => (0, Some (syntaxError "Atoi" s))
    | String c r =>
        let s0 := s in
        let signed := same c "-" || same c "+" in
        let s := if signed then r else s in
        if signed && (Z.of_nat (String.length s) <? 1) then (0, Some (syntaxError "Atoi" s0))
        else
          match Atoi_fast s 0 with
          | None => (0, Some (syntaxError "Atoi" s0))
          | Some n => (if same c "-" then - n else n, None)
          end
    end
  else ParseInt_as "Atoi" s.

(** Decimal digits of [u >= 0], most significant first, in front of
    [acc]. *)
Fixpoint digits_of (fuel : nat) (u : Z) (acc : string) : string :=
  match fuel with
  | O => acc
  | S fuel' =>
      let acc' := String (of_code (code "0" + u mod 10)) acc in
      if u <? 10 then acc' else digits_of fuel' (u / 10) acc'
  end.

Definition FormatUint (u : Z) : string :=
  digits_of (S (Z.to_nat (Z.log2 u))) u EmptyString.

(** The value of a string of decimal digits read after [n], and the
    strings that are made of decimal digits. *)
Fixpoint digits_value (s : string) (n : Z) : Z :=
  match s with
  | EmptyString => n
  | String c r => digits_value r (n * 10 + (code c - code "0"))
  end.

Fixpoint all_digits (s : string) : bool :=
  match s with
  | EmptyString => true
  | String c r => is_digit c && all_digits r
  end.

(** [strconv.FormatInt(i, 10)] *)
Definition FormatInt (i : Z) : string :=
  if i <? 0 then String "-" (FormatUint (- i)) else FormatUint i.

End Strconv.

(* ===================================================================== *)
(** * Package strconv: floating point *)
(* ===================================================================== *)

Module Float64.

Definition prec : Z := 53.
Definition emax : Z := 1024.

Definition NaN : float64 := S754_nan.
Definition Inf (neg : bool) : float64 := S754_infinity neg.

Definition IsNaN (f : float64) : bool :=
  match f with S754_nan => true | _ => false end.

Definition IsInf (f : float64) : bool :=
  match f with S754_infinity _ => true | _ => false end.

Definition is_finite (f : float64) : bool := negb (IsNaN f || IsInf f).

(** A value of the type: the mantissa / exponent pair is the canonical
    one of binary64. *)
Definition valid (f : float64) : bool := valid_binary prec emax f.

(** The binary64 nearest to [p / q] (ties to even), with sign [neg];
    infinite when the rounded value is out of range. *)
Definition round_ratio (neg : bool) (p q : positive) : float64 :=
  let '(mz, ez, lz) := SFdiv_core_binary prec emax (Zpos p) 0 (Zpos q) 0 in
  binary_round_aux prec emax neg mz ez lz.

(** The binary64 nearest to [m * b ^ e] for [m >= 0] and [b > 0]. *)
Definition round_scaled (neg : bool) (m b e : Z) : float64 :=
  match m with
  | Zpos p =>
      if 0 <=? e then round_ratio neg (p * Z.to_pos (b ^ e)) 1
      else round_ratio neg p (Z.to_pos (b ^ (- e)))
  | _ => S754_zero neg
  end.

(** [float64(n)] for an integer [n]: the nearest binary64. *)
Definition of_int (n : Z) : float64 := binary_normalize prec emax n 0 false.

(** The integer part of a finite value, rounded toward zero. *)
Definition trunc (f : float64) : Z :=
  match f with
  | S754_finite s m e =>
      let a := if 0 <=? e then Zpos m * 2 ^ e else Zpos m / 2 ^ (- e) in
      if s then - a else a
  | _ => 0
  end.

(** [int(f)]: truncation toward zero when the result fits in 64 bits.
    Go leaves the result of the conversion implementation-dependent
    otherwise; the value given here is the one amd64 produces. *)
Definition to_int (f : float64) : Z :=
  let t := trunc f in
  if is_finite f && (- 2 ^ 63 <=? t) && (t <? 2 ^ 63) then t else - 2 ^ 63.

(** [a < b], false when either is NaN. *)
Definition ltb (a b : float64) : bool := SFltb a b.

Definition abs (f : float64) : float64 := SFabs f.

End Float64.

Module Atof.

Import Bytes.

(** [commonPrefixLenIgnoreCase(s, prefix)], [prefix] in lower case. *)
Fixpoint commonPrefixLenIgnoreCase (s prefix : string) : Z :=
  match s, prefix with
  | String c s', String p prefix' =>
      let c := if in_range "A" "Z" c then of_code (code c + 32) else c in
      if same c p then 1 + commonPrefixLenIgnoreCase s' prefix' else 0
  | _, _ => 0
  end.

(** [special]: the value and the number of bytes read. *)
Definition special (s : string) : option (float64 * Z) :=
  let infinity (neg : bool) (nsign : Z) (s : string) :=
    let n := commonPrefixLenIgnoreCase s "infinity" in
    let n := if (3 <? n) && (n <? 8) then 3 else n in
    if (n =? 3) || (n =? 8) then Some (Float64.Inf neg, nsign + n) else None in
  match s with
  | EmptyString => None
  | String c r =>
      if same c "+" || same c "-" then infinity (same c "-") 1 r
      else if same c "i" || same c "I" then infinity false 0 s
      else if same c "n" || same c "N" then
        if commonPrefixLenIgnoreCase s "nan" =? 3 then Some (Float64.NaN, 3) else None
      else None
  end.

(** What [readFloat] has seen of the mantissa.  [mant] holds every
    digit read after the leading zeros, [nd] their number, and the
    value read is [0.mant * base ^ dp]. *)
Record mantissa : Type := {
  underscores : bool;
  sawdot : bool;
  sawdigits : bool;
  nd : Z;
  dp : Z;
  mant : Z
}.

Definition mantissa0 : mantissa :=
  {| underscores := false; sawdot := false; sawdigits := false;
     nd := 0; dp := 0; mant := 0 |}.

(** The digit loop of [readFloat]; returns the state and what is left
    of the input. *)
Fixpoint read_digits (hex : bool) (s : string) (st : mantissa) : mantissa * string :=
  match s with
  | EmptyString => (st, s)
  | String c r =>
      if same c "_" then
        read_digits hex r
          {| underscores := true; sawdot := sawdot st; sawdigits := sawdigits st;
             nd := nd st; dp := dp st; mant := mant st |}
      else if same c "." then
        if sawdot st then (st, s)
        else
          read_digits hex r
            {| underscores := underscores st; sawdot := true; sawdigits := sawdigits st;
               nd := nd st; dp := nd st; mant := mant st |}
      else if in_range "0" "9" c then
        if same c "0" && (nd st =? 0) then
          read_digits hex r
            {| underscores := underscores st; sawdot := sawdot st; sawdigits := true;
               nd := nd st; dp := dp st - 1; mant := mant st |}
        else
          read_digits hex r
            {| underscores := underscores st; sawdot := sawdot st; sawdigits := true;
               nd := nd st + 1; dp := dp st;
               mant := mant st * (if hex then 16 else 10) + (code c - code "0") |}
      else if hex && in_range "a" "f" (lower c) then
        read_digits hex r
          {| underscores := underscores st; sawdot := sawdot st; sawdigits := true;
             nd := nd st + 1; dp := dp st;
             mant := mant st * 16 + (code (lower c) - code "a" + 10) |}
      else (st, s)
  end.

(** The digits of the exponent: [e] stops growing at 10000. *)
Fixpoint read_exp_digits (s : string) (e : Z) (us : bool) : Z * bool * string :=
  match s with
  | EmptyString => (e, us, s)
  | String c r =>
      if same c "_" then read_exp_digits r e true
      else if in_range "0" "9" c then
        read_exp_digits r (if e <? 10000 then e * 10 + (code c - code "0") else e) us
      else (e, us, s)
  end.

(** [underscoreOK]: underscores only between digits, or after a base
    prefix. *)
Fixpoint underscoreOK_loop (hex : bool) (s : string) (saw : ascii) : bool :=
  match s with
  | EmptyString => negb (same saw "_")
  | String c r =>
      if in_range "0" "9" c || (hex && in_range "a" "f" (lower c)) then
        underscoreOK_loop hex r "0"
      else if same c "_" then
        if same saw "0" then underscoreOK_loop hex r "_" else false
      else if same saw "_" then false
      else underscoreOK_loop hex r "!"
  end.

Definition underscoreOK (s : string) : bool :=
  let s :=
    match s with
    | String c r => if same c "-" || same c "+" then r else s
    | _ => s
    end in
  match s with
  | String c0 (String c1 r) =>
      if same c0 "0" && (same (lower c1) "b" || same (lower c1) "o" || same (lower c1) "x")
      then underscoreOK_loop (same (lower c1) "x") r "0"
      else underscoreOK_loop false s "^"
  | _ => underscoreOK_loop false s "^"
  end.

(** What [readFloat] returns when it accepts a prefix of the input. *)
Record number : Type := {
  neg : bool;
  hex : bool;
  digits : Z;       (* every mantissa digit after the leading zeros *)
  ndigits : Z;      (* how many they are *)
  point : Z;        (* the value is 0.digits * base ^ point; in bits when hex *)
  used_underscores : bool;
  rest : string     (* the input not read *)
}.

(** The optional sign of [readFloat]. *)
Definition read_sign (s : string) : bool * string :=
  match s with
  | String c r =>
      if same c "+" then (false, r)
      else if same c "-" then (true, r)
      else (false, s)
  | EmptyString => (false, s)
  end.

(** The base prefix of [readFloat]:
    [i+2 < len(s) && s[i] == '0' && lower(s[i+1]) == 'x']. *)
Definition read_base (s : string) : bool * string :=
  match s with
  | String c0 (String c1 (String c2 r2)) =>
      if same c0 "0" && same (lower c1) "x" then (true, String c2 r2) else (false, s)
  | _ => (false, s)
  end.

(** The optional exponent of [readFloat], which moves the decimal
    point [dp]; [None] when the exponent is malformed, or missing
    after a hexadecimal mantissa. *)
Definition read_exponent (hex : bool) (s : string) (dp : Z) (us : bool)
  : option (Z * bool * string) :=
  let expChar := if hex then "p"%char else "e"%char in
  match s with
  | String ce r3 =>
      if same (lower ce) expChar then
        match r3 with
        | EmptyString => None
        | String cs r4 =>
            let esign := if same cs "-" then -1 else 1 in
            let s4 := if same cs "+" || same cs "-" then r4 else r3 in
            match s4 with
            | EmptyString => None
            | String cd _ =>
                if in_range "0" "9" cd then
                  let '(e, us', s5) := read_exp_digits s4 0 us in
                  Some (dp + e * esign, us', s5)
                else None
            end
        end
      else if hex then None
      else Some (dp, us, s)
  | EmptyString => if hex then None else Some (dp, us, s)
  end.

(** [readFloat]. *)
Definition readFloat (s : string) : option number :=
  match s with
  | EmptyString => None
  | _ =>
      let '(neg, s1) := read_sign s in
      let '(hex, s2) := read_base s1 in
      let '(st, s3) := read_digits hex s2 mantissa0 in
      if negb (sawdigits st) then None
      else
        let dp := if sawdot st then dp st else nd st in
        let dp := if hex then dp * 4 else dp in
        match read_exponent hex s3 dp (underscores st) with
        | None => None
        | Some (dp', us, s') =>
            Some {| neg := neg; hex := hex; digits := mant st; ndigits := nd st;
                    point := dp'; used_underscores := us; rest := s' |}
        end
  end.

(** The value of an accepted number: [decimal.floatBits] for a decimal
    one (with its two shortcuts for far out-of-range exponents),
    [atofHex] for a hexadecimal one.  Both round to nearest, ties to
    even; the flag says the rounded value overflowed. *)
Definition value (n : number) : float64 * bool :=
  if digits n =? 0 then (S754_zero (neg n), false)
  else if hex n then
    let f := Float64.round_scaled (neg n) (digits n) 2 (point n - 4 * ndigits n) in
    (f, Float64.IsInf f)
  else if 310 <? point n then (Float64.Inf (neg n), true)
  else if point n <? -330 then (S754_zero (neg n), false)
  else
    let f := Float64.round_scaled (neg n) (digits n) 10 (point n - ndigits n) in
    (f, Float64.IsInf f).

(** [strconv.ParseFloat(s, 64)]. *)
Definition ParseFloat (s : string) : float64 * option error :=
  let fn := "ParseFloat" in
  let syntax := (S754_zero false, Some (Strconv.syntaxError fn s)) in
  match special s with
  | Some (f, n) =>
      if n =? Z.of_nat (String.length s) then (f, None) else syntax
  | None =>
      match readFloat s with
      | None => syntax
      | Some n =>
          match rest n with
          | EmptyString =>
              (* the prefix read is all of [s] *)
              if used_underscores n && negb (underscoreOK s) then syntax
              else
                let '(f, ovf) := value n in
                (f, if ovf then Some (Strconv.rangeError fn s) else None)
          | _ => syntax
          end
      end
  end.

End Atof.

Module Ftoa.

Import Bytes.

(** Structural equality of values (bit equality, one NaN). *)
Definition same_bits (a b : float64) : bool :=
  match a, b with
  | S754_zero s, S754_zero t => Bool.eqb s t
  | S754_infinity s, S754_infinity t => Bool.eqb s t
  | S754_nan, S754_nan => true
  | S754_finite s m e, S754_finite t n d => Bool.eqb s t && (Pos.eqb m n) && (e =? d)
  | _, _ => false
  end.

(** [m * 2 ^ e] as a fraction. *)
Definition ratio (m : positive) (e : Z) : Z * Z :=
  if 0 <=? e then (Zpos m * 2 ^ e, 1) else (Zpos m, 2 ^ (- e)).

(** The least [j >= from] with [den <= num * 10 ^ j]. *)
Fixpoint first_scale (fuel : nat) (num den j : Z) : Z :=
  match fuel with
  | O => j
  | S fuel' => if den <=? num * 10 ^ j then j else first_scale fuel' num den (j + 1)
  end.

(** The decimal exponent [k] of a positive fraction:
    [10 ^ (k - 1) <= num / den < 10 ^ k]. *)
Definition decimal_exponent (num den : Z) : Z :=
  if den <=? num then Z.of_nat (String.length (Strconv.FormatUint (num / den)))
  else 1 - first_scale 400 num den 1.

(** [floor (num / den * 10 ^ j)] *)
Definition scaled_floor (num den j : Z) : Z :=
  if 0 <=? j then (num * 10 ^ j) / den else num / (den * 10 ^ (- j)).

(** Twice the distance of [num / den * 10 ^ j] above [lo], against 1. *)
Definition above_half (num den j lo : Z) : comparison :=
  if 0 <=? j then (2 * (num * 10 ^ j - lo * den)) ?= den
  else (2 * (num - lo * (den * 10 ^ (- j)))) ?= den * 10 ^ (- j).

Fixpoint strip_zeros_rev (r : string) : string :=
  match r with
  | String c r' => if same c "0" then strip_zeros_rev r' else r
  | EmptyString => r
  end.

(** A decimal as [strconv] keeps it: digits without trailing zeros and
    the position of the decimal point; the value is
    [0.digits * 10 ^ dp]. *)
Record decimal : Type := {
  d : string;
  dp : Z
}.

(** [c * 10 ^ j] as a decimal. *)
Definition decimal_of (c j : Z) : decimal :=
  let ds := Strconv.FormatUint c in
  {| d := Strings.rev (strip_zeros_rev (Strings.rev ds));
     dp := j + Z.of_nat (String.length ds) |}.

(** What [ParseFloat] makes of the decimal, with sign [neg], once it
    has read it. *)
Definition read_back (neg : bool) (x : decimal) : float64 * bool :=
  Atof.value
    {| Atof.neg := neg; Atof.hex := false;
       Atof.digits := Strconv.digits_value (d x) 0;
       Atof.ndigits := Z.of_nat (String.length (d x));
       Atof.point := dp x;
       Atof.used_underscores := false;
       Atof.rest := EmptyString |}.

Definition reads_back_as (neg : bool) (m : positive) (e : Z) (x : decimal) : bool :=
  let '(g, ovf) := read_back neg x in
  negb ovf && same_bits g (S754_finite neg m e).

(** The decimal with [n] digits nearest to [m * 2 ^ e] among those that
    read back as that value, if there is one. *)
Definition candidate (neg : bool) (m : positive) (e : Z) (k n : Z) : option decimal :=
  let '(num, den) := ratio m e in
  let lo := scaled_floor num den (n - k) in
  let hi := lo + 1 in
  let dlo := decimal_of lo (k - n) in
  let dhi := decimal_of hi (k - n) in
  match reads_back_as neg m e dlo, reads_back_as neg m e dhi with
  | true, true =>
      match above_half num den (n - k) lo with
      | Lt => Some dlo
      | Gt => Some dhi
      | Eq => Some (if Z.even lo then dlo else dhi)
      end
  | true, false => Some dlo
  | false, true => Some dhi
  | false, false => None
  end.

(** The candidate with the fewest digits, trying [n], [n + 1], ... *)
Fixpoint shortest_from (fuel : nat) (neg : bool) (m : positive) (e : Z) (k n : Z)
  : option decimal :=
  match fuel with
  | O => None
  | S fuel' =>
      match candidate neg m e k n with
      | Some x => Some x
      | None => shortest_from fuel' neg m e k (n + 1)
      end
  end.

(** The shortest decimal that reads back as the value (precision -1 of
    [FormatFloat]); no digits for a zero.  The search is bounded by
    the number of digits of the value written out in full, which
    reads back as itself. *)
Definition shortest (f : float64) : decimal :=
  match f with
  | S754_finite neg m e =>
      let '(num, den) := ratio m e in
      let k := decimal_exponent num den in
      let full := Z.max 0 k + Z.max 0 (- e) in
      match shortest_from (S (Z.to_nat full)) neg m e k 1 with
      | Some x => x
      | None => decimal_of (scaled_floor num den (full + 1 - k)) (k - (full + 1))
      end
  | _ => {| d := EmptyString; dp := 0 |}
  end.

Fixpoint zeros (n : nat) : string :=
  match n with
  | O => EmptyString
  | S n' => String "0" (zeros n')
  end.

Fixpoint take (n : nat) (s : string) : string :=
  match n, s with
  | S n', String c r => String c (take n' r)
  | _, _ => EmptyString
  end.

Fixpoint drop (n : nat) (s : string) : string :=
  match n, s with
  | S n', String _ r => drop n' r
  | _, _ => s
  end.

Definition sign_of (f : float64) : bool :=
  match f with
  | S754_zero s | S754_infinity s | S754_finite s _ _ => s
  | S754_nan => false
  end.

(** [%f] with the shortest digits. *)
Definition fmtF (neg : bool) (ds : string) (dp : Z) : string :=
  let nd := Z.of_nat (String.length ds) in
  let body :=
    if dp <=? 0 then
      if 0 <? nd - dp then "0." ++ zeros (Z.to_nat (- dp)) ++ ds else "0"
    else if dp <? nd then take (Z.to_nat dp) ds ++ "." ++ drop (Z.to_nat dp) ds
    else ds ++ zeros (Z.to_nat (dp - nd)) in
  if neg then String "-" body else body.

(** The exponent of [%e]: a sign and at least two digits. *)
Definition fmt_exponent (exp : Z) : string :=
  let a := Z.abs exp in
  "e" ++ (if exp <? 0 then "-" else "+")
      ++ (if a <? 10 then String "0" (Strconv.FormatUint a) else Strconv.FormatUint a).

(** [%e] with the shortest digits. *)
Definition fmtE (neg : bool) (ds : string) (dp : Z) : string :=
  let '(first, more) :=
    match ds with
    | EmptyString => ("0"%char, EmptyString)
    | String c r => (c, r)
    end in
  let exp := match ds with EmptyString => 0 | _ => dp - 1 end in
  let mantissa :=
    match more with
    | EmptyString => String first EmptyString
    | _ => String first ("." ++ more)
    end in
  let body := mantissa ++ fmt_exponent exp in
  if neg then String "-" body else body.

Inductive verb : Type := verb_e | verb_f | verb_g.

(** [strconv.FormatFloat(f, fmt, -1, 64)] for [fmt] one of ['e'], ['f']
    and ['g'].  With the shortest digits, [%g] is [%e] when the
    exponent is below -4 or at least 6, and [%f] otherwise. *)
Definition FormatFloat (f : float64) (fmt : verb) : string :=
  match f with
  | S754_nan => "NaN"
  | S754_infinity true => "-Inf"
  | S754_infinity false => "+Inf"
  | _ =>
      let x := shortest f in
      match fmt with
      | verb_e => fmtE (sign_of f) (d x) (dp x)
      | verb_f => fmtF (sign_of f) (d x) (dp x)
      | verb_g =>
          let exp := dp x - 1 in
          if (exp <? -4) || (6 <=? exp) then fmtE (sign_of f) (d x) (dp x)
          else fmtF (sign_of f) (d x) (dp x)
      end
  end.

End Ftoa.

(* ===================================================================== *)
(** * Package encoding/json on scalar targets *)
(* ===================================================================== *)

Module Json.

(** The bytes handed to [json.Unmarshal], by what its scanner makes of
    them.  A number carries its literal, a string its decoded content. *)
Inductive data : Type :=
| JNull
| JBool (b : bool)
| JNumber (lit : string)
| JString (s : string)
| JArray
| JObject
| JInvalid.

Inductive Kind : Type :=
| KNull | KBool | KNumber | KString | KArray | KObject | KInvalid.

Definition kind (d : data) : Kind :=
  match d with
  | JNull => KNull
  | JBool _ => KBool
  | JNumber _ => KNumber
  | JString _ => KString
  | JArray => KArray
  | JObject => KObject
  | JInvalid => KInvalid
  end.

(** The [Value] field of an [UnmarshalTypeError]. *)
Definition describe (d : data) : string :=
  match d with
  | JNull => "null"
  | JBool _ => "bool"
  | JNumber _ => "number"
  | JString _ => "string"
  | JArray => "array"
  | JObject => "object"
  | JInvalid => ""
  end.

Definition mismatch {A : Type} (d : data) (type : string) : result A :=
  match d with
  | JInvalid => Err JsonSyntaxError
  | _ => Err (JsonUnmarshalTypeError (describe d) type)
  end.

(** [var v bool; err := json.Unmarshal(data, &v)].  A JSON null leaves
    the target as it is and is no error. *)
Definition Unmarshal_bool (d : data) : result bool :=
  match d with
  | JNull => Ok false
  | JBool b => Ok b
  | _ => mismatch d "bool"
  end.

(** [var v int; err := json.Unmarshal(data, &v)] *)
Definition Unmarshal_int (d : data) : result Z :=
  match d with
  | JNull => Ok 0
  | JNumber lit =>
      match Strconv.ParseInt lit with
      | (n, None) => Ok n
      | (_, Some _) => Err (JsonUnmarshalTypeError ("number " ++ lit) "int")
      end
  | _ => mismatch d "int"
  end.

(** [var v float64; err := json.Unmarshal(data, &v)] *)
Definition Unmarshal_float64 (d : data) : result float64 :=
  match d with
  | JNull => Ok (S754_zero false)
  | JNumber lit =>
      match Atof.ParseFloat lit with
      | (f, None) => Ok f
      | (_, Some _) => Err (JsonUnmarshalTypeError ("number " ++ lit) "float64")
      end
  | _ => mismatch d "float64"
  end.

(** [var v string; err := json.Unmarshal(data, &v)] *)
Definition Unmarshal_string (d : data) : result string :=
  match d with
  | JNull => Ok EmptyString
  | JString s => Ok s
  | _ => mismatch d "string"
  end.

(** [json.Marshal(b)] for a [bool] *)
Definition Marshal_bool (b : bool) : result data := Ok (JBool b).

(** [json.Marshal(i)] for an [int] *)
Definition Marshal_int (i : Z) : result data := Ok (JNumber (Strconv.FormatInt i)).

(** The constants [1e21] and [1e-6] as binary64. *)
Definition float_1e21 : float64 := S754_finite false 7629394531250000 17.
Definition float_1em6 : float64 := S754_finite false 4722366482869645 (-72).

(** The clean-up of a two-digit exponent: [e-09] becomes [e-9]. *)
Definition clean_exponent (b : string) : string :=
  match Strings.rev b with
  | String d1 (String d0 (String sg (String e r))) =>
      if Bytes.same e "e" && (Bytes.same sg "-" || Bytes.same sg "+") && Bytes.same d0 "0"
      then Strings.rev (String d1 (String sg (String e r)))
      else b
  | _ => b
  end.

(** [json.Marshal(f)] for a [float64]: NaN and the infinities are
    refused. *)
Definition Marshal_float64 (f : float64) : result data :=
  if Float64.IsInf f || Float64.IsNaN f then
    Err (JsonUnsupportedValueError (Ftoa.FormatFloat f Ftoa.verb_g))
  else
    let abs := Float64.abs f in
    let is_zero := match f with S754_zero _ => true | _ => false end in
    if negb is_zero && (Float64.ltb abs float_1em6 || negb (Float64.ltb abs float_1e21)) then
      Ok (JNumber (clean_exponent (Ftoa.FormatFloat f Ftoa.verb_e)))
    else Ok (JNumber (Ftoa.FormatFloat f Ftoa.verb_f)).

End Json.

(* ===================================================================== *)
(** * Package yaml.v3 on scalar targets *)
(* ===================================================================== *)

Module Yaml.

(** [node.Decode(&v)] of yaml.v3 into the four scalar targets.  The YAML
    resolver is not modelled: the methods below are written against any
    decoder. *)
Record Host : Type := {
  Node : Type;
  Decode_bool : Node -> result bool;
  Decode_int : Node -> result Z;
  Decode_float64 : Node -> result float64;
  Decode_string : Node -> result string
}.

End Yaml.

(* ===================================================================== *)
(** * Dynamic values: [interface{}] and [driver.Value] *)
(* ===================================================================== *)

Inductive any : Type :=
| AnyNil
| AnyBool (b : bool)
| AnyInt (n : Z)            (* dynamic type int *)
| AnyInt64 (n : Z)
| AnyFloat64 (f : float64)
| AnyString (s : string)
| AnyOther (type : string). (* a value of any other type, by its type's name *)

(** [fmt.Sprintf("%T", v)] *)
Definition type_name (v : any) : string :=
  match v with
  | AnyNil => "<nil>"
  | AnyBool _ => "bool"
  | AnyInt _ => "int"
  | AnyInt64 _ => "int64"
  | AnyFloat64 _ => "float64"
  | AnyString _ => "string"
  | AnyOther t => t
  end.

(** [value == nil] *)
Definition is_nil (v : any) : bool :=
  match v with AnyNil => true | _ => false end.

(** The type assertions [x, ok := value.(T)]: [Some x] when [ok]. *)
Definition as_bool (v : any) : option bool :=
  match v with AnyBool b => Some b | _ => None end.

Definition as_int64 (v : any) : option Z :=
  match v with AnyInt64 n => Some n | _ => None end.

Definition as_float64 (v : any) : option float64 :=
  match v with AnyFloat64 f => Some f | _ => None end.

Definition as_string (v : any) : option string :=
  match v with AnyString s => Some s | _ => None end.

(* ===================================================================== *)
(** * strval.go *)
(* ===================================================================== *)

(** [type Bool bool], [type Int int], [type Float float64],
    [type String string] *)
Definition Bool : Type := bool.
Definition Int : Type := Z.
Definition Float : Type := float64.
Definition String_ : Type := string.

Section Strval.

Variable U : Strings.Unicode.
Variable Y : Yaml.Host.

(** [func parseBool(s string) (bool, error)] *)
Definition parseBool (s : string) : bool * option error :=
  let s := Strings.ToLower U (Strings.TrimSpace U s) in
  if String.eqb s "true" || String.eqb s "yes" || String.eqb s "y" || String.eqb s "1" then
    (true, None)
  else if String.eqb s "false" || String.eqb s "no" || String.eqb s "n" || String.eqb s "0" then
    (false, None)
  else
    (false, Some (Errorf ("cannot parse '" ++ s ++ "' as bool"))).

(** ** Bool *)

Definition Bool_MarshalJSON (b : Bool) : result Json.data := Json.Marshal_bool b.

Definition Bool_UnmarshalJSON (data : Json.data) : method Bool (option error) :=
  match Json.Unmarshal_bool data with
  | Ok boolVal => store boolVal ;; ret None
  | Err _ =>
      match Json.Unmarshal_string data with
      | Err err =>
          store false ;;
          slog_Error "invalid Bool value: not a bool or string" [("error", AttrError err)] ;;
          ret None
      | Ok strVal =>
          match parseBool strVal with
          | (_, Some err2) =>
              store false ;;
              slog_Error "invalid Bool string value"
                         [("value", AttrString strVal); ("error", AttrError err2)] ;;
              ret None
          | (boolVal, None) => store boolVal ;; ret None
          end
      end
  end.

Definition Bool_MarshalYAML (b : Bool) : any * option error := (AnyBool b, None).

Definition Bool_GetValue (b : Bool) : bool := b.

Definition Bool_Value (b : Bool) : any * option error := (AnyBool (Bool_GetValue b), None).

Definition Bool_Scan (value : any) : method Bool (option error) :=
  if is_nil value then store false ;; ret None
  else
    match as_bool value with
    | Some boolVal => store boolVal ;; ret None
    | None =>
    match as_int64 value with
    | Some intVal => store (negb (intVal =? 0)) ;; ret None
    | None =>
    match as_string value with
    | Some strVal =>
        match parseBool strVal with
        | (_, Some err) =>
            store false ;;
            slog_Error "invalid Bool value from database"
                       [("value", AttrString strVal); ("error", AttrError err)] ;;
            ret None
        | (boolVal, None) => store boolVal ;; ret None
        end
    | None =>
        store false ;;
        slog_Error "unsupported Bool value type from database"
                   [("type", AttrString (type_name value))] ;;
        ret None
    end end end.

Definition Bool_UnmarshalYAML (node : Yaml.Node Y) : method Bool (option error) :=
  match Yaml.Decode_bool Y node with
  | Ok boolVal => store boolVal ;; ret None
  | Err _ =>
      match Yaml.Decode_string Y node with
      | Err err =>
          store false ;;
          slog_Error "invalid Bool value: not a bool or string" [("error", AttrError err)] ;;
          ret None
      | Ok strVal =>
          match parseBool strVal with
          | (_, Some err2) =>
              store false ;;
              slog_Error "invalid Bool string value"
                         [("value", AttrString strVal); ("error", AttrError err2)] ;;
              ret None
          | (boolVal, None) => store boolVal ;; ret None
          end
      end
  end.

(** ** Int *)

Definition Int_MarshalJSON (i : Int) : result Json.data := Json.Marshal_int i.

Definition Int_UnmarshalJSON (data : Json.data) : method Int (option error) :=
  match Json.Unmarshal_int data with
  | Ok intVal => store intVal ;; ret None
  | Err _ =>
      match Json.Unmarshal_string data with
      | Err err =>
          store 0 ;;
          slog_Error "invalid Int value: not an int or string" [("error", AttrError err)] ;;
          ret None
      | Ok strVal =>
          match Strconv.Atoi strVal with
          | (_, Some err2) =>
              store 0 ;;
              slog_Error "invalid Int string value"
                         [("value", AttrString strVal); ("error", AttrError err2)] ;;
              ret None
          | (intVal, None) => store intVal ;; ret None
          end
      end
  end.

Definition Int_MarshalYAML (i : Int) : any * option error := (AnyInt i, None).

Definition Int_GetValue (i : Int) : Z := i.

Definition Int_Value (i : Int) : any * option error := (AnyInt (Int_GetValue i), None).

Definition Int_Scan (value : any) : method Int (option error) :=
  if is_nil value then store 0 ;; ret None
  else
    match as_int64 value with
    | Some int64Val => store int64Val ;; ret None
    | None =>
    match as_float64 value with
    | Some floatVal => store (Float64.to_int floatVal) ;; ret None
    | None =>
    match as_string value with
    | Some strVal =>
        match Strconv.Atoi strVal with
        | (_, Some err) =>
            store 0 ;;
            slog_Error "invalid Int value from database"
                       [("value", AttrString strVal); ("error", AttrError err)] ;;
            ret None
        | (intVal, None) => store intVal ;; ret None
        end
    | None =>
        store 0 ;;
        slog_Error "unsupported Int value type from database"
                   [("type", AttrString (type_name value))] ;;
        ret None
    end end end.

Definition Int_UnmarshalYAML (node : Yaml.Node Y) : method Int (option error) :=
  match Yaml.Decode_int Y node with
  | Ok intVal => store intVal ;; ret None
  | Err _ =>
      match Yaml.Decode_string Y node with
      | Err err =>
          store 0 ;;
          slog_Error "invalid Int value: not an int or string" [("error", AttrError err)] ;;
          ret None
      | Ok strVal =>
          match Strconv.Atoi strVal with
          | (_, Some err2) =>
              store 0 ;;
              slog_Error "invalid Int string value"
                         [("value", AttrString strVal); ("error", AttrError err2)] ;;
              ret None
          | (intVal, None) => store intVal ;; ret None
          end
      end
  end.

(** ** Float *)

Definition Float_zero : Float := S754_zero false.

Definition Float_MarshalJSON (f : Float) : result Json.data := Json.Marshal_float64 f.

Definition Float_UnmarshalJSON (data : Json.data) : method Float (option error) :=
  match Json.Unmarshal_float64 data with
  | Ok floatVal => store floatVal ;; ret None
  | Err _ =>
      match Json.Unmarshal_string data with
      | Err err =>
          store Float_zero ;;
          slog_Error "invalid Float value: not a float or string" [("error", AttrError err)] ;;
          ret None
      | Ok strVal =>
          match Atof.ParseFloat strVal with
          | (_, Some err2) =>
              store Float_zero ;;
              slog_Error "invalid Float string value"
                         [("value", AttrString strVal); ("error", AttrError err2)] ;;
              ret None
          | (floatVal, None) => store floatVal ;; ret None
          end
      end
  end.

Definition Float_MarshalYAML (f : Float) : any * option error := (AnyFloat64 f, None).

Definition Float_GetValue (f : Float) : float64 := f.

Definition Float_Value (f : Float) : any * option error := (AnyFloat64 (Float_GetValue f), None).

Definition Float_Scan (value : any) : method Float (option error) :=
  if is_nil value then store Float_zero ;; ret None
  else
    match as_float64 value with
    | Some floatVal => store floatVal ;; ret None
    | None =>
    match as_int64 value with
    | Some intVal => store (Float64.of_int intVal) ;; ret None
    | None =>
    match as_string value with
    | Some strVal =>
        match Atof.ParseFloat strVal with
        | (_, Some err) =>
            store Float_zero ;;
            slog_Error "invalid Float value from database"
                       [("value", AttrString strVal); ("error", AttrError err)] ;;
            ret None
        | (floatVal, None) => store floatVal ;; ret None
        end
    | None =>
        store Float_zero ;;
        slog_Error "unsupported Float value type from database"
                   [("type", AttrString (type_name value))] ;;
        ret None
    end end end.

Definition Float_UnmarshalYAML (node : Yaml.Node Y) : method Float (option error) :=
  match Yaml.Decode_float64 Y node with
  | Ok floatVal => store floatVal ;; ret None
  | Err _ =>
      match Yaml.Decode_string Y node with
      | Err err =>
          store Float_zero ;;
          slog_Error "invalid Float value: not a float or string" [("error", AttrError err)] ;;
          ret None
      | Ok strVal =>
          match Atof.ParseFloat strVal with
          | (_, Some err2) =>
              store Float_zero ;;
              slog_Error "invalid Float string value"
                         [("value", AttrString strVal); ("error", AttrError err2)] ;;
              ret None
          | (floatVal, None) => store floatVal ;; ret None
          end
      end
  end.

End Strval.

(** ** String

    The methods of [String] are exercised by [strval_string_test.go]
    but their source is not among the files of the repository. *)

(** Modelled from the spec: the [String] wrapper's Serialize, which is
    missing from the sources.  "Emits its content as a native string
    token.  Always succeeds." *)
Definition String_MarshalJSON (s : String_) : result Json.data := Ok (Json.JString s).

(** Modelled from the spec: the rendering of a numeric token by the
    [String] wrapper's Deserialize, which is missing from the sources.
    "Render using the canonical shortest round-tripping decimal text
    representation (integers without a fractional part render without
    a decimal point)": the number the literal denotes, as a [float64],
    in the shortest digits that read back as it, in positional
    notation. *)
Definition String_render_number (f : float64) : string :=
  Ftoa.FormatFloat f Ftoa.verb_f.

(** Modelled from the spec: the [String] wrapper's Deserialize, which
    is missing from the sources.  "If the token is a string, adopt
    verbatim.  If numeric, render [...].  If boolean, render as literal
    true / false.  Any other token kind is a failure." *)
Definition String_UnmarshalJSON (data : Json.data) : method String_ (option error) :=
  match data with
  | Json.JString str => store str ;; ret None
  | Json.JNumber _ =>
      match Json.Unmarshal_float64 data with
      | Ok num => store (String_render_number num) ;; ret None
      | Err err => ret (Some err)
      end
  | Json.JBool b => store (if b then "true" else "false") ;; ret None
  | _ => ret (Some (Errorf ("cannot unmarshal " ++ Json.describe data ++ " into String")))
  end.

(** Modelled from the spec: [GetValue] "returns the stored text". *)
Definition String_GetValue (s : String_) : string := s.

(* ===================================================================== *)
(** * Outcomes *)
(* ===================================================================== *)

(** What a call left behind: the error returned, the receiver and the
    log. *)
Definition outcome (T : Type) : Type := (option error * St T)%type.

(** The call stored [v], logged nothing and returned [nil]. *)
Definition adopted {T : Type} (v : T) (r : outcome T) : Prop :=
  r = (None, {| recv := v; logs := [] |}).

(** The call stored the zero value, emitted one record of severity
    error and returned [nil]. *)
Definition fell_back {T : Type} (zero : T) (r : outcome T) : Prop :=
  fst r = None /\ recv (snd r) = zero /\
  exists l, logs (snd r) = [l] /\ level l = LevelError.

(** The call returned an error, and left receiver and log alone. *)
Definition failed {T : Type} (v0 : T) (r : outcome T) : Prop :=
  (exists e, fst r = Some e) /\ snd r = {| recv := v0; logs := [] |}.

Definition truthy : list string := ["true"; "yes"; "y"; "1"].
Definition falsy : list string := ["false"; "no"; "n"; "0"].

(** [Deserialize(Serialize(v))] through JSON, on a receiver that holds
    [v0]: what the call to [UnmarshalJSON] leaves, or nothing when
    [MarshalJSON] failed. *)
Definition Bool_roundtrip (U : Strings.Unicode) (v v0 : Bool) : option (outcome Bool) :=
  match Bool_MarshalJSON v with
  | Ok d => Some (call (Bool_UnmarshalJSON U d) v0)
  | Err _ => None
  end.

Definition Int_roundtrip (v v0 : Int) : option (outcome Int) :=
  match Int_MarshalJSON v with
  | Ok d => Some (call (Int_UnmarshalJSON d) v0)
  | Err _ => None
  end.

Definition Float_roundtrip (v v0 : Float) : option (outcome Float) :=
  match Float_MarshalJSON v with
  | Ok d => Some (call (Float_UnmarshalJSON d) v0)
  | Err _ => None
  end.

(** [Deserialize(Serialize(v))] through YAML.  [MarshalYAML] hands a
    native value to the YAML library, whose encoder writes a node for
    it; [encode] is that encoder, and [UnmarshalYAML] is called on the
    node it wrote. *)
Definition Bool_roundtrip_YAML (U : Strings.Unicode) (Y : Yaml.Host)
    (encode : any -> Yaml.Node Y) (v v0 : Bool) : option (outcome Bool) :=
  match Bool_MarshalYAML v with
  | (x, None) => Some (call (Bool_UnmarshalYAML U Y (encode x)) v0)
  | (_, Some _) => None
  end.

Definition Int_roundtrip_YAML (Y : Yaml.Host)
    (encode : any -> Yaml.Node Y) (v v0 : Int) : option (outcome Int) :=
  match Int_MarshalYAML v with
  | (x, None) => Some (call (Int_UnmarshalYAML Y (encode x)) v0)
  | (_, Some _) => None
  end.

Definition Float_roundtrip_YAML (Y : Yaml.Host)
    (encode : any -> Yaml.Node Y) (v v0 : Float) : option (outcome Float) :=
  match Float_MarshalYAML v with
  | (x, None) => Some (call (Float_UnmarshalYAML Y (encode x)) v0)
  | (_, Some _) => None
  end.

(** The character of a decimal digit. *)
Definition digit_char (d : Z) : ascii := Bytes.of_code (Bytes.code "0" + d).

(* ===================================================================== *)
(** * Vocabulary of the statements and proofs *)
(* ===================================================================== *)

(** Some binary64 values used in examples. *)
(** The binary64 values 42.5 and 42. *)
Definition float_42_5 : float64 := S754_finite false 5981343255101440 (-47).
Definition float_42 : float64 := S754_finite false 5910974510923776 (-47).

(** The binary64 value 1e19, which is above every [int64]. *)
Definition float_1e19 : float64 := S754_finite false 4882812500000000 11.

(** The binary64 nearest to 3.14. *)
Definition float_3_14 : float64 := S754_finite false 7070651414971679 (-51).

(** The binary64 values 123 and 123.45. *)
Definition float_123 : float64 := S754_finite false 8655355533852672 (-46).
Definition float_123_45 : float64 := S754_finite false 8687021468732621 (-46).

(** Strings of ASCII white space, and strings with none at either end. *)
Fixpoint all_space (s : string) : bool :=
  match s with
  | EmptyString => true
  | String c r => Strings.asciiSpace c && all_space r
  end.

Definition trimmed (t : string) : Prop :=
  (forall c r, t = String c r -> Strings.asciiSpace c = false) /\
  (forall c r, Strings.rev t = String c r -> Strings.asciiSpace c = false).

(** A string of digits that starts with a digit other than 0. *)
Definition leading (s : string) : Prop :=
  exists h t, s = String h t /\ Strconv.all_digits s = true /\ Bytes.code h <> 48.

(** [p / q] is the value [m * 2 ^ e]. *)
Definition is_value (m : positive) (e : Z) (p q : positive) : Prop :=
  Zpos p * 2 ^ Z.max 0 (- e) = Zpos m * 2 ^ Z.max 0 e * Zpos q.

(** [v * 10 ^ t] is the value [m * 2 ^ e]. *)
Definition decimal_value (m : positive) (e : Z) (v t : Z) : Prop :=
  v * 10 ^ Z.max 0 t * 2 ^ Z.max 0 (- e) = Zpos m * 2 ^ Z.max 0 e * 10 ^ Z.max 0 (- t).

(** What the search returns: a decimal with a leading digit that reads
    back as the value. *)
Definition good (neg : bool) (m : positive) (e : Z) (x : Ftoa.decimal) : Prop :=
  Ftoa.reads_back_as neg m e x = true /\ leading (Ftoa.d x).

(** [t] starts with "e" and reads as the exponent [exp]. *)
Definition exponent_check (t : string) (exp : Z) : bool :=
  match t with
  | String c _ => Bytes.same c "e"
  | EmptyString => false
  end &&
  match Atof.read_exponent false t 0 false with
  | Some (e', false, EmptyString) => e' =? exp
  | _ => false
  end.

Definition exponent_checks (exp : Z) : bool :=
  exponent_check (Ftoa.fmt_exponent exp) exp &&
  exponent_check (Json.clean_exponent (Ftoa.fmt_exponent exp)) exp &&
  (4 <=? Z.of_nat (String.length (Ftoa.fmt_exponent exp))).

Fixpoint zrange (lo : Z) (n : nat) : list Z :=
  match n with
  | O => nil
  | S n' => lo :: zrange (lo + 1) n'
  end.

(** The call returned [nil] and either logged nothing, or left the zero
    value and one record of severity error. *)
Definition settled {T : Type} (zero : T) (r : outcome T) : Prop :=
  fst r = None /\ (logs (snd r) = [] \/ fell_back zero r).

(** A YAML decoder for examples: a node is a scalar by its text,
    resolved as a string only. *)
Definition yaml_strings : Yaml.Host :=
  {| Yaml.Node := string;
     Yaml.Decode_bool := fun _ => Err (YamlTypeError []);
     Yaml.Decode_int := fun _ => Err (YamlTypeError []);
     Yaml.Decode_float64 := fun _ => Err (YamlTypeError []);
     Yaml.Decode_string := fun n => Ok n |}.

(** A YAML decoder for examples: a node is the native value it was
    written for, and decodes as a value of that type only. *)
Definition yaml_values : Yaml.Host :=
  {| Yaml.Node := any;
     Yaml.Decode_bool := fun n =>
       match n with AnyBool b => Ok b | _ => Err (YamlTypeError []) end;
     Yaml.Decode_int := fun n =>
       match n with AnyInt i => Ok i | _ => Err (YamlTypeError []) end;
     Yaml.Decode_float64 := fun n =>
       match n with AnyFloat64 f => Ok f | _ => Err (YamlTypeError []) end;
     Yaml.Decode_string := fun n =>
       match n with AnyString t => Ok t | _ => Err (YamlTypeError []) end |}.

(** The number a non-empty run of decimal digits denotes, and the
    number an optionally signed one denotes. *)
Definition unsigned_value (ds : string) : option Z :=
  match ds with
  | EmptyString => None
  | _ => if Strconv.all_digits ds then Some (Strconv.digits_value ds 0) else None
  end.

Definition integer_value (s : string) : option Z :=
  match s with
  | EmptyString => None
  | String c r =>
      if Bytes.same c "+" then unsigned_value r
      else if Bytes.same c "-" then option_map Z.opp (unsigned_value r)
      else unsigned_value s
  end.

(** The integers of Go's [int64], which is [int] on a 64-bit platform. *)
Definition is_int64 (v : Z) : bool := (- 2 ^ 63 <=? v) && (v <? 2 ^ 63).

(** The strings without an ASCII white-space byte. *)
Fixpoint no_space (s : string) : bool :=
  match s with
  | EmptyString => true
  | String c r => negb (Strings.asciiSpace c) && no_space r
  end.

(* ===================================================================== *)
(** * Package encoding/json: the grammar of numbers *)
(* ===================================================================== *)

Module JsonNumber.

Import Bytes.

(** [for len(s) > 0 && '0' <= s[0] && s[0] <= '9' { s = s[1:] }] *)
Fixpoint skip_digits (s : string) : string :=
  match s with
  | String c r => if in_range "0" "9" c then skip_digits r else s
  | EmptyString => s
  end.

(** The digits before the point: a 0, or a digit from 1 to 9 and any
    digits; what is left of the input, or nothing when there is no
    such start. *)
Definition integer_part (s : string) : option string :=
  match s with
  | EmptyString => None
  | String c r =>
      if same c "0" then Some r
      else if in_range "1" "9" c then Some (skip_digits r)
      else None
  end.

(** A point followed by one or more digits, if there is one. *)
Definition fraction (s : string) : string :=
  match s with
  | String c0 (String c1 r) =>
      if same c0 "." && in_range "0" "9" c1 then skip_digits r else s
  | _ => s
  end.

(** An e or E followed by an optional sign and one or more digits, if
    there is one, and then the end of the input. *)
Definition exponent_end (s : string) : bool :=
  let at_end (s : string) := match s with EmptyString => true | _ => false end in
  match s with
  | String c0 (String c1 r) =>
      if same c0 "e" || same c0 "E" then
        if same c1 "+" || same c1 "-" then
          match r with
          | EmptyString => false
          | _ => at_end (skip_digits r)
          end
        else at_end (skip_digits (String c1 r))
      else false
  | _ => at_end s
  end.

(** [isValidNumber]: whether [s] is a number of the JSON grammar, which
    is when the scanner makes one number token of it. *)
Definition isValidNumber (s : string) : bool :=
  match s with
  | EmptyString => false
  | String c r =>
      let s := if same c "-" then r else s in
      match integer_part s with
      | None => false
      | Some s => exponent_end (fraction s)
      end
  end.

End JsonNumber.

(** What [json.Marshal] wrote is a number of the JSON grammar. *)
Definition is_number (r : result Json.data) : bool :=
  match r with
  | Ok (Json.JNumber lit) => JsonNumber.isValidNumber lit
  | _ => false
  end.

(** The exponent of [%e], as written and as cleaned up, ends a JSON
    number. *)
Definition exponent_ends (exp : Z) : bool :=
  JsonNumber.exponent_end (Ftoa.fmt_exponent exp) &&
  JsonNumber.exponent_end (Json.clean_exponent (Ftoa.fmt_exponent exp)).


(* ===================================================================== *)
(** * Properties *)
(* ===================================================================== *)


(* ===================================================================== *)
(** ** Decimal digits *)
(* ===================================================================== *)

Lemma code_range (c : ascii) : 0 <= Bytes.code c < 256.
Proof.
  unfold Bytes.code. destruct c as [[] [] [] [] [] [] [] []]; vm_compute; split; congruence.
Qed.

Lemma code_of_code (n : Z) : 0 <= n < 256 -> Bytes.code (Bytes.of_code n) = n.
Proof.
  intros H. unfold Bytes.code, Bytes.of_code.
  rewrite Z.mod_small by lia.
  rewrite N_ascii_embedding.
  - apply Z2N.id. lia.
  - apply N2Z.inj_lt. rewrite Z2N.id by lia. simpl. lia.
Qed.

Lemma of_code_code (c : ascii) : Bytes.of_code (Bytes.code c) = c.
Proof.
  unfold Bytes.code, Bytes.of_code. pose proof (code_range c) as H. unfold Bytes.code in H.
  rewrite Z.mod_small by lia. rewrite N2Z.id. apply ascii_N_embedding.
Qed.

Lemma digit_char_code (d : Z) : 0 <= d < 10 -> Bytes.code (digit_char d) = 48 + d.
Proof.
  intros H. unfold digit_char. change (Bytes.code "0") with 48.
  apply code_of_code. lia.
Qed.

Lemma digit_char_is_digit (d : Z) : 0 <= d < 10 -> Bytes.is_digit (digit_char d) = true.
Proof.
  intros H. unfold Bytes.is_digit, Bytes.in_range. rewrite digit_char_code by exact H.
  change (Bytes.code "0") with 48. change (Bytes.code "9") with 57.
  apply andb_true_intro. split; apply Z.leb_le; lia.
Qed.

Lemma is_digit_code (c : ascii) :
  Bytes.is_digit c = true <-> 48 <= Bytes.code c <= 57.
Proof.
  unfold Bytes.is_digit, Bytes.in_range.
  change (Bytes.code "0") with 48. change (Bytes.code "9") with 57.
  rewrite andb_true_iff, !Z.leb_le. tauto.
Qed.

Lemma append_assoc (a b c : string) : (a ++ b) ++ c = a ++ (b ++ c).
Proof. induction a as [| x a IH]; simpl; [reflexivity | now rewrite IH]. Qed.

Lemma append_nil_r (a : string) : a ++ "" = a.
Proof. induction a as [| x a IH]; simpl; [reflexivity | now rewrite IH]. Qed.

Lemma digits_of_S (fuel : nat) (u : Z) (acc : string) :
  Strconv.digits_of (S fuel) u acc =
  if u <? 10 then String (digit_char (u mod 10)) acc
  else Strconv.digits_of fuel (u / 10) (String (digit_char (u mod 10)) acc).
Proof. reflexivity. Qed.

Lemma digits_of_acc (fuel : nat) (u : Z) (acc : string) :
  Strconv.digits_of fuel u acc = Strconv.digits_of fuel u "" ++ acc.
Proof.
  revert u acc. induction fuel as [| fuel IH]; intros u acc; [reflexivity |].
  rewrite !digits_of_S.
  destruct (u <? 10); [reflexivity |].
  rewrite IH. rewrite (IH _ (String _ "")). rewrite append_assoc. reflexivity.
Qed.

Lemma digits_value_app (s1 s2 : string) (n : Z) :
  Strconv.digits_value (s1 ++ s2) n = Strconv.digits_value s2 (Strconv.digits_value s1 n).
Proof.
  revert n. induction s1 as [| c s1 IH]; intros n; simpl; [reflexivity | apply IH].
Qed.

Lemma all_digits_app (s1 s2 : string) :
  Strconv.all_digits (s1 ++ s2) = Strconv.all_digits s1 && Strconv.all_digits s2.
Proof.
  induction s1 as [| c s1 IH]; simpl; [reflexivity |].
  rewrite IH. apply andb_assoc.
Qed.

Lemma digits_of_all_digits (fuel : nat) (u : Z) :
  0 <= u -> Strconv.all_digits (Strconv.digits_of fuel u "") = true.
Proof.
  revert u. induction fuel as [| fuel IH]; intros u Hu; [reflexivity |].
  rewrite digits_of_S.
  assert (Hd : Bytes.is_digit (digit_char (u mod 10)) = true)
    by (apply digit_char_is_digit; apply Z.mod_pos_bound; lia).
  destruct (u <? 10).
  - cbn [Strconv.all_digits]. rewrite Hd. reflexivity.
  - rewrite digits_of_acc, all_digits_app. rewrite IH by (apply Z.div_pos; lia).
    cbn [Strconv.all_digits]. rewrite Hd. reflexivity.
Qed.

Lemma digits_of_value (fuel : nat) (u : Z) :
  0 <= u < 10 ^ Z.of_nat fuel ->
  Strconv.digits_value (Strconv.digits_of fuel u "") 0 = u.
Proof.
  revert u. induction fuel as [| fuel IH]; intros u Hu.
  - simpl in *. lia.
  - rewrite digits_of_S.
    assert (Hm : 0 <= u mod 10 < 10) by (apply Z.mod_pos_bound; lia).
    assert (Hc : Bytes.code (digit_char (u mod 10)) - Bytes.code "0" = u mod 10).
    { rewrite digit_char_code by exact Hm. change (Bytes.code "0") with 48. lia. }
    destruct (Z.ltb_spec u 10) as [Hlt | Hge].
    + cbn [Strconv.digits_value]. rewrite Hc. rewrite Z.mod_small by lia. lia.
    + rewrite digits_of_acc, digits_value_app. rewrite IH.
      * cbn [Strconv.digits_value]. rewrite Hc. pose proof (Z.div_mod u 10). lia.
      * split; [apply Z.div_pos; lia |].
        apply Z.div_lt_upper_bound; [lia |].
        rewrite Nat2Z.inj_succ, Z.pow_succ_r in Hu by lia. lia.
Qed.

Lemma digits_of_nonempty (fuel : nat) (u : Z) (acc : string) :
  Strconv.digits_of (S fuel) u acc <> "".
Proof.
  revert u acc. induction fuel as [| fuel IH]; intros u acc; rewrite digits_of_S.
  - destruct (u <? 10); discriminate.
  - destruct (u <? 10); [discriminate | apply IH].
Qed.

Lemma FormatUint_fuel (u : Z) : 0 <= u -> u < 10 ^ Z.of_nat (S (Z.to_nat (Z.log2 u))).
Proof.
  intros Hu. rewrite Nat2Z.inj_succ, Z2Nat.id by apply Z.log2_nonneg.
  destruct (Z.eq_dec u 0) as [-> | Hne]; [reflexivity |].
  pose proof (Z.log2_spec u ltac:(lia)) as [_ Hhi].
  eapply Z.lt_le_trans; [exact Hhi |].
  apply Z.pow_le_mono_l. lia.
Qed.

Lemma FormatUint_value (u : Z) : 0 <= u -> Strconv.digits_value (Strconv.FormatUint u) 0 = u.
Proof.
  intros Hu. apply digits_of_value. split; [exact Hu | apply FormatUint_fuel; exact Hu].
Qed.

Lemma FormatUint_all_digits (u : Z) : 0 <= u -> Strconv.all_digits (Strconv.FormatUint u) = true.
Proof. intros Hu. apply digits_of_all_digits. exact Hu. Qed.

Lemma FormatUint_nonempty (u : Z) : Strconv.FormatUint u <> "".
Proof. apply digits_of_nonempty. Qed.

Lemma digits_value_mono (s : string) (n : Z) :
  Strconv.all_digits s = true -> 0 <= n -> n <= Strconv.digits_value s n.
Proof.
  revert n. induction s as [| c s IH]; intros n Hs Hn; simpl in *; [lia |].
  apply andb_true_iff in Hs. destruct Hs as [Hc Hs].
  apply is_digit_code in Hc. change (Bytes.code "0") with 48.
  specialize (IH (n * 10 + (Bytes.code c - 48)) Hs). lia.
Qed.

(** The loop of [ParseUint] reads a string of digits to its value when
    that value fits 64 bits. *)
Lemma ParseUint_loop_digits (s : string) (n : Z) :
  Strconv.all_digits s = true -> 0 <= n ->
  Strconv.digits_value s n <= Strconv.maxUint64 ->
  Strconv.ParseUint_loop s n = (Strconv.digits_value s n, None).
Proof.
  revert n. induction s as [| c s IH]; intros n Hs Hn Hv; [reflexivity |].
  simpl in Hs. apply andb_true_iff in Hs. destruct Hs as [Hc Hs].
  pose proof Hc as Hcode. apply is_digit_code in Hcode.
  simpl Strconv.digits_value in *. change (Bytes.code "0") with 48 in *.
  pose proof (digits_value_mono s (n * 10 + (Bytes.code c - 48)) Hs ltac:(lia)) as Hm.
  unfold Strconv.maxUint64 in *.
  cbn [Strconv.ParseUint_loop].
  unfold Bytes.is_digit in Hc. rewrite Hc.
  change (Bytes.code "0") with 48.
  destruct (Z.leb_spec 10 (Bytes.code c - 48)); [lia |].
  change (Strconv.maxUint64 / 10 + 1) with 1844674407370955162.
  destruct (Z.leb_spec 1844674407370955162 n); [change (2 ^ 64) with 18446744073709551616 in *; lia |].
  change (2 ^ 64) with 18446744073709551616 in *.
  rewrite Z.mod_small by lia.
  destruct (Z.ltb_spec (n * 10 + (Bytes.code c - 48)) (n * 10)); [lia |].
  unfold Strconv.maxUint64. change (2 ^ 64 - 1) with 18446744073709551615.
  destruct (Z.ltb_spec 18446744073709551615 (n * 10 + (Bytes.code c - 48))); [lia |].
  simpl. apply IH; try assumption; lia.
Qed.

Lemma ParseUint_FormatUint (u : Z) :
  0 <= u <= Strconv.maxUint64 ->
  Strconv.ParseUint (Strconv.FormatUint u) = (u, None).
Proof.
  intros Hu. unfold Strconv.ParseUint.
  pose proof (FormatUint_nonempty u) as Hne.
  pose proof (FormatUint_value u ltac:(lia)) as Hv.
  pose proof (FormatUint_all_digits u ltac:(lia)) as Hd.
  destruct (Strconv.FormatUint u) as [| c r] eqn:E; [congruence |].
  rewrite ParseUint_loop_digits; rewrite ?Hv; try assumption; try lia.
  reflexivity.
Qed.

(** [ParseInt] reads back what [FormatInt] writes, for every [int64]. *)
Lemma ParseInt_FormatInt (i : Z) :
  - 2 ^ 63 <= i < 2 ^ 63 ->
  Strconv.ParseInt (Strconv.FormatInt i) = (i, None).
Proof.
  intros Hi. unfold Strconv.ParseInt, Strconv.FormatInt, Strconv.ParseInt_as.
  change (2 ^ 63) with 9223372036854775808 in *.
  destruct (Z.ltb_spec i 0) as [Hneg | Hpos].
  - change (Bytes.same "-" "-") with true. change (Bytes.same "-" "+") with false.
    cbn [orb]. rewrite ParseUint_FormatUint by (unfold Strconv.maxUint64; simpl; lia).
    cbn [negb andb].
    destruct (Z.ltb_spec 9223372036854775808 (- i)); [lia |].
    f_equal. lia.
  - pose proof (FormatUint_nonempty i) as Hne.
    pose proof (FormatUint_all_digits i Hpos) as Hd.
    pose proof (ParseUint_FormatUint i ltac:(unfold Strconv.maxUint64; simpl; lia)) as Hp.
    destruct (Strconv.FormatUint i) as [| c r] eqn:E; [congruence |].
    simpl in Hd. apply andb_true_iff in Hd. destruct Hd as [Hc _].
    apply is_digit_code in Hc.
    assert (Hm : Bytes.same c "-" = false).
    { unfold Bytes.same. change (Bytes.code "-") with 45. apply Z.eqb_neq. lia. }
    assert (Hq : Bytes.same c "+" = false).
    { unfold Bytes.same. change (Bytes.code "+") with 43. apply Z.eqb_neq. lia. }
    rewrite Hm, Hq. cbn [orb]. rewrite Hp. cbn [negb andb].
    destruct (Z.leb_spec 9223372036854775808 i); [lia | reflexivity].
Qed.

(* ===================================================================== *)
(** ** Rounding a value that is a binary64 *)
(* ===================================================================== *)

Lemma digits2_pos_size (p : positive) : digits2_pos p = Pos.size p.
Proof. induction p; simpl; congruence. Qed.

Lemma Zdigits2_log2 (p : positive) : Zdigits2 (Zpos p) = Z.log2 (Zpos p) + 1.
Proof.
  unfold Zdigits2. rewrite digits2_pos_size.
  destruct p; simpl; rewrite ?Pos.add_1_r; try lia.
Qed.

Lemma Zdigits2_bounds (p : positive) :
  2 ^ (Zdigits2 (Zpos p) - 1) <= Zpos p < 2 ^ Zdigits2 (Zpos p).
Proof.
  rewrite Zdigits2_log2. replace (Z.log2 (Zpos p) + 1 - 1) with (Z.log2 (Zpos p)) by lia.
  replace (Z.log2 (Zpos p) + 1) with (Z.succ (Z.log2 (Zpos p))) by lia.
  apply Z.log2_spec. lia.
Qed.

Lemma Zdigits2_pos_pos (p : positive) : 0 < Zdigits2 (Zpos p).
Proof. rewrite Zdigits2_log2. pose proof (Z.log2_nonneg (Zpos p)). lia. Qed.

Lemma Zdigits2_mul_pow2 (p : positive) (j : Z) :
  0 <= j -> Zdigits2 (Zpos p * 2 ^ j) = Zdigits2 (Zpos p) + j.
Proof.
  intros Hj.
  assert (Hp : 0 < Zpos p * 2 ^ j) by (apply Z.mul_pos_pos; [lia | apply Z.pow_pos_nonneg; lia]).
  destruct (Zpos p * 2 ^ j) as [| q | q] eqn:E; try lia.
  rewrite !Zdigits2_log2. rewrite <- E. rewrite Z.log2_mul_pow2 by lia. lia.
Qed.

(** Shifting [m * 2 ^ j] right by [j] bits is exact. *)
Lemma iter_shr_exact (j : positive) (m : Z) :
  0 < m ->
  iter_pos shr_1 j {| shr_m := m * 2 ^ Zpos j; shr_r := false; shr_s := false |} =
  {| shr_m := m; shr_r := false; shr_s := false |}.
Proof.
  revert m. induction j as [j IH | j IH |]; intros m Hm.
  - cbn [iter_pos].
    assert (E : m * 2 ^ Zpos j~1 = 2 * ((m * 2 ^ Zpos j) * 2 ^ Zpos j)).
    { replace (Zpos j~1) with (Zpos j + Zpos j + 1) by lia.
      rewrite !Z.pow_add_r, Z.pow_1_r by lia. ring. }
    rewrite E.
    assert (Hq : 0 < m * 2 ^ Zpos j * 2 ^ Zpos j).
    { apply Z.mul_pos_pos; [apply Z.mul_pos_pos |]; try lia; apply Z.pow_pos_nonneg; lia. }
    destruct (m * 2 ^ Zpos j * 2 ^ Zpos j) as [| q | q] eqn:Eq; try lia.
    change (2 * Zpos q) with (Zpos q~0). cbn [shr_1 orb].
    rewrite <- Eq. rewrite IH by (apply Z.mul_pos_pos; [lia | apply Z.pow_pos_nonneg; lia]).
    apply IH. exact Hm.
  - cbn [iter_pos].
    assert (E : m * 2 ^ Zpos j~0 = (m * 2 ^ Zpos j) * 2 ^ Zpos j).
    { replace (Zpos j~0) with (Zpos j + Zpos j) by lia.
      rewrite Z.pow_add_r by lia. ring. }
    rewrite E. rewrite IH by (apply Z.mul_pos_pos; [lia | apply Z.pow_pos_nonneg; lia]).
    apply IH. exact Hm.
  - cbn [iter_pos]. change (2 ^ 1) with 2.
    destruct m as [| q | q]; try lia.
    replace (Zpos q * 2) with (Zpos q~0) by lia. reflexivity.
Qed.

Section Exact.

Variable m : positive.
Variable e : Z.
Hypothesis Hbounded : bounded Float64.prec Float64.emax m e = true.

Lemma bounded_canonical : fexp Float64.prec Float64.emax (Zdigits2 (Zpos m) + e) = e.
Proof.
  unfold bounded in Hbounded. apply andb_true_iff in Hbounded.
  destruct Hbounded as [Hc _]. unfold canonical_mantissa in Hc.
  apply Z.eqb_eq in Hc. exact Hc.
Qed.

Lemma bounded_emax : e <= Float64.emax - Float64.prec.
Proof.
  unfold bounded in Hbounded. apply andb_true_iff in Hbounded.
  destruct Hbounded as [_ He]. apply Z.leb_le in He. exact He.
Qed.

Lemma fexp_mono (x y : Z) :
  x <= y -> fexp Float64.prec Float64.emax x <= fexp Float64.prec Float64.emax y.
Proof. unfold fexp. lia. Qed.

(** Rounding [m * 2 ^ j * 2 ^ (e - j)], given exactly, returns [m * 2 ^ e]. *)
Lemma binary_round_aux_exact (sx : bool) (j : Z) :
  0 <= j ->
  binary_round_aux Float64.prec Float64.emax sx (Zpos m * 2 ^ j) (e - j) loc_Exact =
  S754_finite sx m e.
Proof.
  intros Hj. unfold binary_round_aux.
  assert (Hs1 : shr_fexp Float64.prec Float64.emax (Zpos m * 2 ^ j) (e - j) loc_Exact =
                ({| shr_m := Zpos m; shr_r := false; shr_s := false |}, e)).
  { unfold shr_fexp. rewrite Zdigits2_mul_pow2 by exact Hj.
    replace (Zdigits2 (Zpos m) + j + (e - j)) with (Zdigits2 (Zpos m) + e) by lia.
    rewrite bounded_canonical. replace (e - (e - j)) with j by lia.
    cbn [shr_record_of_loc]. unfold shr.
    destruct j as [| pj | pj]; try lia.
    - rewrite Z.pow_0_r, Z.mul_1_r. f_equal. lia.
    - rewrite iter_shr_exact by lia. f_equal. lia. }
  rewrite Hs1. cbn [shr_m loc_of_shr_record round_nearest_even].
  assert (Hs2 : shr_fexp Float64.prec Float64.emax (Zpos m) e loc_Exact =
                ({| shr_m := Zpos m; shr_r := false; shr_s := false |}, e)).
  { unfold shr_fexp. rewrite bounded_canonical. rewrite Z.sub_diag. reflexivity. }
  rewrite Hs2. cbn [shr_m].
  pose proof bounded_emax as He. apply Z.leb_le in He. rewrite He. reflexivity.
Qed.

Lemma is_value_digits (p q : positive) :
  is_value m e p q ->
  Zdigits2 (Zpos p) - Zdigits2 (Zpos q) <= Zdigits2 (Zpos m) + e.
Proof.
  unfold is_value. intros H.
  pose proof (Zdigits2_bounds p) as [Hp _].
  pose proof (Zdigits2_bounds q) as [_ Hq].
  pose proof (Zdigits2_bounds m) as [_ Hm].
  pose proof (Zdigits2_pos_pos p). pose proof (Zdigits2_pos_pos q).
  pose proof (Zdigits2_pos_pos m).
  set (dp := Zdigits2 (Zpos p)) in *. set (dq := Zdigits2 (Zpos q)) in *.
  set (dm := Zdigits2 (Zpos m)) in *.
  destruct (Z.le_gt_cases (dp - dq) (dm + e)) as [Hle | Hgt]; [exact Hle | exfalso].
  (* 2^(dp-1) * 2^max(0,-e) <= p * ... = m * 2^max(0,e) * q < 2^dm * 2^max(0,e) * 2^dq *)
  assert (K1 : 2 ^ (dp - 1) * 2 ^ Z.max 0 (- e) <= Zpos p * 2 ^ Z.max 0 (- e)).
  { apply Z.mul_le_mono_nonneg_r; [apply Z.pow_nonneg; lia | exact Hp]. }
  assert (K2 : Zpos m * 2 ^ Z.max 0 e * Zpos q < 2 ^ dm * 2 ^ Z.max 0 e * 2 ^ dq).
  { assert (0 < 2 ^ Z.max 0 e) by (apply Z.pow_pos_nonneg; lia).
    assert (0 < 2 ^ dm) by (apply Z.pow_pos_nonneg; lia).
    assert (Ha : 0 <= Zpos m * 2 ^ Z.max 0 e) by (apply Z.mul_nonneg_nonneg; lia).
    assert (Hb : Zpos m * 2 ^ Z.max 0 e < 2 ^ dm * 2 ^ Z.max 0 e)
      by (apply Z.mul_lt_mono_pos_r; lia).
    apply Z.mul_lt_mono_nonneg; lia. }
  assert (K3 : 2 ^ (dp - 1 + Z.max 0 (- e)) < 2 ^ (dm + Z.max 0 e + dq)).
  { rewrite !Z.pow_add_r by lia. lia. }
  apply Z.pow_lt_mono_r_iff in K3; lia.
Qed.

Lemma SFdiv_core_exact (p q : positive) :
  is_value m e p q ->
  exists e', e' <= e /\
    SFdiv_core_binary Float64.prec Float64.emax (Zpos p) 0 (Zpos q) 0 =
    (Zpos m * 2 ^ (e - e'), e', loc_Exact).
Proof.
  intros H. pose proof (is_value_digits p q H) as Hd.
  unfold SFdiv_core_binary.
  set (D := Zdigits2 (Zpos p) + 0 - (Zdigits2 (Zpos q) + 0)).
  set (e' := Z.min (fexp Float64.prec Float64.emax D) (0 - 0)).
  assert (He' : e' <= e).
  { unfold e'. pose proof (fexp_mono D (Zdigits2 (Zpos m) + e) ltac:(unfold D; lia)) as Hf.
    rewrite bounded_canonical in Hf. lia. }
  assert (He0 : e' <= 0) by (unfold e'; lia).
  exists e'. split; [exact He' |].
  cbv zeta.
  set (s := 0 - 0 - e').
  set (m' := match s with Z.pos _ => Z.shiftl (Zpos p) s | 0 => Zpos p | Z.neg _ => 0 end).
  assert (Hm' : m' = Zpos p * 2 ^ (- e')).
  { unfold m', s. replace (0 - 0 - e') with (- e') by lia.
    destruct (- e') as [| pe | pe] eqn:E; [lia | | lia].
    rewrite Z.shiftl_mul_pow2 by lia. reflexivity. }
  assert (Hq : m' = Zpos q * (Zpos m * 2 ^ (e - e')) + 0).
  { rewrite Hm'. unfold is_value in H.
    destruct (Z.le_gt_cases 0 e) as [Hpos | Hneg].
    - rewrite (Z.max_l 0 (- e)), (Z.max_r 0 e) in H by lia.
      rewrite Z.pow_0_r, Z.mul_1_r in H. rewrite H.
      replace (e - e') with (e + - e') by lia. rewrite Z.pow_add_r by lia. ring.
    - rewrite (Z.max_r 0 (- e)), (Z.max_l 0 e) in H by lia.
      rewrite Z.pow_0_r, Z.mul_1_r in H.
      replace (- e') with (- e + (e - e')) by lia. rewrite Z.pow_add_r by lia.
      rewrite Z.mul_assoc, H. ring. }
  destruct (Z.div_eucl m' (Zpos q)) as [qq rr] eqn:Ediv.
  assert (Hrr : rr = m' mod Zpos q) by (unfold Z.modulo; rewrite Ediv; reflexivity).
  assert (Hqq : qq = m' / Zpos q) by (unfold Z.div; rewrite Ediv; reflexivity).
  rewrite Z.add_0_r in Hq.
  assert (Hq1 : m' / Zpos q = Zpos m * 2 ^ (e - e')).
  { symmetry. apply Z.div_unique_exact; [lia | exact Hq]. }
  assert (Hr1 : m' mod Zpos q = 0).
  { rewrite Hq, Z.mul_comm. apply Z_mod_mult. }
  rewrite Hqq, Hrr, Hq1, Hr1.
  f_equal. unfold new_location, new_location_even, new_location_odd.
  destruct (Z.even (Zpos q)); reflexivity.
Qed.

Lemma round_ratio_exact (sx : bool) (p q : positive) :
  is_value m e p q -> Float64.round_ratio sx p q = S754_finite sx m e.
Proof.
  intros H. unfold Float64.round_ratio.
  destruct (SFdiv_core_exact p q H) as [e' [He' E]]. rewrite E.
  replace e' with (e - (e - e')) at 2 by lia.
  apply binary_round_aux_exact. lia.
Qed.

(** The value [c * b ^ j], handed to [round_scaled], is [m * 2 ^ e]. *)
Lemma round_scaled_exact (sx : bool) (c b j : Z) :
  0 < c -> 0 < b ->
  c * b ^ Z.max 0 j * 2 ^ Z.max 0 (- e) = Zpos m * 2 ^ Z.max 0 e * b ^ Z.max 0 (- j) ->
  Float64.round_scaled sx c b j = S754_finite sx m e.
Proof.
  intros Hc Hb H. unfold Float64.round_scaled.
  destruct c as [| pc | pc]; try lia.
  destruct (Z.leb_spec 0 j) as [Hj | Hj].
  - apply round_ratio_exact. unfold is_value.
    rewrite (Z.max_r 0 j), (Z.max_l 0 (- j)) in H by lia.
    rewrite Z.pow_0_r in H.
    assert (0 < b ^ j) by (apply Z.pow_pos_nonneg; lia).
    rewrite Pos2Z.inj_mul, Z2Pos.id by lia. lia.
  - apply round_ratio_exact. unfold is_value.
    rewrite (Z.max_l 0 j), (Z.max_r 0 (- j)) in H by lia.
    rewrite Z.pow_0_r in H.
    assert (0 < b ^ (- j)) by (apply Z.pow_pos_nonneg; lia).
    rewrite Z2Pos.id by lia. lia.
Qed.

End Exact.

(* ===================================================================== *)
(** ** Strings of digits *)
(* ===================================================================== *)

Lemma length_append (a b : string) :
  String.length (a ++ b) = (String.length a + String.length b)%nat.
Proof. induction a as [| x a IH]; simpl; [reflexivity | now rewrite IH]. Qed.

Lemma rev_acc_append (s acc : string) :
  Strings.rev_acc s acc = Strings.rev s ++ acc.
Proof.
  unfold Strings.rev. revert acc.
  induction s as [| c s IH]; intros acc; simpl; [reflexivity |].
  rewrite IH. rewrite (IH (String c "")). rewrite append_assoc. reflexivity.
Qed.

Lemma rev_cons (c : ascii) (s : string) :
  Strings.rev (String c s) = Strings.rev s ++ String c "".
Proof. unfold Strings.rev at 1. simpl. apply rev_acc_append. Qed.

Lemma rev_append (a b : string) :
  Strings.rev (a ++ b) = Strings.rev b ++ Strings.rev a.
Proof.
  induction a as [| c a IH]; simpl.
  - rewrite append_nil_r. reflexivity.
  - rewrite !rev_cons, IH, append_assoc. reflexivity.
Qed.

Lemma rev_involutive (s : string) : Strings.rev (Strings.rev s) = s.
Proof.
  induction s as [| c s IH]; [reflexivity |].
  rewrite rev_cons, rev_append, IH. reflexivity.
Qed.

Lemma zeros_value (z : nat) (n : Z) :
  Strconv.digits_value (Ftoa.zeros z) n = n * 10 ^ Z.of_nat z.
Proof.
  revert n. induction z as [| z IH]; intros n.
  - simpl. lia.
  - cbn [Ftoa.zeros Strconv.digits_value]. rewrite IH.
    change (Bytes.code "0" - Bytes.code "0") with 0.
    rewrite Nat2Z.inj_succ, Z.pow_succ_r by lia. ring.
Qed.

Lemma zeros_all_digits (z : nat) : Strconv.all_digits (Ftoa.zeros z) = true.
Proof. induction z as [| z IH]; [reflexivity | exact IH]. Qed.

Lemma zeros_length (z : nat) : String.length (Ftoa.zeros z) = z.
Proof. induction z as [| z IH]; simpl; congruence. Qed.

Lemma rev_zeros (z : nat) : Strings.rev (Ftoa.zeros z) = Ftoa.zeros z.
Proof.
  induction z as [| z IH]; [reflexivity |].
  cbn [Ftoa.zeros]. rewrite rev_cons, IH.
  clear IH. induction z as [| z IH]; [reflexivity |].
  cbn [Ftoa.zeros append]. rewrite IH. reflexivity.
Qed.

Lemma same_zero (c : ascii) : Bytes.same c "0" = true <-> Bytes.code c = 48.
Proof. unfold Bytes.same. change (Bytes.code "0") with 48. apply Z.eqb_eq. Qed.

(** Dropping the zeros in front of [r]. *)
Lemma strip_zeros_rev_spec (r : string) :
  exists z, r = Ftoa.zeros z ++ Ftoa.strip_zeros_rev r /\
            (forall c t, Ftoa.strip_zeros_rev r = String c t -> Bytes.code c <> 48).
Proof.
  induction r as [| c r [z [IH1 IH2]]].
  - exists 0%nat. split; [reflexivity | discriminate].
  - cbn [Ftoa.strip_zeros_rev].
    destruct (Bytes.same c "0") eqn:E.
    + exists (S z). split.
      * cbn [Ftoa.zeros append]. rewrite <- IH1.
        apply same_zero in E. f_equal.
        rewrite <- (of_code_code c), E. reflexivity.
      * exact IH2.
    + exists 0%nat. split; [reflexivity |].
      intros c' t H. injection H as <- _. intros Hc. apply same_zero in Hc. congruence.
Qed.

Lemma all_digits_rev (s : string) :
  Strconv.all_digits (Strings.rev s) = Strconv.all_digits s.
Proof.
  induction s as [| c s IH]; [reflexivity |].
  rewrite rev_cons, all_digits_app, IH. cbn [Strconv.all_digits].
  rewrite andb_true_r. apply andb_comm.
Qed.

Lemma strip_trailing (ds : string) :
  leading ds ->
  exists z d',
    ds = d' ++ Ftoa.zeros z /\
    Strings.rev (Ftoa.strip_zeros_rev (Strings.rev ds)) = d' /\
    leading d'.
Proof.
  intros [h [t [E [Hd Hh]]]].
  destruct (strip_zeros_rev_spec (Strings.rev ds)) as [z [Hz Hnz]].
  exists z, (Strings.rev (Ftoa.strip_zeros_rev (Strings.rev ds))).
  assert (Hds : ds = Strings.rev (Ftoa.strip_zeros_rev (Strings.rev ds)) ++ Ftoa.zeros z).
  { rewrite <- (rev_involutive ds) at 1. rewrite Hz at 1.
    rewrite rev_append, rev_zeros. reflexivity. }
  split; [exact Hds |]. split; [reflexivity |].
  set (d' := Strings.rev (Ftoa.strip_zeros_rev (Strings.rev ds))) in *.
  assert (Hd' : Strconv.all_digits d' = true).
  { rewrite Hds, all_digits_app in Hd. apply andb_true_iff in Hd. tauto. }
  destruct d' as [| h' t'] eqn:Ed'.
  - (* all of [ds] is zeros: its head is a zero *)
    exfalso. simpl in Hds. rewrite E in Hds.
    destruct z as [| z]; [discriminate |].
    cbn [Ftoa.zeros] in Hds. injection Hds as Hh' _. subst h. apply Hh. reflexivity.
  - exists h', t'. split; [reflexivity |]. split; [exact Hd' |].
    rewrite E in Hds. simpl in Hds. injection Hds as Hh' _. subst h'. exact Hh.
Qed.

(** Bounds on the value of a digit string. *)
Lemma digits_value_bounds (s : string) (n : Z) :
  Strconv.all_digits s = true -> 0 <= n ->
  n * 10 ^ Z.of_nat (String.length s) <= Strconv.digits_value s n
  < (n + 1) * 10 ^ Z.of_nat (String.length s).
Proof.
  revert n. induction s as [| c s IH]; intros n Hs Hn.
  - simpl. lia.
  - cbn [Strconv.all_digits] in Hs. apply andb_true_iff in Hs. destruct Hs as [Hc Hs].
    apply is_digit_code in Hc.
    cbn [Strconv.digits_value String.length]. change (Bytes.code "0") with 48.
    specialize (IH (n * 10 + (Bytes.code c - 48)) Hs ltac:(lia)).
    rewrite Nat2Z.inj_succ, Z.pow_succ_r by lia.
    assert (0 < 10 ^ Z.of_nat (String.length s)) by (apply Z.pow_pos_nonneg; lia).
    nia.
Qed.

Lemma leading_bounds (s : string) :
  leading s ->
  10 ^ (Z.of_nat (String.length s) - 1) <= Strconv.digits_value s 0
  < 10 ^ Z.of_nat (String.length s).
Proof.
  intros [h [t [-> [Hd Hh]]]].
  cbn [Strconv.all_digits] in Hd. apply andb_true_iff in Hd. destruct Hd as [Hc Hd].
  apply is_digit_code in Hc.
  cbn [Strconv.digits_value String.length]. change (Bytes.code "0") with 48.
  pose proof (digits_value_bounds t (0 * 10 + (Bytes.code h - 48)) Hd ltac:(lia)) as Hb.
  rewrite Nat2Z.inj_succ. replace (Z.succ (Z.of_nat (String.length t)) - 1)
    with (Z.of_nat (String.length t)) by lia.
  rewrite Z.pow_succ_r by lia.
  assert (0 < 10 ^ Z.of_nat (String.length t)) by (apply Z.pow_pos_nonneg; lia).
  nia.
Qed.

(** [FormatUint] of a positive number starts with a digit other than 0. *)
Lemma digits_of_leading (fuel : nat) (u : Z) :
  0 < u < 10 ^ Z.of_nat fuel -> leading (Strconv.digits_of fuel u "").
Proof.
  revert u. induction fuel as [| fuel IH]; intros u Hu.
  - simpl in Hu. lia.
  - pose proof (digits_of_all_digits (S fuel) u ltac:(lia)) as Hall.
    rewrite digits_of_S in *.
    assert (Hm : 0 <= u mod 10 < 10) by (apply Z.mod_pos_bound; lia).
    destruct (Z.ltb_spec u 10) as [Hlt | Hge].
    + exists (digit_char (u mod 10)), "". split; [reflexivity |]. split; [exact Hall |].
      rewrite digit_char_code by exact Hm. rewrite Z.mod_small by lia. lia.
    + rewrite digits_of_acc in *.
      assert (Hq : 0 < u / 10 < 10 ^ Z.of_nat fuel).
      { split; [apply Z.div_str_pos; lia |].
        apply Z.div_lt_upper_bound; [lia |].
        rewrite Nat2Z.inj_succ, Z.pow_succ_r in Hu by lia. lia. }
      destruct (IH (u / 10) Hq) as [h [t [E [_ Hh]]]].
      rewrite E in *. exists h, (t ++ String (digit_char (u mod 10)) "").
      split; [reflexivity |]. split; [exact Hall | exact Hh].
Qed.

Lemma FormatUint_leading (u : Z) : 0 < u -> leading (Strconv.FormatUint u).
Proof.
  intros Hu. apply digits_of_leading. split; [exact Hu | apply FormatUint_fuel; lia].
Qed.

(* ===================================================================== *)
(** ** The decimal of a value reads back as the value *)
(* ===================================================================== *)

Lemma decimal_of_spec (c j : Z) :
  0 < c ->
  leading (Ftoa.d (Ftoa.decimal_of c j)) /\
  exists z : nat,
    c = Strconv.digits_value (Ftoa.d (Ftoa.decimal_of c j)) 0 * 10 ^ Z.of_nat z /\
    Ftoa.dp (Ftoa.decimal_of c j) =
    j + Z.of_nat (String.length (Ftoa.d (Ftoa.decimal_of c j))) + Z.of_nat z.
Proof.
  intros Hc. unfold Ftoa.decimal_of. cbn [Ftoa.d Ftoa.dp].
  destruct (strip_trailing _ (FormatUint_leading c Hc)) as [z [d' [Hds [Hd' Hl]]]].
  rewrite Hd'. split; [exact Hl |]. exists z. split.
  - rewrite <- (FormatUint_value c) at 1 by lia.
    rewrite Hds, digits_value_app, zeros_value. reflexivity.
  - rewrite Hds at 1. rewrite length_append, zeros_length. lia.
Qed.

Section ReadBack.

Variable m : positive.
Variable e : Z.
Hypothesis Hbounded : bounded Float64.prec Float64.emax m e = true.

Lemma bounded_range : - 1074 <= e <= 971 /\ Zpos m < 2 ^ 53.
Proof.
  pose proof (bounded_canonical m e Hbounded) as Hc.
  pose proof (bounded_emax m e Hbounded) as He.
  unfold fexp, emin, Float64.prec, Float64.emax in *.
  pose proof (Zdigits2_bounds m) as [_ Hm].
  split; [lia |].
  eapply Z.lt_le_trans; [exact Hm |].
  apply Z.pow_le_mono_r; lia.
Qed.

Lemma decimal_value_shift (v t : Z) (z : nat) :
  decimal_value m e (v * 10 ^ Z.of_nat z) t -> decimal_value m e v (t + Z.of_nat z).
Proof.
  unfold decimal_value. intros H.
  set (A := 2 ^ Z.max 0 (- e)) in *. set (B := Zpos m * 2 ^ Z.max 0 e) in *.
  set (zz := Z.of_nat z) in *. assert (Hz : 0 <= zz) by (unfold zz; lia).
  assert (Hpz : 0 < 10 ^ zz) by (apply Z.pow_pos_nonneg; lia).
  destruct (Z.le_gt_cases 0 t) as [Ht | Ht].
  - rewrite (Z.max_r 0 t), (Z.max_l 0 (- t)) in H by lia.
    rewrite (Z.max_r 0 (t + zz)), (Z.max_l 0 (- (t + zz))) by lia.
    rewrite Z.pow_add_r by lia. rewrite <- H. ring.
  - rewrite (Z.max_l 0 t), (Z.max_r 0 (- t)) in H by lia.
    rewrite Z.pow_0_r, Z.mul_1_r in H.
    destruct (Z.le_gt_cases 0 (t + zz)) as [Hs | Hs].
    + rewrite (Z.max_r 0 (t + zz)), (Z.max_l 0 (- (t + zz))) by lia.
      rewrite Z.pow_0_r, Z.mul_1_r.
      assert (Hp : 0 < 10 ^ (- t)) by (apply Z.pow_pos_nonneg; lia).
      apply (Z.mul_cancel_r _ _ (10 ^ (- t))); [lia |].
      rewrite <- H.
      replace zz with (t + zz + - t) at 2 by lia.
      rewrite (Z.pow_add_r 10 (t + zz) (- t)) by lia. ring.
    + rewrite (Z.max_l 0 (t + zz)), (Z.max_r 0 (- (t + zz))) by lia.
      rewrite Z.pow_0_r, Z.mul_1_r.
      apply (Z.mul_cancel_r _ _ (10 ^ zz)); [lia |].
      replace (B * 10 ^ (- (t + zz)) * 10 ^ zz) with (B * (10 ^ (- (t + zz)) * 10 ^ zz)) by ring.
      rewrite <- Z.pow_add_r by lia.
      replace (- (t + zz) + zz) with (- t) by lia.
      rewrite <- H. ring.
Qed.

Lemma pow10_310 : 2 ^ 1024 < 10 ^ 310.
Proof. apply Z.ltb_lt. vm_compute. reflexivity. Qed.

Lemma pow10_331 : 2 ^ 1074 < 10 ^ 331.
Proof. apply Z.ltb_lt. vm_compute. reflexivity. Qed.

(** The decimal point of a decimal that is the value lies where
    [ParseFloat] takes no shortcut. *)
Lemma point_bounds (v t L : Z) :
  1 <= L -> 10 ^ (L - 1) <= v < 10 ^ L -> decimal_value m e v t ->
  - 330 <= t + L <= 310.
Proof.
  intros HL [Hlo Hhi] H. unfold decimal_value in H.
  destruct bounded_range as [He Hm].
  assert (HA1 : 1 <= 2 ^ Z.max 0 (- e)).
  { change 1 with (2 ^ 0) at 1. apply Z.pow_le_mono_r; lia. }
  assert (HA2 : 2 ^ Z.max 0 (- e) <= 2 ^ 1074) by (apply Z.pow_le_mono_r; lia).
  assert (HB1 : 1 <= Zpos m * 2 ^ Z.max 0 e).
  { assert (1 <= 2 ^ Z.max 0 e) by (change 1 with (2 ^ 0) at 1; apply Z.pow_le_mono_r; lia).
    nia. }
  assert (HB2 : Zpos m * 2 ^ Z.max 0 e < 2 ^ 1024).
  { assert (0 < 2 ^ Z.max 0 e) by (apply Z.pow_pos_nonneg; lia).
    assert (2 ^ Z.max 0 e <= 2 ^ 971) by (apply Z.pow_le_mono_r; lia).
    change (2 ^ 1024) with (2 ^ 53 * 2 ^ 971). nia. }
  set (A := 2 ^ Z.max 0 (- e)) in *. set (B := Zpos m * 2 ^ Z.max 0 e) in *.
  assert (Hv : 0 < v).
  { eapply Z.lt_le_trans; [| exact Hlo]. apply Z.pow_pos_nonneg; lia. }
  pose proof pow10_310 as P1. pose proof pow10_331 as P2.
  split.
  - destruct (Z.le_gt_cases (- 330) (t + L)) as [Hok | Hbad]; [exact Hok | exfalso].
    assert (Ht : t < 0) by lia.
    rewrite (Z.max_l 0 t), (Z.max_r 0 (- t)) in H by lia.
    rewrite Z.pow_0_r, Z.mul_1_r in H.
    assert (H1 : 10 ^ (L + 331) <= 10 ^ (- t)) by (apply Z.pow_le_mono_r; lia).
    rewrite Z.pow_add_r in H1 by lia.
    assert (HpL : 0 < 10 ^ L) by (apply Z.pow_pos_nonneg; lia).
    assert (H2 : 10 ^ L * 10 ^ 331 <= B * 10 ^ (- t)) by nia.
    assert (H3 : v * A < 10 ^ L * 2 ^ 1074) by nia.
    nia.
  - destruct (Z.le_gt_cases (t + L) 310) as [Hok | Hbad]; [exact Hok | exfalso].
    destruct (Z.le_gt_cases 0 t) as [Ht | Ht].
    + rewrite (Z.max_r 0 t), (Z.max_l 0 (- t)) in H by lia.
      rewrite Z.pow_0_r, Z.mul_1_r in H.
      assert (H1 : 10 ^ 310 <= 10 ^ (L - 1 + t)) by (apply Z.pow_le_mono_r; lia).
      rewrite Z.pow_add_r in H1 by lia.
      assert (Hpt : 0 < 10 ^ t) by (apply Z.pow_pos_nonneg; lia).
      assert (H2 : 10 ^ (L - 1) * 10 ^ t <= v * 10 ^ t) by nia.
      assert (H3 : v * 10 ^ t <= v * 10 ^ t * A) by nia.
      lia.
    + rewrite (Z.max_l 0 t), (Z.max_r 0 (- t)) in H by lia.
      rewrite Z.pow_0_r, Z.mul_1_r in H.
      assert (H1 : 10 ^ (310 + - t) <= 10 ^ (L - 1)) by (apply Z.pow_le_mono_r; lia).
      rewrite Z.pow_add_r in H1 by lia.
      assert (Hpt : 0 < 10 ^ (- t)) by (apply Z.pow_pos_nonneg; lia).
      assert (H2 : 10 ^ 310 * 10 ^ (- t) <= v * A) by nia.
      assert (H3 : B * 10 ^ (- t) < 2 ^ 1024 * 10 ^ (- t)) by nia.
      nia.
Qed.

Lemma same_bits_refl (f : float64) : Ftoa.same_bits f f = true.
Proof.
  destruct f as [s | s | | s p x]; simpl; rewrite ?eqb_reflx, ?Pos.eqb_refl, ?Z.eqb_refl; reflexivity.
Qed.

(** The decimal of [c * 10 ^ j], when that is the value, reads back as
    the value. *)
Lemma read_back_exact (neg : bool) (c j : Z) :
  0 < c -> decimal_value m e c j ->
  Ftoa.read_back neg (Ftoa.decimal_of c j) = (S754_finite neg m e, false).
Proof.
  intros Hc Hv.
  destruct (decimal_of_spec c j Hc) as [Hl [z [Hcz Hdp]]].
  set (x := Ftoa.decimal_of c j) in *.
  pose proof (leading_bounds _ Hl) as Hb.
  set (v := Strconv.digits_value (Ftoa.d x) 0) in *.
  set (L := Z.of_nat (String.length (Ftoa.d x))) in *.
  assert (HL : 1 <= L).
  { destruct Hl as [h [t [E _]]]. unfold L. rewrite E. cbn [String.length]. lia. }
  assert (Hv' : decimal_value m e v (j + Z.of_nat z)).
  { apply decimal_value_shift. rewrite <- Hcz. exact Hv. }
  pose proof (point_bounds v (j + Z.of_nat z) L HL Hb Hv') as Hp.
  assert (Hvpos : 0 < v).
  { eapply Z.lt_le_trans; [| apply Hb]. apply Z.pow_pos_nonneg; lia. }
  unfold Ftoa.read_back, Atof.value.
  cbn [Atof.digits Atof.hex Atof.point Atof.neg Atof.ndigits].
  fold v. fold L.
  destruct (Z.eqb_spec v 0) as [E0 | _]; [lia |].
  rewrite Hdp. fold L.
  destruct (Z.ltb_spec 310 (j + L + Z.of_nat z)) as [Hbad | _]; [lia |].
  destruct (Z.ltb_spec (j + L + Z.of_nat z) (- 330)) as [Hbad | _]; [lia |].
  replace (j + L + Z.of_nat z - L) with (j + Z.of_nat z) by lia.
  rewrite (round_scaled_exact m e Hbounded neg v 10 (j + Z.of_nat z)); try lia.
  - reflexivity.
  - exact Hv'.
Qed.

Lemma reads_back_as_exact (neg : bool) (c j : Z) :
  0 < c -> decimal_value m e c j ->
  Ftoa.reads_back_as neg m e (Ftoa.decimal_of c j) = true.
Proof.
  intros Hc Hv. unfold Ftoa.reads_back_as.
  rewrite (read_back_exact neg c j Hc Hv). cbn [negb andb]. apply same_bits_refl.
Qed.

End ReadBack.

(* ===================================================================== *)
(** ** The search for the shortest decimal succeeds *)
(* ===================================================================== *)

Section Search.

Variable neg : bool.
Variable m : positive.
Variable e : Z.
Hypothesis Hbounded : bounded Float64.prec Float64.emax m e = true.

Lemma reads_back_positive (c j : Z) :
  0 <= c -> Ftoa.reads_back_as neg m e (Ftoa.decimal_of c j) = true -> 0 < c.
Proof.
  intros Hc H. destruct (Z.eq_dec c 0) as [-> | Hne]; [| lia].
  exfalso. unfold Ftoa.reads_back_as, Ftoa.read_back, Atof.value in H.
  cbn in H. discriminate H.
Qed.

Lemma good_decimal_of (c j : Z) :
  0 <= c -> Ftoa.reads_back_as neg m e (Ftoa.decimal_of c j) = true ->
  good neg m e (Ftoa.decimal_of c j).
Proof.
  intros Hc H. split; [exact H |].
  apply decimal_of_spec. apply (reads_back_positive c j Hc H).
Qed.

Lemma ratio_pos : 0 < fst (Ftoa.ratio m e) /\ 0 < snd (Ftoa.ratio m e).
Proof.
  unfold Ftoa.ratio. destruct (Z.leb_spec 0 e); cbn [fst snd].
  - split; [| lia]. apply Z.mul_pos_pos; [lia | apply Z.pow_pos_nonneg; lia].
  - split; [lia |]. apply Z.pow_pos_nonneg; lia.
Qed.

Lemma scaled_floor_nonneg (num den j : Z) :
  0 < num -> 0 < den -> 0 <= Ftoa.scaled_floor num den j.
Proof.
  intros Hn Hd. unfold Ftoa.scaled_floor.
  destruct (Z.leb_spec 0 j).
  - apply Z.div_pos; [| lia]. apply Z.mul_nonneg_nonneg; [lia | apply Z.pow_nonneg; lia].
  - apply Z.div_pos; [lia |]. apply Z.mul_pos_pos; [lia | apply Z.pow_pos_nonneg; lia].
Qed.

Lemma candidate_sound (k n : Z) (x : Ftoa.decimal) :
  Ftoa.candidate neg m e k n = Some x -> good neg m e x.
Proof.
  unfold Ftoa.candidate.
  pose proof ratio_pos as [Hn Hd].
  destruct (Ftoa.ratio m e) as [num den]. cbn [fst snd] in Hn, Hd.
  pose proof (scaled_floor_nonneg num den (n - k) Hn Hd) as Hlo.
  set (lo := Ftoa.scaled_floor num den (n - k)) in *.
  destruct (Ftoa.reads_back_as neg m e (Ftoa.decimal_of lo (k - n))) eqn:E1;
  destruct (Ftoa.reads_back_as neg m e (Ftoa.decimal_of (lo + 1) (k - n))) eqn:E2;
    intros H; try discriminate.
  - destruct (Ftoa.above_half num den (n - k) lo); [destruct (Z.even lo) | |];
      injection H as <-; apply good_decimal_of; (assumption || lia).
  - injection H as <-. apply good_decimal_of; assumption.
  - injection H as <-. apply good_decimal_of; (assumption || lia).
Qed.

(** With enough digits the floor is the value itself. *)
Lemma scaled_floor_exact (k n : Z) :
  k + Z.max 0 (- e) <= n ->
  let lo := Ftoa.scaled_floor (fst (Ftoa.ratio m e)) (snd (Ftoa.ratio m e)) (n - k) in
  0 < lo /\ decimal_value m e lo (k - n).
Proof.
  intros Hn. cbv zeta. unfold Ftoa.ratio, Ftoa.scaled_floor, decimal_value.
  assert (H0 : 0 <= n - k) by lia.
  destruct (Z.leb_spec 0 (n - k)) as [_ | Hbad]; [| lia].
  rewrite (Z.max_l 0 (k - n)), Z.pow_0_r, Z.mul_1_r by lia.
  replace (Z.max 0 (- (k - n))) with (n - k) by lia.
  assert (Hp10 : 0 < 10 ^ (n - k)) by (apply Z.pow_pos_nonneg; lia).
  destruct (Z.leb_spec 0 e) as [He | He]; cbn [fst snd].
  - rewrite Z.div_1_r. rewrite (Z.max_l 0 (- e)), (Z.max_r 0 e) by lia.
    rewrite Z.pow_0_r, Z.mul_1_r.
    assert (0 < 2 ^ e) by (apply Z.pow_pos_nonneg; lia).
    split; [| reflexivity]. apply Z.mul_pos_pos; [| lia]. apply Z.mul_pos_pos; lia.
  - rewrite (Z.max_r 0 (- e)), (Z.max_l 0 e) by lia.
    rewrite Z.pow_0_r, Z.mul_1_r.
    assert (Hp2 : 0 < 2 ^ (- e)) by (apply Z.pow_pos_nonneg; lia).
    assert (E10 : 10 ^ (n - k) = 10 ^ (n - k + e) * 5 ^ (- e) * 2 ^ (- e)).
    { replace (n - k) with (n - k + e + - e) at 1 by lia.
      rewrite Z.pow_add_r by lia. change 10 with (5 * 2) at 2.
      rewrite Z.pow_mul_l. ring. }
    assert (Ediv : Zpos m * 10 ^ (n - k) / 2 ^ (- e)
                   = Zpos m * 10 ^ (n - k + e) * 5 ^ (- e)).
    { rewrite E10. rewrite !Z.mul_assoc. apply Z.div_mul. lia. }
    rewrite Ediv. split.
    + assert (0 < 10 ^ (n - k + e)) by (apply Z.pow_pos_nonneg; lia).
      assert (0 < 5 ^ (- e)) by (apply Z.pow_pos_nonneg; lia).
      apply Z.mul_pos_pos; [apply Z.mul_pos_pos |]; lia.
    + rewrite E10. ring.
Qed.

Lemma candidate_exact (k n : Z) :
  k + Z.max 0 (- e) <= n -> exists x, Ftoa.candidate neg m e k n = Some x.
Proof.
  intros Hn. pose proof (scaled_floor_exact k n Hn) as [Hpos Hval]. cbv zeta in *.
  unfold Ftoa.candidate. destruct (Ftoa.ratio m e) as [num den]. cbn [fst snd] in *.
  rewrite (reads_back_as_exact m e Hbounded neg _ _ Hpos Hval).
  destruct (Ftoa.reads_back_as neg m e _); [| eexists; reflexivity].
  destruct (Ftoa.above_half num den (n - k) _); [destruct (Z.even _) | |];
    eexists; reflexivity.
Qed.

Lemma shortest_from_finds (fuel : nat) (k n : Z) :
  k + Z.max 0 (- e) <= n + Z.of_nat fuel ->
  exists x, Ftoa.shortest_from (S fuel) neg m e k n = Some x /\ good neg m e x.
Proof.
  revert n. induction fuel as [| fuel IH]; intros n Hn.
  - destruct (candidate_exact k n ltac:(lia)) as [x Hx].
    exists x. cbn [Ftoa.shortest_from]. rewrite Hx. split; [reflexivity |].
    apply (candidate_sound k n x Hx).
  - change (Ftoa.shortest_from (S (S fuel)) neg m e k n)
      with (match Ftoa.candidate neg m e k n with
            | Some x => Some x
            | None => Ftoa.shortest_from (S fuel) neg m e k (n + 1)
            end).
    destruct (Ftoa.candidate neg m e k n) as [x |] eqn:Hx.
    + exists x. split; [reflexivity | apply (candidate_sound k n x Hx)].
    + apply IH. lia.
Qed.

Lemma shortest_good : good neg m e (Ftoa.shortest (S754_finite neg m e)).
Proof.
  unfold Ftoa.shortest. destruct (Ftoa.ratio m e) as [num den].
  set (k := Ftoa.decimal_exponent num den).
  destruct (shortest_from_finds (Z.to_nat (Z.max 0 k + Z.max 0 (- e))) k 1 ltac:(lia))
    as [x [Hx Hg]].
  rewrite Hx. exact Hg.
Qed.

End Search.

(* ===================================================================== *)
(** ** Reading the mantissa of a formatted number *)
(* ===================================================================== *)

Lemma same_eq (c d : ascii) : Bytes.same c d = true -> c = d.
Proof.
  unfold Bytes.same. intros H. apply Z.eqb_eq in H.
  rewrite <- (of_code_code c), <- (of_code_code d), H. reflexivity.
Qed.

Lemma digit_same_false (c x : ascii) :
  Bytes.is_digit c = true -> Bytes.code x < 48 \/ 57 < Bytes.code x ->
  Bytes.same c x = false.
Proof.
  intros Hc Hx. apply is_digit_code in Hc. unfold Bytes.same. apply Z.eqb_neq. lia.
Qed.

Lemma digit_in_range (c : ascii) :
  Bytes.is_digit c = true -> Bytes.in_range "0" "9" c = true.
Proof. intros H. exact H. Qed.

Lemma read_digits_digit (c : ascii) (r : string) (st : Atof.mantissa) :
  Bytes.is_digit c = true ->
  Atof.read_digits false (String c r) st =
  if Bytes.same c "0" && (Atof.nd st =? 0) then
    Atof.read_digits false r
      {| Atof.underscores := Atof.underscores st; Atof.sawdot := Atof.sawdot st;
         Atof.sawdigits := true; Atof.nd := Atof.nd st; Atof.dp := Atof.dp st - 1;
         Atof.mant := Atof.mant st |}
  else
    Atof.read_digits false r
      {| Atof.underscores := Atof.underscores st; Atof.sawdot := Atof.sawdot st;
         Atof.sawdigits := true; Atof.nd := Atof.nd st + 1; Atof.dp := Atof.dp st;
         Atof.mant := Atof.mant st * 10 + (Bytes.code c - Bytes.code "0") |}.
Proof.
  intros Hc. cbn [Atof.read_digits].
  rewrite (digit_same_false c "_" Hc) by (right; vm_compute; reflexivity).
  rewrite (digit_same_false c "." Hc) by (left; vm_compute; reflexivity).
  rewrite (digit_in_range c Hc). reflexivity.
Qed.

(** Digits read once a digit has been counted: each of them counts. *)
Lemma read_digits_counted (s tl : string) (st : Atof.mantissa) :
  Strconv.all_digits s = true -> 1 <= Atof.nd st -> Atof.sawdigits st = true ->
  Atof.read_digits false (s ++ tl) st =
  Atof.read_digits false tl
    {| Atof.underscores := Atof.underscores st; Atof.sawdot := Atof.sawdot st;
       Atof.sawdigits := true;
       Atof.nd := Atof.nd st + Z.of_nat (String.length s);
       Atof.dp := Atof.dp st;
       Atof.mant := Strconv.digits_value s (Atof.mant st) |}.
Proof.
  revert st. induction s as [| c s IH]; intros st Hs Hnd Hsd.
  - destruct st as [us sd sg nd dp mant]. cbn in *. subst sg.
    rewrite Z.add_0_r. reflexivity.
  - cbn [Strconv.all_digits] in Hs. apply andb_true_iff in Hs. destruct Hs as [Hc Hs].
    cbn [append]. rewrite read_digits_digit by exact Hc.
    destruct (Z.eqb_spec (Atof.nd st) 0) as [E | _]; [lia |].
    rewrite andb_false_r. rewrite IH; cbn [Atof.nd Atof.sawdigits]; try assumption; try lia.
    cbn [Atof.underscores Atof.sawdot Atof.dp Atof.mant String.length Strconv.digits_value].
    f_equal. f_equal. lia.
Qed.

(** Digits read first, the first of them not a zero. *)
Lemma read_digits_leading (s tl : string) (st : Atof.mantissa) :
  leading s -> Atof.nd st = 0 ->
  Atof.read_digits false (s ++ tl) st =
  Atof.read_digits false tl
    {| Atof.underscores := Atof.underscores st; Atof.sawdot := Atof.sawdot st;
       Atof.sawdigits := true;
       Atof.nd := Z.of_nat (String.length s);
       Atof.dp := Atof.dp st;
       Atof.mant := Strconv.digits_value s (Atof.mant st) |}.
Proof.
  intros [h [t [-> [Hd Hh]]]] Hnd.
  cbn [Strconv.all_digits] in Hd. apply andb_true_iff in Hd. destruct Hd as [Hc Hd].
  cbn [append]. rewrite read_digits_digit by exact Hc.
  assert (Hz : Bytes.same h "0" = false).
  { unfold Bytes.same. apply Z.eqb_neq. exact Hh. }
  rewrite Hz. cbn [andb].
  rewrite read_digits_counted; cbn [Atof.nd Atof.sawdigits]; try assumption; try lia.
  cbn [Atof.underscores Atof.sawdot Atof.dp Atof.mant String.length Strconv.digits_value].
  f_equal. f_equal. lia.
Qed.

(** Zeros read before any digit has been counted move the point. *)
Lemma read_digits_zeros (z : nat) (tl : string) (st : Atof.mantissa) :
  Atof.nd st = 0 -> Atof.sawdigits st = true ->
  Atof.read_digits false (Ftoa.zeros z ++ tl) st =
  Atof.read_digits false tl
    {| Atof.underscores := Atof.underscores st; Atof.sawdot := Atof.sawdot st;
       Atof.sawdigits := true;
       Atof.nd := 0;
       Atof.dp := Atof.dp st - Z.of_nat z;
       Atof.mant := Atof.mant st |}.
Proof.
  revert st. induction z as [| z IH]; intros st Hnd Hsd.
  - destruct st as [us sd sg nd dp mant]. cbn in *. subst sg nd.
    rewrite Z.sub_0_r. reflexivity.
  - cbn [Ftoa.zeros append]. rewrite read_digits_digit by reflexivity.
    rewrite Hnd. change (Bytes.same "0" "0" && (0 =? 0)) with true. cbv iota.
    rewrite IH by reflexivity.
    cbn [Atof.underscores Atof.sawdot Atof.dp Atof.mant].
    f_equal. f_equal. lia.
Qed.

Lemma read_digits_dot (tl : string) (st : Atof.mantissa) :
  Atof.sawdot st = false ->
  Atof.read_digits false (String "." tl) st =
  Atof.read_digits false tl
    {| Atof.underscores := Atof.underscores st; Atof.sawdot := true;
       Atof.sawdigits := Atof.sawdigits st;
       Atof.nd := Atof.nd st; Atof.dp := Atof.nd st; Atof.mant := Atof.mant st |}.
Proof.
  intros H. cbn [Atof.read_digits].
  change (Bytes.same "." "_") with false. change (Bytes.same "." ".") with true.
  cbv iota. rewrite H. reflexivity.
Qed.

Lemma read_digits_stop (tl : string) (st : Atof.mantissa) :
  Atof.read_digits false (String "e" tl) st = (st, String "e" tl).
Proof. reflexivity. Qed.

Lemma read_digits_end (st : Atof.mantissa) :
  Atof.read_digits false "" st = (st, "").
Proof. reflexivity. Qed.

(* ===================================================================== *)
(** ** Parsing a formatted number *)
(* ===================================================================== *)

Lemma take_drop (n : nat) (s : string) : Ftoa.take n s ++ Ftoa.drop n s = s.
Proof.
  revert s. induction n as [| n IH]; intros s; [reflexivity |].
  destruct s as [| c s]; [reflexivity |]. cbn [Ftoa.take Ftoa.drop append].
  rewrite IH. reflexivity.
Qed.

Lemma take_length (n : nat) (s : string) :
  (n <= String.length s)%nat -> String.length (Ftoa.take n s) = n.
Proof.
  revert s. induction n as [| n IH]; intros s H; [reflexivity |].
  destruct s as [| c s]; [simpl in H; lia |].
  cbn [Ftoa.take String.length] in *. rewrite IH by lia. reflexivity.
Qed.

Lemma all_digits_take_drop (n : nat) (s : string) :
  Strconv.all_digits s = true ->
  Strconv.all_digits (Ftoa.take n s) = true /\ Strconv.all_digits (Ftoa.drop n s) = true.
Proof.
  intros H. rewrite <- (take_drop n s), all_digits_app in H.
  apply andb_true_iff in H. exact H.
Qed.

Lemma leading_take (n : nat) (s : string) :
  leading s -> (1 <= n)%nat -> leading (Ftoa.take n s).
Proof.
  intros [h [t [-> [Hd Hh]]]] Hn. destruct n as [| n]; [lia |].
  exists h, (Ftoa.take n t). split; [reflexivity |]. split; [| exact Hh].
  apply (all_digits_take_drop (S n) (String h t) Hd).
Qed.

(** A text that starts with a digit, or with "-" and a digit, is none
    of the special values. *)
Lemma special_digit (c : ascii) (r : string) :
  Bytes.is_digit c = true -> Atof.special (String c r) = None.
Proof.
  intros Hc. unfold Atof.special.
  rewrite (digit_same_false c "+" Hc) by (left; vm_compute; reflexivity).
  rewrite (digit_same_false c "-" Hc) by (left; vm_compute; reflexivity).
  rewrite (digit_same_false c "i" Hc) by (right; vm_compute; reflexivity).
  rewrite (digit_same_false c "I" Hc) by (right; vm_compute; reflexivity).
  rewrite (digit_same_false c "n" Hc) by (right; vm_compute; reflexivity).
  rewrite (digit_same_false c "N" Hc) by (right; vm_compute; reflexivity).
  reflexivity.
Qed.

Lemma special_minus_digit (c : ascii) (r : string) :
  Bytes.is_digit c = true -> Atof.special (String "-" (String c r)) = None.
Proof.
  intros Hc. unfold Atof.special.
  change (Bytes.same "-" "+" || Bytes.same "-" "-") with true. cbv iota beta.
  cbn [Atof.commonPrefixLenIgnoreCase].
  assert (Hu : Bytes.in_range "A" "Z" c = false).
  { apply is_digit_code in Hc. unfold Bytes.in_range.
    change (Bytes.code "A") with 65. apply andb_false_iff. left. apply Z.leb_gt. lia. }
  rewrite Hu. rewrite (digit_same_false c "i" Hc) by (right; vm_compute; reflexivity).
  reflexivity.
Qed.

Lemma read_sign_digit (c : ascii) (r : string) :
  Bytes.is_digit c = true -> Atof.read_sign (String c r) = (false, String c r).
Proof.
  intros Hc. unfold Atof.read_sign.
  rewrite (digit_same_false c "+" Hc) by (left; vm_compute; reflexivity).
  rewrite (digit_same_false c "-" Hc) by (left; vm_compute; reflexivity).
  reflexivity.
Qed.

Lemma read_base_leading (h : ascii) (t : string) :
  Bytes.code h <> 48 -> Atof.read_base (String h t) = (false, String h t).
Proof.
  intros Hh. unfold Atof.read_base.
  destruct t as [| c1 [| c2 r2]]; try reflexivity.
  assert (Hz : Bytes.same h "0" = false) by (unfold Bytes.same; apply Z.eqb_neq; exact Hh).
  rewrite Hz. reflexivity.
Qed.

Lemma read_base_zero_dot (t : string) :
  Atof.read_base (String "0" (String "." t)) = (false, String "0" (String "." t)).
Proof. destruct t; reflexivity. Qed.

(** [ParseFloat] on a text made of an optional "-" and a body that
    starts with a digit, from what [readFloat] makes of the body. *)
Lemma ParseFloat_signed (neg : bool) (c : ascii) (r : string)
      (st : Atof.mantissa) (s3 : string) (pt : Z) (g : float64) :
  Bytes.is_digit c = true ->
  Atof.read_base (String c r) = (false, String c r) ->
  Atof.read_digits false (String c r) Atof.mantissa0 = (st, s3) ->
  Atof.sawdigits st = true ->
  Atof.underscores st = false ->
  Atof.read_exponent false s3 (if Atof.sawdot st then Atof.dp st else Atof.nd st) false
  = Some (pt, false, "") ->
  Atof.value {| Atof.neg := neg; Atof.hex := false; Atof.digits := Atof.mant st;
                Atof.ndigits := Atof.nd st; Atof.point := pt;
                Atof.used_underscores := false; Atof.rest := "" |} = (g, false) ->
  Atof.ParseFloat (if neg then String "-" (String c r) else String c r) = (g, None).
Proof.
  intros Hc Hbase Hdig Hsd Hus Hexp Hval.
  assert (Hread : Atof.readFloat (if neg then String "-" (String c r) else String c r)
                  = Some {| Atof.neg := neg; Atof.hex := false; Atof.digits := Atof.mant st;
                            Atof.ndigits := Atof.nd st; Atof.point := pt;
                            Atof.used_underscores := false; Atof.rest := "" |}).
  { unfold Atof.readFloat.
    assert (Hsign : Atof.read_sign (if neg then String "-" (String c r) else String c r)
                    = (neg, String c r)).
    { destruct neg; [reflexivity | apply read_sign_digit; exact Hc]. }
    destruct neg; rewrite Hsign, Hbase, Hdig, Hsd; cbn [negb];
      rewrite Hus, Hexp; reflexivity. }
  unfold Atof.ParseFloat.
  assert (Hsp : Atof.special (if neg then String "-" (String c r) else String c r) = None).
  { destruct neg; [apply special_minus_digit | apply special_digit]; exact Hc. }
  rewrite Hsp, Hread. cbn [Atof.rest Atof.used_underscores andb]. rewrite Hval. reflexivity.
Qed.

Lemma same_bits_eq (a b : float64) : Ftoa.same_bits a b = true -> a = b.
Proof.
  destruct a as [s | s | | s p x], b as [t | t | | t q y]; simpl; intros H; try discriminate.
  - apply eqb_prop in H. congruence.
  - apply eqb_prop in H. congruence.
  - reflexivity.
  - apply andb_true_iff in H. destruct H as [H Hx].
    apply andb_true_iff in H. destruct H as [Hs Hp].
    apply eqb_prop in Hs. apply Pos.eqb_eq in Hp. apply Z.eqb_eq in Hx. congruence.
Qed.

(** What [reads_back_as] says of a decimal. *)
Lemma reads_back_as_value (neg : bool) (m : positive) (e : Z) (x : Ftoa.decimal) :
  Ftoa.reads_back_as neg m e x = true ->
  Ftoa.read_back neg x = (S754_finite neg m e, false) /\ - 330 <= Ftoa.dp x <= 310.
Proof.
  unfold Ftoa.reads_back_as. intros H.
  destruct (Ftoa.read_back neg x) as [g ovf] eqn:E.
  apply andb_true_iff in H. destruct H as [Ho Hs].
  apply negb_true_iff in Ho. apply same_bits_eq in Hs. subst g ovf.
  split; [reflexivity |].
  unfold Ftoa.read_back, Atof.value in E.
  cbn [Atof.digits Atof.hex Atof.point Atof.neg Atof.ndigits] in E.
  destruct (Strconv.digits_value (Ftoa.d x) 0 =? 0); [discriminate |].
  destruct (Z.ltb_spec 310 (Ftoa.dp x)); [discriminate |].
  destruct (Z.ltb_spec (Ftoa.dp x) (- 330)); [discriminate |]. lia.
Qed.

(** Zeros written after the digits of an integer do not change what is
    read. *)
Lemma value_padded (neg : bool) (v L k : Z) :
  0 < v -> 0 <= k ->
  Atof.value {| Atof.neg := neg; Atof.hex := false; Atof.digits := v * 10 ^ k;
                Atof.ndigits := L + k; Atof.point := L + k;
                Atof.used_underscores := false; Atof.rest := "" |} =
  Atof.value {| Atof.neg := neg; Atof.hex := false; Atof.digits := v;
                Atof.ndigits := L; Atof.point := L + k;
                Atof.used_underscores := false; Atof.rest := "" |}.
Proof.
  intros Hv Hk. unfold Atof.value.
  cbn [Atof.digits Atof.hex Atof.point Atof.neg Atof.ndigits].
  assert (Hp : 0 < 10 ^ k) by (apply Z.pow_pos_nonneg; lia).
  assert (Hvk : 0 < v * 10 ^ k) by (apply Z.mul_pos_pos; lia).
  destruct (Z.eqb_spec (v * 10 ^ k) 0) as [E | _]; [lia |].
  destruct (Z.eqb_spec v 0) as [E | _]; [lia |].
  destruct (310 <? L + k); [reflexivity |].
  destruct (L + k <? - 330); [reflexivity |].
  replace (L + k - (L + k)) with 0 by lia. replace (L + k - L) with k by lia.
  assert (E : Float64.round_scaled neg (v * 10 ^ k) 10 0 = Float64.round_scaled neg v 10 k).
  { unfold Float64.round_scaled.
    destruct v as [| pv | pv]; try lia.
    destruct (Z.pos pv * 10 ^ k) as [| pvk | pvk] eqn:Evk; try lia.
    change (0 <=? 0) with true. cbv iota.
    destruct (Z.leb_spec 0 k) as [_ | Hbad]; [| lia].
    f_equal. apply Pos2Z.inj. rewrite !Pos2Z.inj_mul.
    change (10 ^ 0) with 1. change (Z.pos (Z.to_pos 1)) with 1.
    rewrite Z2Pos.id by lia. lia. }
  rewrite E. reflexivity.
Qed.

(* ===================================================================== *)
(** ** The exponent of [%e] and its clean-up *)
(* ===================================================================== *)

Lemma zrange_In (lo : Z) (n : nat) (x : Z) :
  lo <= x < lo + Z.of_nat n -> In x (zrange lo n).
Proof.
  revert lo. induction n as [| n IH]; intros lo H; [simpl in H; lia |].
  cbn [zrange]. destruct (Z.eq_dec lo x) as [-> | Hne]; [left; reflexivity |].
  right. apply IH. lia.
Qed.

Lemma exponent_checks_all : forallb exponent_checks (zrange (- 400) 801) = true.
Proof. vm_compute. reflexivity. Qed.

Lemma exponent_checks_range (exp : Z) :
  - 400 <= exp <= 400 -> exponent_checks exp = true.
Proof.
  intros H. pose proof exponent_checks_all as Hall.
  rewrite forallb_forall in Hall. apply Hall. apply zrange_In. lia.
Qed.

Lemma read_exponent_shift (t : string) (dp0 : Z) (us : bool) :
  Atof.read_exponent false t dp0 us =
  match Atof.read_exponent false t 0 us with
  | Some (e', us', r) => Some (dp0 + e', us', r)
  | None => None
  end.
Proof.
  unfold Atof.read_exponent. destruct t as [| ce r3].
  - cbv iota. rewrite Z.add_0_r. reflexivity.
  - destruct (Bytes.same (Bytes.lower ce) "e").
    + destruct r3 as [| cs r4]; [reflexivity |].
      destruct (if Bytes.same cs "+" || Bytes.same cs "-" then r4 else String cs r4)
        as [| cd r5]; [reflexivity |].
      destruct (Bytes.in_range "0" "9" cd); [| reflexivity].
      destruct (Atof.read_exp_digits (String cd r5) 0 us) as [[e' us'] s5].
      reflexivity.
    + cbv iota. rewrite Z.add_0_r. reflexivity.
Qed.

Lemma exponent_check_spec (t : string) (exp dp0 : Z) :
  exponent_check t exp = true ->
  (exists r, t = String "e" r) /\
  Atof.read_exponent false t dp0 false = Some (dp0 + exp, false, "").
Proof.
  unfold exponent_check. intros H. apply andb_true_iff in H. destruct H as [H1 H2].
  split.
  - destruct t as [| c r]; [discriminate |]. apply same_eq in H1. subst c. eexists; reflexivity.
  - rewrite read_exponent_shift.
    destruct (Atof.read_exponent false t 0 false) as [[[e' us'] r] |]; [| discriminate].
    destruct us'; [discriminate |]. destruct r; [| discriminate].
    apply Z.eqb_eq in H2. subst e'. reflexivity.
Qed.

Lemma rev_length (s : string) : String.length (Strings.rev s) = String.length s.
Proof.
  induction s as [| c s IH]; [reflexivity |].
  rewrite rev_cons, length_append, IH. simpl. lia.
Qed.

(** The clean-up looks at the last four bytes only. *)
Lemma clean_exponent_app (a t : string) :
  4 <= Z.of_nat (String.length t) ->
  Json.clean_exponent (a ++ t) = a ++ Json.clean_exponent t.
Proof.
  intros Hlen. unfold Json.clean_exponent. rewrite rev_append.
  pose proof (rev_length t) as Hr.
  destruct (Strings.rev t) as [| d1 [| d0 [| sg [| ee r']]]] eqn:E;
    cbn [String.length] in Hr; try lia.
  cbn [append].
  destruct (Bytes.same ee "e" && (Bytes.same sg "-" || Bytes.same sg "+") && Bytes.same d0 "0");
    [| reflexivity].
  rewrite !rev_cons, rev_append, rev_involutive, !append_assoc. reflexivity.
Qed.

(* ===================================================================== *)
(** ** [ParseFloat] reads back what [FormatFloat] writes *)
(* ===================================================================== *)

Section Layout.

Variable neg : bool.
Variable m : positive.
Variable e : Z.
Variable x : Ftoa.decimal.
Hypothesis Hgood : good neg m e x.

Local Abbreviation f := (S754_finite neg m e).

Lemma good_value :
  Atof.value {| Atof.neg := neg; Atof.hex := false;
                Atof.digits := Strconv.digits_value (Ftoa.d x) 0;
                Atof.ndigits := Z.of_nat (String.length (Ftoa.d x));
                Atof.point := Ftoa.dp x;
                Atof.used_underscores := false; Atof.rest := "" |} = (f, false).
Proof. destruct Hgood as [Hr _]. apply (reads_back_as_value neg m e x Hr). Qed.

Lemma good_point : - 330 <= Ftoa.dp x <= 310.
Proof. destruct Hgood as [Hr _]. apply (reads_back_as_value neg m e x Hr). Qed.

Lemma ParseFloat_fmtF :
  Atof.ParseFloat (Ftoa.fmtF neg (Ftoa.d x) (Ftoa.dp x)) = (f, None).
Proof.
  pose proof good_value as Hval.
  destruct Hgood as [_ Hl]. pose proof Hl as [h [t [Eds [Hd Hh]]]].
  pose proof (leading_bounds _ Hl) as Hb.
  set (ds := Ftoa.d x) in *. set (dp := Ftoa.dp x) in *.
  set (L := Z.of_nat (String.length ds)) in *.
  set (v := Strconv.digits_value ds 0) in *.
  assert (HL : 1 <= L) by (unfold L; rewrite Eds; cbn [String.length]; lia).
  assert (Hhd : Bytes.is_digit h = true).
  { rewrite Eds in Hd. cbn [Strconv.all_digits] in Hd. apply andb_true_iff in Hd. tauto. }
  unfold Ftoa.fmtF. fold L.
  destruct (Z.leb_spec dp 0) as [Hdp | Hdp].
  - (* 0.000ddd *)
    destruct (Z.ltb_spec 0 (L - dp)) as [_ | Hbad]; [| lia].
    change ("0." ++ Ftoa.zeros (Z.to_nat (- dp)) ++ ds)
      with (String "0" (String "." (Ftoa.zeros (Z.to_nat (- dp)) ++ ds))).
    eapply (ParseFloat_signed neg "0" _ _ "" dp f).
    + reflexivity.
    + apply read_base_zero_dot.
    + rewrite read_digits_digit by reflexivity.
      change (Bytes.same "0" "0" && (Atof.nd Atof.mantissa0 =? 0)) with true. cbv iota.
      rewrite read_digits_dot by reflexivity.
      rewrite read_digits_zeros by reflexivity.
      rewrite <- (append_nil_r ds) at 1.
      rewrite read_digits_leading by (exact Hl || reflexivity).
      rewrite read_digits_end. reflexivity.
    + reflexivity.
    + reflexivity.
    + cbn [Atof.sawdot Atof.dp Atof.nd Atof.read_exponent].
      cbn. f_equal. f_equal. f_equal. rewrite Z2Nat.id by lia. lia.
    + cbn [Atof.mant Atof.nd]. exact Hval.
  - destruct (Z.ltb_spec dp L) as [Hin | Hout].
    + (* ddd.ddd *)
      assert (Hn : (1 <= Z.to_nat dp <= String.length ds)%nat) by (unfold L in Hin; lia).
      pose proof (leading_take (Z.to_nat dp) ds Hl ltac:(lia)) as Hlt.
      pose proof (all_digits_take_drop (Z.to_nat dp) ds Hd) as [_ Hdd].
      pose proof (take_length (Z.to_nat dp) ds ltac:(lia)) as Htl.
      pose proof (take_drop (Z.to_nat dp) ds) as Htd.
      set (a := Ftoa.take (Z.to_nat dp) ds) in *.
      set (b := Ftoa.drop (Z.to_nat dp) ds) in *.
      destruct Hlt as [h' [t' [Ea [Hda Hh']]]].
      assert (Hhd' : Bytes.is_digit h' = true).
      { rewrite Ea in Hda. cbn [Strconv.all_digits] in Hda. apply andb_true_iff in Hda. tauto. }
      assert (Hla : leading a) by (exists h', t'; auto).
      assert (Ebody : a ++ "." ++ b = String h' (t' ++ String "." b)).
      { rewrite Ea. reflexivity. }
      rewrite Ebody.
      eapply (ParseFloat_signed neg h' _ _ "" dp f).
      * exact Hhd'.
      * apply read_base_leading. exact Hh'.
      * rewrite <- Ebody. change (a ++ "." ++ b) with (a ++ String "." b).
        rewrite read_digits_leading by (exact Hla || reflexivity).
        rewrite read_digits_dot by reflexivity.
        rewrite <- (append_nil_r b) at 1.
        rewrite read_digits_counted
          by first [exact Hdd | reflexivity | cbn [Atof.nd]; lia].
        rewrite read_digits_end. reflexivity.
      * reflexivity.
      * reflexivity.
      * cbn. f_equal. f_equal. f_equal. rewrite Htl. lia.
      * cbn [Atof.mant Atof.nd Atof.underscores Atof.sawdot Atof.dp].
        rewrite <- digits_value_app, Htd. fold v.
        replace (Z.of_nat (String.length a) + Z.of_nat (String.length b)) with L.
        { exact Hval. }
        unfold L. rewrite <- Htd at 1. rewrite length_append. lia.
    + (* ddd000 *)
      set (k := Z.to_nat (dp - L)).
      assert (Ebody : ds ++ Ftoa.zeros k = String h (t ++ Ftoa.zeros k)).
      { rewrite Eds. reflexivity. }
      rewrite Ebody.
      eapply (ParseFloat_signed neg h _ _ "" dp f).
      * exact Hhd.
      * apply read_base_leading. exact Hh.
      * rewrite <- Ebody.
        rewrite read_digits_leading by (exact Hl || reflexivity).
        rewrite <- (append_nil_r (Ftoa.zeros k)) at 1.
        rewrite read_digits_counted
          by first [apply zeros_all_digits | reflexivity | cbn [Atof.nd]; fold L; lia].
        rewrite read_digits_end. reflexivity.
      * reflexivity.
      * reflexivity.
      * cbn. f_equal. f_equal. f_equal. rewrite zeros_length. fold L. unfold k. lia.
      * cbn [Atof.mant Atof.nd Atof.underscores Atof.sawdot Atof.dp].
        rewrite zeros_value, zeros_length. fold v. fold L.
        replace dp with (L + Z.of_nat k) by (unfold k; lia).
        rewrite value_padded; try lia.
        -- replace (L + Z.of_nat k) with dp by (unfold k; lia). exact Hval.
        -- eapply Z.lt_le_trans; [| apply Hb]. apply Z.pow_pos_nonneg; lia.
Qed.

(** The mantissa of [%e] followed by any text that reads as the
    exponent. *)
Lemma ParseFloat_fmtE_with (h : ascii) (t : string) (et : string) :
  Ftoa.d x = String h t ->
  exponent_check et (Ftoa.dp x - 1) = true ->
  Atof.ParseFloat
    (if neg then String "-" ((match t with
                              | EmptyString => String h EmptyString
                              | _ => String h ("." ++ t)
                              end) ++ et)
     else (match t with
           | EmptyString => String h EmptyString
           | _ => String h ("." ++ t)
           end) ++ et) = (f, None).
Proof.
  intros Eds Hex.
  pose proof good_value as Hval.
  destruct Hgood as [_ Hl]. pose proof Hl as [h0 [t0 [Eds0 [Hd Hh]]]].
  rewrite Eds in Eds0. injection Eds0 as <- <-.
  rewrite Eds in Hd. cbn [Strconv.all_digits] in Hd. apply andb_true_iff in Hd.
  destruct Hd as [Hhd Hdt].
  destruct (exponent_check_spec et (Ftoa.dp x - 1) 1 Hex) as [[r Er] Hre].
  assert (Hl1 : leading (String h "")).
  { exists h, "". split; [reflexivity |]. split; [| exact Hh].
    cbn [Strconv.all_digits]. rewrite Hhd. reflexivity. }
  rewrite Eds in Hval. cbn [String.length Strconv.digits_value] in Hval.
  destruct t as [| c t'].
  - change (String h "" ++ et) with (String h et).
    eapply (ParseFloat_signed neg h et _ et (Ftoa.dp x) f).
    + exact Hhd.
    + apply read_base_leading. exact Hh.
    + change (String h et) with (String h "" ++ et).
      rewrite read_digits_leading by (exact Hl1 || reflexivity).
      rewrite Er. rewrite read_digits_stop. reflexivity.
    + reflexivity.
    + reflexivity.
    + unfold Atof.mantissa0. cbn [Atof.sawdot Atof.nd String.length].
      change (Z.of_nat 1) with 1. rewrite Hre. f_equal. f_equal. f_equal. lia.
    + unfold Atof.mantissa0.
      cbn [Atof.mant Atof.nd String.length Strconv.digits_value]. exact Hval.
  - change (String h ("." ++ String c t') ++ et)
      with (String h (String "." (String c t' ++ et))).
    eapply (ParseFloat_signed neg h _ _ et (Ftoa.dp x) f).
    + exact Hhd.
    + apply read_base_leading. exact Hh.
    + change (String h (String "." (String c t' ++ et)))
        with (String h "" ++ String "." (String c t' ++ et)).
      rewrite read_digits_leading by (exact Hl1 || reflexivity).
      rewrite read_digits_dot by reflexivity.
      rewrite read_digits_counted
        by first [exact Hdt | reflexivity | cbn [Atof.nd String.length]; lia].
      rewrite Er. rewrite read_digits_stop. reflexivity.
    + reflexivity.
    + reflexivity.
    + unfold Atof.mantissa0. cbn [Atof.sawdot Atof.dp Atof.nd String.length].
      change (Z.of_nat 1) with 1. rewrite Hre. f_equal. f_equal. f_equal. lia.
    + unfold Atof.mantissa0.
      cbn [Atof.mant Atof.nd Atof.underscores Atof.sawdot Atof.dp
           String.length Strconv.digits_value].
      cbn [Strconv.digits_value] in Hval.
      replace (Z.of_nat 1 + Z.of_nat (S (String.length t')))
        with (Z.of_nat (S (S (String.length t')))) by lia.
      exact Hval.
Qed.

End Layout.

Lemma valid_finite_bounded (s : bool) (m : positive) (e : Z) :
  Float64.valid (S754_finite s m e) = true -> bounded Float64.prec Float64.emax m e = true.
Proof. intros H. exact H. Qed.

Lemma fmtE_cons (neg : bool) (h : ascii) (t : string) (dp : Z) :
  Ftoa.fmtE neg (String h t) dp =
  if neg then String "-" ((match t with
                           | EmptyString => String h EmptyString
                           | _ => String h ("." ++ t)
                           end) ++ Ftoa.fmt_exponent (dp - 1))
  else (match t with
        | EmptyString => String h EmptyString
        | _ => String h ("." ++ t)
        end) ++ Ftoa.fmt_exponent (dp - 1).
Proof. reflexivity. Qed.

(** [ParseFloat] reads back every finite binary64 from the text
    [FormatFloat] gives it, whatever the verb. *)
Lemma ParseFloat_FormatFloat (f : float64) (fmt : Ftoa.verb) :
  Float64.valid f = true -> Float64.is_finite f = true ->
  Atof.ParseFloat (Ftoa.FormatFloat f fmt) = (f, None).
Proof.
  intros Hv Hf. destruct f as [s | s | | s m e]; try discriminate.
  - destruct s, fmt; vm_compute; reflexivity.
  - pose proof (shortest_good s m e (valid_finite_bounded s m e Hv)) as Hg.
    pose proof (good_point s m e _ Hg) as Hp.
    assert (HF : Atof.ParseFloat
                   (Ftoa.fmtF s (Ftoa.d (Ftoa.shortest (S754_finite s m e)))
                              (Ftoa.dp (Ftoa.shortest (S754_finite s m e))))
                 = (S754_finite s m e, None)) by (apply ParseFloat_fmtF; exact Hg).
    assert (HE : Atof.ParseFloat
                   (Ftoa.fmtE s (Ftoa.d (Ftoa.shortest (S754_finite s m e)))
                              (Ftoa.dp (Ftoa.shortest (S754_finite s m e))))
                 = (S754_finite s m e, None)).
    { destruct Hg as [Hr Hl]. pose proof Hl as [h [t [Eds _]]].
      rewrite Eds, fmtE_cons.
      apply (ParseFloat_fmtE_with s m e _ (conj Hr Hl) h t _ Eds).
      pose proof (exponent_checks_range
                    (Ftoa.dp (Ftoa.shortest (S754_finite s m e)) - 1) ltac:(lia)) as Hc.
      unfold exponent_checks in Hc. apply andb_true_iff in Hc. destruct Hc as [Hc _].
      apply andb_true_iff in Hc. tauto. }
    unfold Ftoa.FormatFloat. cbn [Ftoa.sign_of].
    destruct fmt; [exact HE | exact HF |].
    cbv zeta. destruct (_ || _); [exact HE | exact HF].
Qed.

(** [json.Marshal] writes every finite binary64 as a number that
    [ParseFloat] reads back. *)
Lemma Marshal_float64_reads_back (f : float64) :
  Float64.valid f = true -> Float64.is_finite f = true ->
  exists lit, Json.Marshal_float64 f = Ok (Json.JNumber lit) /\
              Atof.ParseFloat lit = (f, None).
Proof.
  intros Hv Hf. unfold Json.Marshal_float64.
  destruct f as [s | s | | s m e]; try discriminate Hf.
  { eexists. split; [reflexivity |]. apply ParseFloat_FormatFloat; assumption. }
  cbn [Float64.IsInf Float64.IsNaN orb negb andb].
  match goal with |- context [if ?c then _ else _] => destruct c end.
  - eexists. split; [reflexivity |].
    pose proof (shortest_good s m e (valid_finite_bounded s m e Hv)) as Hg.
    pose proof (good_point s m e _ Hg) as Hp.
    destruct Hg as [Hr Hl]. pose proof Hl as [h [t [Eds _]]].
    unfold Ftoa.FormatFloat. cbn [Ftoa.sign_of]. rewrite Eds, fmtE_cons.
    pose proof (exponent_checks_range
                  (Ftoa.dp (Ftoa.shortest (S754_finite s m e)) - 1) ltac:(lia)) as Hc.
    unfold exponent_checks in Hc. apply andb_true_iff in Hc. destruct Hc as [Hc Hlen].
    apply andb_true_iff in Hc. destruct Hc as [_ Hc]. apply Z.leb_le in Hlen.
    set (mt := match t with
               | EmptyString => String h EmptyString
               | _ => String h ("." ++ t)
               end).
    set (et := Ftoa.fmt_exponent (Ftoa.dp (Ftoa.shortest (S754_finite s m e)) - 1)) in *.
    assert (Hclean : Json.clean_exponent (if s then String "-" (mt ++ et) else mt ++ et)
                     = if s then String "-" (mt ++ Json.clean_exponent et)
                       else mt ++ Json.clean_exponent et).
    { destruct s.
      - change (String "-" (mt ++ et)) with (String "-" mt ++ et).
        rewrite clean_exponent_app by exact Hlen. reflexivity.
      - apply clean_exponent_app. exact Hlen. }
    rewrite Hclean.
    apply (ParseFloat_fmtE_with s m e _ (conj Hr Hl) h t _ Eds Hc).
  - eexists. split; [reflexivity |]. apply ParseFloat_FormatFloat; assumption.
Qed.

Lemma Float_roundtrip_finite (f : float64) (v0 : Float) :
  Float64.valid f = true -> Float64.is_finite f = true ->
  Float_roundtrip f v0 = Some (None, {| recv := f; logs := nil |}).
Proof.
  intros Hv Hf. destruct (Marshal_float64_reads_back f Hv Hf) as [lit [Hm Hp]].
  unfold Float_roundtrip, Float_MarshalJSON. rewrite Hm.
  unfold Float_UnmarshalJSON, Json.Unmarshal_float64. rewrite Hp. reflexivity.
Qed.

(* ===================================================================== *)
(** ** Conversions between integers and binary64 *)
(* ===================================================================== *)

Lemma iter_xO (p k : positive) : Zpos (Pos.iter xO p k) = Zpos p * 2 ^ Zpos k.
Proof.
  induction k as [| k IH] using Pos.peano_ind.
  - simpl. lia.
  - rewrite Pos.iter_succ. rewrite Pos2Z.inj_xO, IH.
    rewrite Pos2Z.inj_succ, Z.pow_succ_r by lia. ring.
Qed.

(** An integer below [2 ^ 53] in magnitude converts to a binary64
    without rounding. *)
Lemma of_int_exact (n : Z) :
  n <> 0 -> Z.abs n < 2 ^ 53 ->
  exists m e,
    Float64.of_int n = S754_finite (n <? 0) m e /\
    bounded Float64.prec Float64.emax m e = true /\
    e <= 0 /\ Zpos m = Z.abs n * 2 ^ (- e).
Proof.
  intros Hn Hlt.
  assert (H : forall (s : bool) (p : positive),
             Zpos p < 2 ^ 53 ->
             exists m e,
               binary_round Float64.prec Float64.emax s p 0 = S754_finite s m e /\
               bounded Float64.prec Float64.emax m e = true /\
               e <= 0 /\ Zpos m = Zpos p * 2 ^ (- e)).
  { intros s p Hp. unfold binary_round.
    pose proof (Zdigits2_bounds p) as [Hlo Hhi].
    pose proof (Zdigits2_pos_pos p) as Hd.
    assert (Hd53 : Zdigits2 (Zpos p) <= 53).
    { destruct (Z.le_gt_cases (Zdigits2 (Zpos p)) 53) as [Hle | Hgt]; [exact Hle | exfalso].
      assert (2 ^ 53 <= 2 ^ (Zdigits2 (Zpos p) - 1)) by (apply Z.pow_le_mono_r; lia). lia. }
    change (Zpos (digits2_pos p)) with (Zdigits2 (Zpos p)).
    set (d := Zdigits2 (Zpos p)) in *.
    assert (Hfexp : fexp Float64.prec Float64.emax (d + 0) = d - 53).
    { unfold fexp, emin, Float64.prec, Float64.emax. lia. }
    rewrite Hfexp. unfold shl_align.
    destruct (d - 53 - 0) as [| k | k] eqn:Ek; try lia.
    - (* 53 digits already *)
      exists p, 0. assert (Hb : bounded Float64.prec Float64.emax p 0 = true).
      { unfold bounded, canonical_mantissa. fold (Zdigits2 (Zpos p)). fold d.
        rewrite Hfexp. apply andb_true_intro. split; [apply Z.eqb_eq; lia | reflexivity]. }
      split; [| split; [exact Hb | split; [lia | simpl; lia]]].
      pose proof (binary_round_aux_exact p 0 Hb s 0 ltac:(lia)) as Hx.
      rewrite Z.pow_0_r, Z.mul_1_r in Hx. exact Hx.
    - (* shifted left to 53 digits *)
      exists (Pos.iter xO p k), (d - 53).
      assert (Hval : Zpos (Pos.iter xO p k) = Zpos p * 2 ^ Zpos k) by apply iter_xO.
      assert (Hb : bounded Float64.prec Float64.emax (Pos.iter xO p k) (d - 53) = true).
      { unfold bounded, canonical_mantissa.
        change (Zpos (digits2_pos (Pos.iter xO p k))) with (Zdigits2 (Zpos (Pos.iter xO p k))).
        rewrite Hval, Zdigits2_mul_pow2 by lia. fold d.
        apply andb_true_intro. split.
        - apply Z.eqb_eq. unfold fexp, emin, Float64.prec, Float64.emax. lia.
        - apply Z.leb_le. unfold Float64.prec, Float64.emax. lia. }
      split; [| split; [exact Hb | split; [lia |]]].
      + pose proof (binary_round_aux_exact _ _ Hb s 0 ltac:(lia)) as Hx.
        rewrite Z.pow_0_r, Z.mul_1_r, Z.sub_0_r in Hx. exact Hx.
      + rewrite Hval. f_equal. f_equal. lia. }
  unfold Float64.of_int, binary_normalize.
  destruct n as [| p | p]; [congruence | |].
  - change (Z.pos p <? 0) with false. apply H. exact Hlt.
  - change (Z.neg p <? 0) with true. change (Z.abs (Z.neg p)) with (Zpos p) in *.
    apply H. exact Hlt.
Qed.

Lemma trunc_of_int (n : Z) : Z.abs n < 2 ^ 53 -> Float64.trunc (Float64.of_int n) = n.
Proof.
  intros Hlt. destruct (Z.eq_dec n 0) as [-> | Hn]; [reflexivity |].
  destruct (of_int_exact n Hn Hlt) as [m [e [E [_ [He Hm]]]]].
  rewrite E. unfold Float64.trunc. rewrite Hm.
  assert (Hp : 0 < 2 ^ (- e)) by (apply Z.pow_pos_nonneg; lia).
  destruct (Z.leb_spec 0 e) as [H0 | H0].
  - replace e with 0 by lia. simpl (2 ^ (- 0)). simpl (2 ^ 0).
    destruct (Z.ltb_spec n 0); lia.
  - rewrite Z.div_mul by lia. destruct (Z.ltb_spec n 0); lia.
Qed.

(* ===================================================================== *)
(** ** [TrimSpace] and [ToLower] on ASCII text *)
(* ===================================================================== *)

Lemma isASCII_append (a b : string) :
  Strings.isASCII (a ++ b) = Strings.isASCII a && Strings.isASCII b.
Proof.
  induction a as [| c a IH]; [reflexivity |].
  cbn [append Strings.isASCII]. rewrite IH. apply andb_assoc.
Qed.

Lemma isASCII_rev (s : string) : Strings.isASCII (Strings.rev s) = Strings.isASCII s.
Proof.
  induction s as [| c s IH]; [reflexivity |].
  rewrite rev_cons, isASCII_append, IH. cbn [Strings.isASCII].
  rewrite andb_true_r. apply andb_comm.
Qed.

Lemma all_space_append (a b : string) :
  all_space (a ++ b) = all_space a && all_space b.
Proof.
  induction a as [| c a IH]; [reflexivity |].
  cbn [append all_space]. rewrite IH. apply andb_assoc.
Qed.

Lemma all_space_rev (s : string) : all_space (Strings.rev s) = all_space s.
Proof.
  induction s as [| c s IH]; [reflexivity |].
  rewrite rev_cons, all_space_append, IH. cbn [all_space].
  rewrite andb_true_r. apply andb_comm.
Qed.

Lemma isASCII_head (c : ascii) (s : string) :
  Strings.isASCII (String c s) = true ->
  (Bytes.RuneSelf <=? Bytes.code c) = false /\ Strings.isASCII s = true.
Proof.
  cbn [Strings.isASCII]. intros H. apply andb_true_iff in H. destruct H as [Hc Hs].
  apply Z.ltb_lt in Hc. split; [apply Z.leb_gt; exact Hc | exact Hs].
Qed.

(** On ASCII text the loop from the end never meets a byte >=
    [RuneSelf]; it drops white space and stops at the first other byte. *)
Lemma trim_stop_ascii (r : string) :
  Strings.isASCII r = true ->
  exists sp t,
    r = sp ++ t /\ all_space sp = true /\ Strings.trim_stop r = (false, t) /\
    (forall c r', t = String c r' -> Strings.asciiSpace c = false).
Proof.
  induction r as [| c r IH]; intros Ha.
  - exists EmptyString, EmptyString. repeat split; try reflexivity. discriminate.
  - destruct (isASCII_head c r Ha) as [Hc Hr].
    cbn [Strings.trim_stop]. rewrite Hc.
    destruct (Strings.asciiSpace c) eqn:Es.
    + destruct (IH Hr) as [sp [t [E [Hsp [Ht Hh]]]]].
      exists (String c sp), t. cbn [append all_space]. rewrite Es, Hsp, <- E.
      repeat split; try reflexivity; assumption.
    + exists EmptyString, (String c r). repeat split; try reflexivity.
      intros c' r' E. injection E as -> _. exact Es.
Qed.

(** On ASCII text [TrimSpace] returns the input without the white space
    at its two ends, and no Unicode path is taken. *)
Lemma TrimSpace_ascii (U : Strings.Unicode) (s : string) :
  Strings.isASCII s = true ->
  exists l r,
    s = l ++ Strings.TrimSpace U s ++ r /\
    all_space l = true /\ all_space r = true /\
    trimmed (Strings.TrimSpace U s).
Proof.
  induction s as [| c s IH]; intros Ha.
  - exists EmptyString, EmptyString. repeat split; try reflexivity; discriminate.
  - destruct (isASCII_head c s Ha) as [Hc Hs].
    cbn [Strings.TrimSpace]. rewrite Hc.
    destruct (Strings.asciiSpace c) eqn:Es.
    + destruct (IH Hs) as [l [r [E [Hl [Hr Ht]]]]].
      exists (String c l), r. cbn [append all_space]. rewrite Es, Hl, <- E.
      repeat split; try reflexivity; try assumption; apply Ht.
    + assert (Har : Strings.isASCII (Strings.rev (String c s)) = true)
        by (rewrite isASCII_rev; exact Ha).
      destruct (trim_stop_ascii _ Har) as [sp [t [E [Hsp [Ht Hh]]]]].
      rewrite Ht.
      assert (Es' : String c s = Strings.rev t ++ Strings.rev sp).
      { rewrite <- rev_append, <- E, rev_involutive. reflexivity. }
      exists EmptyString, (Strings.rev sp). cbn [append].
      split; [exact Es' |]. split; [reflexivity |].
      split; [rewrite all_space_rev; exact Hsp |].
      split.
      * intros c' r' E'. rewrite E' in Es'. cbn [append] in Es'.
        injection Es' as -> _. exact Es.
      * intros c' r' E'. rewrite rev_involutive in E'. exact (Hh c' r' E').
Qed.

Lemma lower_ascii_no_upper (s : string) :
  Strings.hasUpper s = false -> Strings.lower_ascii s = s.
Proof.
  induction s as [| c s IH]; [reflexivity |].
  cbn [Strings.hasUpper Strings.lower_ascii]. intros H.
  apply orb_false_iff in H. destruct H as [Hc Hs].
  rewrite Hc, (IH Hs). reflexivity.
Qed.

(** On ASCII text [ToLower] maps the bytes A..Z to a..z and keeps every
    other byte. *)
Lemma ToLower_ascii (U : Strings.Unicode) (s : string) :
  Strings.isASCII s = true -> Strings.ToLower U s = Strings.lower_ascii s.
Proof.
  intros Ha. unfold Strings.ToLower. rewrite Ha.
  destruct (Strings.hasUpper s) eqn:Eu; [reflexivity |].
  symmetry. apply lower_ascii_no_upper. exact Eu.
Qed.

(* ===================================================================== *)
(** ** parseBool *)
(* ===================================================================== *)

Section ParseBoolTable.

Variable U : Strings.Unicode.

Lemma parseBool_cases (s : string) :
  let n := Strings.ToLower U (Strings.TrimSpace U s) in
  (In n truthy /\ parseBool U s = (true, None)) \/
  (In n falsy /\ ~ In n truthy /\ parseBool U s = (false, None)) \/
  (~ In n truthy /\ ~ In n falsy /\
   parseBool U s = (false, Some (Errorf ("cannot parse '" ++ n ++ "' as bool")))).
Proof.
  cbv zeta. unfold parseBool, truthy, falsy.
  generalize (Strings.ToLower U (Strings.TrimSpace U s)). intros n.
  destruct (String.eqb_spec n "true") as [E | Ht]; [subst n; left; split; [simpl; tauto | reflexivity] |].
  destruct (String.eqb_spec n "yes") as [E | Hy]; [subst n; left; split; [simpl; tauto | reflexivity] |].
  destruct (String.eqb_spec n "y") as [E | Hy1]; [subst n; left; split; [simpl; tauto | reflexivity] |].
  destruct (String.eqb_spec n "1") as [E | H1]; [subst n; left; split; [simpl; tauto | reflexivity] |].
  assert (Hnt : ~ In n ["true"; "yes"; "y"; "1"]) by (simpl; intuition congruence).
  destruct (String.eqb_spec n "false") as [E | Hf]; [subst n; right; left; split; [simpl; tauto | split; [exact Hnt | reflexivity]] |].
  destruct (String.eqb_spec n "no") as [E | Hn]; [subst n; right; left; split; [simpl; tauto | split; [exact Hnt | reflexivity]] |].
  destruct (String.eqb_spec n "n") as [E | Hn1]; [subst n; right; left; split; [simpl; tauto | split; [exact Hnt | reflexivity]] |].
  destruct (String.eqb_spec n "0") as [E | H0]; [subst n; right; left; split; [simpl; tauto | split; [exact Hnt | reflexivity]] |].
  right; right. split; [exact Hnt |]. split; [simpl; intuition congruence | reflexivity].
Qed.

(** C2. [parseBool] trims and lower-cases its input; on the normalized
    text [n] it returns true exactly for "true", "yes", "y", "1",
    false without error exactly for "false", "no", "n", "0", and for
    every other [n] the failure whose message carries [n].  So "TRUE",
    " True " and "YES" give true, and " Maybe " fails on "maybe". *)
Theorem parseBool_table (s : string) :
  let n := Strings.ToLower U (Strings.TrimSpace U s) in
  ((parseBool U s = (true, None) <-> In n truthy) /\
   (parseBool U s = (false, None) <-> In n falsy) /\
   ((~ In n truthy /\ ~ In n falsy) <->
    parseBool U s = (false, Some (Errorf ("cannot parse '" ++ n ++ "' as bool"))))) /\
  (parseBool U "TRUE" = (true, None) /\
   parseBool U " True " = (true, None) /\
   parseBool U "YES" = (true, None) /\
   parseBool U " Maybe " = (false, Some (Errorf "cannot parse 'maybe' as bool"))).
Proof.
  split; [| repeat split; reflexivity].
  pose proof (parseBool_cases s) as H. cbv zeta in *.
  revert H. generalize (parseBool U s).
  generalize (Strings.ToLower U (Strings.TrimSpace U s)). intros n r H.
  assert (Hd : forall x, In x truthy -> In x falsy -> False).
  { unfold truthy, falsy. simpl. intros x Ht Hf.
    repeat match goal with H : _ \/ _ |- _ => destruct H end;
      try contradiction; subst; discriminate. }
  destruct H as [[Ht E] | [[Hf [Hnt E]] | [Hnt [Hnf E]]]]; rewrite E; clear E.
  - split; [tauto |]. split.
    + split; [discriminate | intros Hf; exfalso; eauto].
    + split; [tauto | discriminate].
  - split; [split; [discriminate | tauto] |]. split; [tauto |].
    split; [tauto | discriminate].
  - split; [split; [discriminate | tauto] |].
    split; [split; [discriminate | tauto] | tauto].
Qed.

End ParseBoolTable.

(* ===================================================================== *)
(** ** Database value-in *)
(* ===================================================================== *)

Section Scan.

Variable U : Strings.Unicode.

(** C8. [Bool.Scan] of an [int64] stores whether it is non-zero, logs
    nothing and returns [nil]. *)
Theorem Bool_Scan_int64 (n : Z) (v0 : Bool) :
  adopted (negb (n =? 0)) (call (Bool_Scan U (AnyInt64 n)) v0) /\
  (negb (n =? 0) = true <-> n <> 0) /\
  (negb (n =? 0) = false <-> n = 0).
Proof.
  split; [reflexivity |].
  destruct (Z.eqb_spec n 0); simpl; split; split; intros; try congruence; tauto.
Qed.

Lemma Bool_Scan_unsupported (value : any) (v0 : Bool) :
  is_nil value = false -> as_bool value = None -> as_int64 value = None ->
  as_string value = None ->
  call (Bool_Scan U value) v0 =
  (None, {| recv := false;
            logs := [ {| level := LevelError;
                         message := "unsupported Bool value type from database";
                         attrs := [("type", AttrString (type_name value))] |} ] |}).
Proof.
  intros Hn Hb Hi Hs. unfold Bool_Scan. rewrite Hn, Hb, Hi, Hs. reflexivity.
Qed.

Lemma Int_Scan_unsupported (value : any) (v0 : Int) :
  is_nil value = false -> as_int64 value = None -> as_float64 value = None ->
  as_string value = None ->
  call (Int_Scan value) v0 =
  (None, {| recv := 0;
            logs := [ {| level := LevelError;
                         message := "unsupported Int value type from database";
                         attrs := [("type", AttrString (type_name value))] |} ] |}).
Proof.
  intros Hn Hi Hf Hs. unfold Int_Scan. rewrite Hn, Hi, Hf, Hs. reflexivity.
Qed.

Lemma Float_Scan_unsupported (value : any) (v0 : Float) :
  is_nil value = false -> as_float64 value = None -> as_int64 value = None ->
  as_string value = None ->
  call (Float_Scan value) v0 =
  (None, {| recv := Float_zero;
            logs := [ {| level := LevelError;
                         message := "unsupported Float value type from database";
                         attrs := [("type", AttrString (type_name value))] |} ] |}).
Proof.
  intros Hn Hf Hi Hs. unfold Float_Scan. rewrite Hn, Hf, Hi, Hs. reflexivity.
Qed.

Lemma fell_back_intro {T : Type} (zero : T) (msg : string) (a : list (string * attr)) :
  fell_back zero
    (None, {| recv := zero;
              logs := [ {| level := LevelError; message := msg; attrs := a |} ] |}).
Proof.
  split; [reflexivity |]. split; [reflexivity |].
  eexists; split; reflexivity.
Qed.

End Scan.

(* ===================================================================== *)
(** ** Deserialize *)
(* ===================================================================== *)

Section Deserialize.

Variable U : Strings.Unicode.
Variable Y : Yaml.Host.

Lemma Bool_UnmarshalJSON_nil (d : Json.data) (v0 : Bool) :
  fst (call (Bool_UnmarshalJSON U d) v0) = None.
Proof.
  unfold Bool_UnmarshalJSON.
  destruct (Json.Unmarshal_bool d); [reflexivity |].
  destruct (Json.Unmarshal_string d); [| reflexivity].
  destruct (parseBool U a) as [b [e' |]]; reflexivity.
Qed.

Lemma Int_UnmarshalJSON_nil (d : Json.data) (v0 : Int) :
  fst (call (Int_UnmarshalJSON d) v0) = None.
Proof.
  unfold Int_UnmarshalJSON.
  destruct (Json.Unmarshal_int d); [reflexivity |].
  destruct (Json.Unmarshal_string d); [| reflexivity].
  destruct (Strconv.Atoi a) as [b [e' |]]; reflexivity.
Qed.

Lemma Float_UnmarshalJSON_nil (d : Json.data) (v0 : Float) :
  fst (call (Float_UnmarshalJSON d) v0) = None.
Proof.
  unfold Float_UnmarshalJSON.
  destruct (Json.Unmarshal_float64 d); [reflexivity |].
  destruct (Json.Unmarshal_string d); [| reflexivity].
  destruct (Atof.ParseFloat a) as [b [e' |]]; reflexivity.
Qed.

Lemma Bool_UnmarshalYAML_nil (node : Yaml.Node Y) (v0 : Bool) :
  fst (call (Bool_UnmarshalYAML U Y node) v0) = None.
Proof.
  unfold Bool_UnmarshalYAML.
  destruct (Yaml.Decode_bool Y node); [reflexivity |].
  destruct (Yaml.Decode_string Y node); [| reflexivity].
  destruct (parseBool U a) as [b [e' |]]; reflexivity.
Qed.

Lemma Int_UnmarshalYAML_nil (node : Yaml.Node Y) (v0 : Int) :
  fst (call (Int_UnmarshalYAML Y node) v0) = None.
Proof.
  unfold Int_UnmarshalYAML.
  destruct (Yaml.Decode_int Y node); [reflexivity |].
  destruct (Yaml.Decode_string Y node); [| reflexivity].
  destruct (Strconv.Atoi a) as [b [e' |]]; reflexivity.
Qed.

Lemma Float_UnmarshalYAML_nil (node : Yaml.Node Y) (v0 : Float) :
  fst (call (Float_UnmarshalYAML Y node) v0) = None.
Proof.
  unfold Float_UnmarshalYAML.
  destruct (Yaml.Decode_float64 Y node); [reflexivity |].
  destruct (Yaml.Decode_string Y node); [| reflexivity].
  destruct (Atof.ParseFloat a) as [b [e' |]]; reflexivity.
Qed.

(** A token that is not null, not of the native kind and not a string
    that parses: zero value, one record, [nil]. *)
Lemma Bool_UnmarshalJSON_fallback (d : Json.data) (v0 : Bool) :
  Json.kind d <> Json.KNull -> Json.kind d <> Json.KBool ->
  (forall s, d = Json.JString s -> snd (parseBool U s) <> None) ->
  fell_back false (call (Bool_UnmarshalJSON U d) v0).
Proof.
  intros Hn Hk Hs. unfold Bool_UnmarshalJSON.
  destruct d; simpl in Hn, Hk; try congruence; try apply fell_back_intro.
  simpl. specialize (Hs s eq_refl).
  destruct (parseBool U s) as [b [e' |]]; [apply fell_back_intro | simpl in Hs; congruence].
Qed.

Lemma Int_UnmarshalJSON_fallback (d : Json.data) (v0 : Int) :
  Json.kind d <> Json.KNull -> Json.kind d <> Json.KNumber ->
  (forall s, d = Json.JString s -> snd (Strconv.Atoi s) <> None) ->
  fell_back 0 (call (Int_UnmarshalJSON d) v0).
Proof.
  intros Hn Hk Hs. unfold Int_UnmarshalJSON.
  destruct d; simpl in Hn, Hk; try congruence; try apply fell_back_intro.
  simpl. specialize (Hs s eq_refl).
  destruct (Strconv.Atoi s) as [b [e' |]]; [apply fell_back_intro | simpl in Hs; congruence].
Qed.

Lemma Float_UnmarshalJSON_fallback (d : Json.data) (v0 : Float) :
  Json.kind d <> Json.KNull -> Json.kind d <> Json.KNumber ->
  (forall s, d = Json.JString s -> snd (Atof.ParseFloat s) <> None) ->
  fell_back Float_zero (call (Float_UnmarshalJSON d) v0).
Proof.
  intros Hn Hk Hs. unfold Float_UnmarshalJSON.
  destruct d; simpl in Hn, Hk; try congruence; try apply fell_back_intro.
  simpl. specialize (Hs s eq_refl).
  destruct (Atof.ParseFloat s) as [b [e' |]]; [apply fell_back_intro | simpl in Hs; congruence].
Qed.

(** A numeric token that does not decode into the native type falls
    back as well. *)
Lemma Int_UnmarshalJSON_bad_number (lit : string) (v0 : Int) :
  snd (Strconv.ParseInt lit) <> None ->
  fell_back 0 (call (Int_UnmarshalJSON (Json.JNumber lit)) v0).
Proof.
  intros H. unfold Int_UnmarshalJSON. simpl.
  destruct (Strconv.ParseInt lit) as [n [e' |]]; [apply fell_back_intro | simpl in H; congruence].
Qed.

Lemma Float_UnmarshalJSON_bad_number (lit : string) (v0 : Float) :
  snd (Atof.ParseFloat lit) <> None ->
  fell_back Float_zero (call (Float_UnmarshalJSON (Json.JNumber lit)) v0).
Proof.
  intros H. unfold Float_UnmarshalJSON. simpl.
  destruct (Atof.ParseFloat lit) as [n [e' |]]; [apply fell_back_intro | simpl in H; congruence].
Qed.

Lemma Bool_UnmarshalYAML_fallback (node : Yaml.Node Y) (v0 : Bool) :
  (exists e, Yaml.Decode_bool Y node = Err e) ->
  (forall s, Yaml.Decode_string Y node = Ok s -> snd (parseBool U s) <> None) ->
  fell_back false (call (Bool_UnmarshalYAML U Y node) v0).
Proof.
  intros [e He] Hs. unfold Bool_UnmarshalYAML. rewrite He.
  destruct (Yaml.Decode_string Y node) as [s | e1]; [| apply fell_back_intro].
  specialize (Hs s eq_refl).
  destruct (parseBool U s) as [b [e' |]]; [apply fell_back_intro | simpl in Hs; congruence].
Qed.

Lemma Int_UnmarshalYAML_fallback (node : Yaml.Node Y) (v0 : Int) :
  (exists e, Yaml.Decode_int Y node = Err e) ->
  (forall s, Yaml.Decode_string Y node = Ok s -> snd (Strconv.Atoi s) <> None) ->
  fell_back 0 (call (Int_UnmarshalYAML Y node) v0).
Proof.
  intros [e He] Hs. unfold Int_UnmarshalYAML. rewrite He.
  destruct (Yaml.Decode_string Y node) as [s | e1]; [| apply fell_back_intro].
  specialize (Hs s eq_refl).
  destruct (Strconv.Atoi s) as [b [e' |]]; [apply fell_back_intro | simpl in Hs; congruence].
Qed.

Lemma Float_UnmarshalYAML_fallback (node : Yaml.Node Y) (v0 : Float) :
  (exists e, Yaml.Decode_float64 Y node = Err e) ->
  (forall s, Yaml.Decode_string Y node = Ok s -> snd (Atof.ParseFloat s) <> None) ->
  fell_back Float_zero (call (Float_UnmarshalYAML Y node) v0).
Proof.
  intros [e He] Hs. unfold Float_UnmarshalYAML. rewrite He.
  destruct (Yaml.Decode_string Y node) as [s | e1]; [| apply fell_back_intro].
  specialize (Hs s eq_refl).
  destruct (Atof.ParseFloat s) as [b [e' |]]; [apply fell_back_intro | simpl in Hs; congruence].
Qed.

End Deserialize.

(** C1, as the code has it.  No [UnmarshalJSON] or [UnmarshalYAML] of
    [Bool], [Int] or [Float] returns an error.  A JSON null is taken by
    the native decoding: zero value, nothing logged.  Any other JSON
    token that is neither of the native kind nor a string that parses,
    and any YAML node that neither decodes natively nor is a string that
    parses, leaves the zero value and one record of severity error. *)
Theorem Deserialize_never_fails (U : Strings.Unicode) (Y : Yaml.Host) :
  ((forall d v0, fst (call (Bool_UnmarshalJSON U d) v0) = None) /\
   (forall d v0, fst (call (Int_UnmarshalJSON d) v0) = None) /\
   (forall d v0, fst (call (Float_UnmarshalJSON d) v0) = None) /\
   (forall n v0, fst (call (Bool_UnmarshalYAML U Y n) v0) = None) /\
   (forall n v0, fst (call (Int_UnmarshalYAML Y n) v0) = None) /\
   (forall n v0, fst (call (Float_UnmarshalYAML Y n) v0) = None)) /\
  ((forall v0, adopted false (call (Bool_UnmarshalJSON U Json.JNull) v0)) /\
   (forall v0, adopted 0 (call (Int_UnmarshalJSON Json.JNull) v0)) /\
   (forall v0, adopted Float_zero (call (Float_UnmarshalJSON Json.JNull) v0))) /\
  ((forall d v0,
      Json.kind d <> Json.KNull -> Json.kind d <> Json.KBool ->
      (forall s, d = Json.JString s -> snd (parseBool U s) <> None) ->
      fell_back false (call (Bool_UnmarshalJSON U d) v0)) /\
   (forall d v0,
      Json.kind d <> Json.KNull -> Json.kind d <> Json.KNumber ->
      (forall s, d = Json.JString s -> snd (Strconv.Atoi s) <> None) ->
      fell_back 0 (call (Int_UnmarshalJSON d) v0)) /\
   (forall d v0,
      Json.kind d <> Json.KNull -> Json.kind d <> Json.KNumber ->
      (forall s, d = Json.JString s -> snd (Atof.ParseFloat s) <> None) ->
      fell_back Float_zero (call (Float_UnmarshalJSON d) v0))) /\
  ((forall n v0,
      (exists e, Yaml.Decode_bool Y n = Err e) ->
      (forall s, Yaml.Decode_string Y n = Ok s -> snd (parseBool U s) <> None) ->
      fell_back false (call (Bool_UnmarshalYAML U Y n) v0)) /\
   (forall n v0,
      (exists e, Yaml.Decode_int Y n = Err e) ->
      (forall s, Yaml.Decode_string Y n = Ok s -> snd (Strconv.Atoi s) <> None) ->
      fell_back 0 (call (Int_UnmarshalYAML Y n) v0)) /\
   (forall n v0,
      (exists e, Yaml.Decode_float64 Y n = Err e) ->
      (forall s, Yaml.Decode_string Y n = Ok s -> snd (Atof.ParseFloat s) <> None) ->
      fell_back Float_zero (call (Float_UnmarshalYAML Y n) v0))).
Proof.
  split; [| split; [| split]].
  - repeat split; intros.
    + apply Bool_UnmarshalJSON_nil.
    + apply Int_UnmarshalJSON_nil.
    + apply Float_UnmarshalJSON_nil.
    + apply Bool_UnmarshalYAML_nil.
    + apply Int_UnmarshalYAML_nil.
    + apply Float_UnmarshalYAML_nil.
  - repeat split.
  - split; [| split]; intros d v0.
    + apply Bool_UnmarshalJSON_fallback.
    + apply Int_UnmarshalJSON_fallback.
    + apply Float_UnmarshalJSON_fallback.
  - split; [| split]; intros n v0.
    + apply Bool_UnmarshalYAML_fallback.
    + apply Int_UnmarshalYAML_fallback.
    + apply Float_UnmarshalYAML_fallback.
Qed.

(** C1 as stated fails on a JSON null: the token is neither a boolean
    nor a string, the wrapper ends up false and the call succeeds, but
    no record is emitted. *)
Lemma Deserialize_null_is_silent :
  Json.kind Json.JNull <> Json.KBool /\ Json.kind Json.JNull <> Json.KString /\
  call (Bool_UnmarshalJSON Strings.ascii_only Json.JNull) true =
  (None, {| recv := false; logs := [] |}).
Proof. split; [discriminate |]. split; [discriminate | reflexivity]. Qed.

(** The fallback of C1 on a token it applies to: a JSON number handed
    to [Bool]. *)
Lemma Deserialize_never_fails_witness :
  fell_back false (call (Bool_UnmarshalJSON Strings.ascii_only (Json.JNumber "1")) true).
Proof.
  refine (proj1 (proj1 (proj2 (proj2
            (Deserialize_never_fails Strings.ascii_only
               {| Yaml.Node := unit;
                  Yaml.Decode_bool := fun _ => Ok true;
                  Yaml.Decode_int := fun _ => Ok 0;
                  Yaml.Decode_float64 := fun _ => Ok Float_zero;
                  Yaml.Decode_string := fun _ => Ok EmptyString |}))))
            (Json.JNumber "1") true _ _ _).
  - discriminate.
  - discriminate.
  - intros s Hs. discriminate Hs.
Defined.

(* ===================================================================== *)
(** ** Database value-in: the claims *)
(* ===================================================================== *)

(** C4, as the code has it.  A raw value that is not nil, not of a type
    [Scan] asserts ([bool], [int64], [string] for [Bool]; [int64],
    [float64], [string] for [Int] and [Float]) leaves the zero value and
    one record, and [Scan] returns [nil].  [Bool] takes an [int64] as
    well: it stores whether the value is non-zero and logs nothing. *)
Theorem Scan_unsupported_kinds (U : Strings.Unicode) (value : any) :
  (forall v0,
     is_nil value = false -> as_bool value = None -> as_int64 value = None ->
     as_string value = None ->
     fell_back false (call (Bool_Scan U value) v0)) /\
  (forall v0,
     is_nil value = false -> as_int64 value = None -> as_float64 value = None ->
     as_string value = None ->
     fell_back 0 (call (Int_Scan value) v0)) /\
  (forall v0,
     is_nil value = false -> as_float64 value = None -> as_int64 value = None ->
     as_string value = None ->
     fell_back Float_zero (call (Float_Scan value) v0)) /\
  (forall n v0, as_int64 value = Some n ->
     adopted (negb (n =? 0)) (call (Bool_Scan U value) v0)).
Proof.
  split; [| split; [| split]]; intros.
  - rewrite Bool_Scan_unsupported by assumption. apply fell_back_intro.
  - rewrite Int_Scan_unsupported by assumption. apply fell_back_intro.
  - rewrite Float_Scan_unsupported by assumption. apply fell_back_intro.
  - destruct value; try discriminate. simpl in H. injection H as <-. reflexivity.
Qed.

(** C4 as stated fails for [Bool] on an integer-typed raw value: the
    [int64] 1 is stored as true, and nothing is logged. *)
Lemma Bool_Scan_int64_not_fallback :
  call (Bool_Scan Strings.ascii_only (AnyInt64 1)) false =
  (None, {| recv := true; logs := [] |}).
Proof. reflexivity. Qed.

(** C4 on a raw value of Go type [int], which no [Scan] asserts. *)
Lemma Scan_unsupported_kinds_witness :
  fell_back 0 (call (Int_Scan (AnyInt 5)) 7).
Proof.
  refine (proj1 (proj2 (Scan_unsupported_kinds Strings.ascii_only (AnyInt 5))) 7 _ _ _ _);
    reflexivity.
Defined.

Lemma trunc_toward_zero (s : bool) (m : positive) (e : Z) :
  let t := Float64.trunc (S754_finite s m e) in
  (if s then t <= 0 else 0 <= t) /\
  (0 <= e -> Z.abs t = Zpos m * 2 ^ e) /\
  (e < 0 -> Z.abs t * 2 ^ (- e) <= Zpos m < (Z.abs t + 1) * 2 ^ (- e)).
Proof.
  cbv zeta. unfold Float64.trunc.
  destruct (Z.leb_spec 0 e) as [He | He].
  - assert (Hp : 0 < Zpos m * 2 ^ e) by (apply Z.mul_pos_pos; [lia | apply Z.pow_pos_nonneg; lia]).
    split; [destruct s; lia |]. split; [intros _; destruct s; lia | lia].
  - assert (Hq : 0 < 2 ^ (- e)) by (apply Z.pow_pos_nonneg; lia).
    assert (Hd : 0 <= Zpos m / 2 ^ (- e)) by (apply Z.div_pos; lia).
    split; [destruct s; lia |]. split; [lia | intros _].
    assert (Ha : Z.abs (if s then - (Zpos m / 2 ^ (- e)) else Zpos m / 2 ^ (- e))
                 = Zpos m / 2 ^ (- e)) by (destruct s; lia).
    rewrite Ha.
    pose proof (Z.mul_div_le (Zpos m) (2 ^ (- e)) Hq).
    pose proof (Z.mul_succ_div_gt (Zpos m) (2 ^ (- e)) Hq).
    lia.
Qed.

(** C5, as the code has it.  [Int.Scan] of a [float64] stores the
    conversion [int(f)], logs nothing and returns [nil].  For a finite
    [f] whose integer part fits an [int] the conversion is that integer
    part, rounded toward zero: it has the sign of [f], and its
    magnitude is the largest integer not above the magnitude of [f]
    (42.5 gives 42).  For NaN, an infinity or an integer part that does
    not fit, the conversion is not a truncation: the value stored is
    [- 2 ^ 63].  [Float.Scan] of an [int64] stores its conversion to
    [float64], which is the integer itself below [2 ^ 53] in magnitude
    (42 gives 42.0), logs nothing and returns [nil]. *)
Theorem Scan_cross_kind (f : float64) (n : Z) (v0 : Int) (w0 : Float) :
  adopted (Float64.to_int f) (call (Int_Scan (AnyFloat64 f)) v0) /\
  (Float64.is_finite f = true -> - 2 ^ 63 <= Float64.trunc f < 2 ^ 63 ->
   adopted (Float64.trunc f) (call (Int_Scan (AnyFloat64 f)) v0)) /\
  (Float64.is_finite f = false \/ Float64.trunc f < - 2 ^ 63 \/ 2 ^ 63 <= Float64.trunc f ->
   adopted (- 2 ^ 63) (call (Int_Scan (AnyFloat64 f)) v0)) /\
  (forall s m e, f = S754_finite s m e ->
     (if s then Float64.trunc f <= 0 else 0 <= Float64.trunc f) /\
     (0 <= e -> Z.abs (Float64.trunc f) = Zpos m * 2 ^ e) /\
     (e < 0 ->
      Z.abs (Float64.trunc f) * 2 ^ (- e) <= Zpos m
      < (Z.abs (Float64.trunc f) + 1) * 2 ^ (- e))) /\
  (forall s, f = S754_zero s -> Float64.trunc f = 0) /\
  adopted (Float64.of_int n) (call (Float_Scan (AnyInt64 n)) w0) /\
  (Z.abs n < 2 ^ 53 -> Float64.trunc (Float64.of_int n) = n) /\
  (n <> 0 -> Z.abs n < 2 ^ 53 ->
   exists m e, Float64.of_int n = S754_finite (n <? 0) m e /\
               e <= 0 /\ Zpos m = Z.abs n * 2 ^ (- e)) /\
  adopted 42 (call (Int_Scan (AnyFloat64 float_42_5)) v0) /\
  adopted float_42 (call (Float_Scan (AnyInt64 42)) w0).
Proof.
  split; [reflexivity |].
  split.
  { intros Hf [Hlo Hhi]. unfold adopted, Int_Scan. simpl. unfold Float64.to_int.
    rewrite Hf. apply Z.leb_le in Hlo. apply Z.ltb_lt in Hhi. rewrite Hlo, Hhi.
    reflexivity. }
  split.
  { intros H. unfold adopted, Int_Scan. simpl. unfold Float64.to_int.
    destruct (Float64.is_finite f); cbn [andb]; [| reflexivity].
    destruct (Z.leb_spec (- 2 ^ 63) (Float64.trunc f)) as [Hlo | Hlo]; cbn [andb];
      [| reflexivity].
    destruct (Z.ltb_spec (Float64.trunc f) (2 ^ 63)) as [Hhi | Hhi]; [| reflexivity].
    exfalso. destruct H as [H | [H | H]]; [discriminate | lia | lia]. }
  split.
  { intros s m e ->. exact (trunc_toward_zero s m e). }
  split; [intros s ->; reflexivity |].
  split; [reflexivity |].
  split; [apply trunc_of_int |].
  split.
  { intros Hn Hb. destruct (of_int_exact n Hn Hb) as [m [e [E [_ [He Hm]]]]].
    exists m, e. repeat split; assumption. }
  split; reflexivity.
Qed.

(** C5 as stated fails for [Int] on a float-typed raw value whose
    integer part is no [int64].  The integer part of 1e19 is [10 ^ 19];
    [Scan] stores [- 2 ^ 63], as it does for NaN, and reports
    success. *)
Lemma Int_Scan_float_not_truncated :
  Float64.valid float_1e19 = true /\
  Float64.trunc float_1e19 = 10 ^ 19 /\
  call (Int_Scan (AnyFloat64 float_1e19)) 7 = (None, {| recv := - 2 ^ 63; logs := [] |}) /\
  call (Int_Scan (AnyFloat64 Float64.NaN)) 7 = (None, {| recv := - 2 ^ 63; logs := [] |}).
Proof. repeat split. Qed.

Lemma Scan_cross_kind_witness :
  adopted (Float64.trunc float_42_5) (call (Int_Scan (AnyFloat64 float_42_5)) 7) /\
  adopted (- 2 ^ 63) (call (Int_Scan (AnyFloat64 float_1e19)) 7) /\
  Float64.trunc (Float64.of_int 42) = 42.
Proof.
  split; [| split].
  - apply (proj1 (proj2 (Scan_cross_kind float_42_5 42 7 Float_zero))).
    + reflexivity.
    + vm_compute. split; [discriminate | reflexivity].
  - apply (proj1 (proj2 (proj2 (Scan_cross_kind float_1e19 42 7 Float_zero)))).
    right. right. vm_compute. discriminate.
  - apply (proj1 (proj2 (proj2 (proj2 (proj2 (proj2 (proj2
             (Scan_cross_kind float_42_5 42 7 Float_zero)))))))).
    reflexivity.
Defined.

(* ===================================================================== *)
(** ** Serialize *)
(* ===================================================================== *)

(** C6, as the code has it.  [Bool] and [Int] serialize to their native
    token and never fail, in JSON and in YAML; so does [Float] in YAML.
    [Float.MarshalJSON] yields a numeric token for a finite value and
    fails on NaN and the infinities. *)
Theorem Serialize_native_kind :
  (forall b, Bool_MarshalJSON b = Ok (Json.JBool b) /\
             Bool_MarshalYAML b = (AnyBool b, None)) /\
  (forall i, Int_MarshalJSON i = Ok (Json.JNumber (Strconv.FormatInt i)) /\
             Int_MarshalYAML i = (AnyInt i, None)) /\
  (forall f, Float_MarshalYAML f = (AnyFloat64 f, None)) /\
  (forall f, Float64.is_finite f = true ->
             exists lit, Float_MarshalJSON f = Ok (Json.JNumber lit)) /\
  (forall f, Float64.is_finite f = false ->
             Float_MarshalJSON f =
             Err (JsonUnsupportedValueError (Ftoa.FormatFloat f Ftoa.verb_g))).
Proof.
  split; [intros; split; reflexivity |].
  split; [intros; split; reflexivity |].
  split; [reflexivity |].
  split; intros f Hf; unfold Float_MarshalJSON, Json.Marshal_float64.
  - unfold Float64.is_finite in Hf. apply negb_true_iff in Hf.
    rewrite orb_comm in Hf. rewrite Hf.
    match goal with |- context [if ?c then _ else _] => destruct c end; eexists; reflexivity.
  - unfold Float64.is_finite in Hf. apply negb_false_iff in Hf.
    rewrite orb_comm in Hf. rewrite Hf. reflexivity.
Qed.

(** C6 as stated fails for [Float]: a NaN cannot be serialized to
    JSON. *)
Lemma Float_MarshalJSON_NaN_fails :
  Float_MarshalJSON Float64.NaN = Err (JsonUnsupportedValueError "NaN").
Proof. reflexivity. Qed.

Lemma Serialize_native_kind_witness :
  exists lit, Float_MarshalJSON float_42_5 = Ok (Json.JNumber lit).
Proof.
  exact (proj1 (proj2 (proj2 (proj2 Serialize_native_kind))) float_42_5 eq_refl).
Defined.

(* ===================================================================== *)
(** ** The numeric parses *)
(* ===================================================================== *)

(** C9. [Int] does not trim: the string token " 42 " leaves 0 and one
    record, where [parseBool] accepts " true " and [Atoi] accepts
    "42". *)
Theorem Int_string_not_trimmed (U : Strings.Unicode) (v0 : Int) :
  call (Int_UnmarshalJSON (Json.JString " 42 ")) v0 =
  (None,
   {| recv := 0;
      logs := [ {| level := LevelError;
                   message := "invalid Int string value";
                   attrs := [("value", AttrString " 42 ");
                             ("error", AttrError (NumError "Atoi" " 42 " ErrSyntax))] |} ] |}) /\
  adopted 42 (call (Int_UnmarshalJSON (Json.JString "42")) v0) /\
  parseBool U " true " = (true, None).
Proof. repeat split. Qed.

(** C10. [Float] takes the string tokens "NaN" and "Inf": the value
    stored is the non-finite one, nothing is logged. *)
Theorem Float_string_non_finite (v0 : Float) :
  adopted Float64.NaN (call (Float_UnmarshalJSON (Json.JString "NaN")) v0) /\
  adopted (Float64.Inf false) (call (Float_UnmarshalJSON (Json.JString "Inf")) v0) /\
  adopted Float64.NaN (call (Float_Scan (AnyString "NaN")) v0) /\
  adopted (Float64.Inf false) (call (Float_Scan (AnyString "Inf")) v0) /\
  Float64.is_finite Float64.NaN = false /\
  Float64.is_finite (Float64.Inf false) = false.
Proof. repeat split. Qed.

(* ===================================================================== *)
(** ** Round trip *)
(* ===================================================================== *)

Lemma Int_roundtrip_int64 (i : Z) (v0 : Int) :
  - 2 ^ 63 <= i < 2 ^ 63 ->
  Int_roundtrip i v0 = Some (None, {| recv := i; logs := [] |}).
Proof.
  intros Hi. unfold Int_roundtrip, Int_MarshalJSON, Json.Marshal_int, Int_UnmarshalJSON.
  unfold Json.Unmarshal_int. rewrite ParseInt_FormatInt by exact Hi. reflexivity.
Qed.

Lemma Float_roundtrip_non_finite (f : float64) (v0 : Float) :
  Float64.is_finite f = false -> Float_roundtrip f v0 = None.
Proof.
  intros Hf. unfold Float_roundtrip, Float_MarshalJSON, Json.Marshal_float64.
  unfold Float64.is_finite in Hf. apply negb_false_iff in Hf.
  rewrite orb_comm in Hf. rewrite Hf. reflexivity.
Qed.

Section NativeYAML.

Variable U : Strings.Unicode.
Variable Y : Yaml.Host.

(** [UnmarshalYAML] adopts what the decoder reads natively. *)
Lemma Bool_UnmarshalYAML_native (n : Yaml.Node Y) (b : bool) (v0 : Bool) :
  Yaml.Decode_bool Y n = Ok b -> adopted b (call (Bool_UnmarshalYAML U Y n) v0).
Proof. intros H. unfold adopted, Bool_UnmarshalYAML. rewrite H. reflexivity. Qed.

Lemma Int_UnmarshalYAML_native (n : Yaml.Node Y) (i : Z) (v0 : Int) :
  Yaml.Decode_int Y n = Ok i -> adopted i (call (Int_UnmarshalYAML Y n) v0).
Proof. intros H. unfold adopted, Int_UnmarshalYAML. rewrite H. reflexivity. Qed.

Lemma Float_UnmarshalYAML_native (n : Yaml.Node Y) (f : float64) (v0 : Float) :
  Yaml.Decode_float64 Y n = Ok f -> adopted f (call (Float_UnmarshalYAML Y n) v0).
Proof. intros H. unfold adopted, Float_UnmarshalYAML. rewrite H. reflexivity. Qed.

End NativeYAML.

(** C3, as the code has it.  Through JSON, [Deserialize(Serialize(v))]
    leaves [v] for every [Bool], for every [Int] (a 64-bit integer) and
    for every finite [Float]; NaN and the infinities do not serialize,
    so there is nothing to read back.  Through YAML, [UnmarshalYAML]
    adopts the value the decoder reads natively from the node, so
    [Deserialize(Serialize(v))] leaves [v] for every [Bool], [Int] and
    [Float], NaN and the infinities included, whenever the decoder
    reads the node written for [v] back as [v]. *)
Theorem Deserialize_Serialize_roundtrip (U : Strings.Unicode) :
  ((forall b v0, Bool_roundtrip U b v0 = Some (None, {| recv := b; logs := [] |})) /\
   (forall i v0, - 2 ^ 63 <= i < 2 ^ 63 ->
                 Int_roundtrip i v0 = Some (None, {| recv := i; logs := [] |})) /\
   (forall f v0, Float64.valid f = true -> Float64.is_finite f = true ->
                 Float_roundtrip f v0 = Some (None, {| recv := f; logs := [] |})) /\
   (forall f v0, Float64.is_finite f = false -> Float_roundtrip f v0 = None)) /\
  ((forall (Y : Yaml.Host) n b v0,
      Yaml.Decode_bool Y n = Ok b -> adopted b (call (Bool_UnmarshalYAML U Y n) v0)) /\
   (forall (Y : Yaml.Host) n i v0,
      Yaml.Decode_int Y n = Ok i -> adopted i (call (Int_UnmarshalYAML Y n) v0)) /\
   (forall (Y : Yaml.Host) n f v0,
      Yaml.Decode_float64 Y n = Ok f -> adopted f (call (Float_UnmarshalYAML Y n) v0))) /\
  ((forall (Y : Yaml.Host) (encode : any -> Yaml.Node Y) b v0,
      Yaml.Decode_bool Y (encode (AnyBool b)) = Ok b ->
      Bool_roundtrip_YAML U Y encode b v0 = Some (None, {| recv := b; logs := [] |})) /\
   (forall (Y : Yaml.Host) (encode : any -> Yaml.Node Y) i v0,
      Yaml.Decode_int Y (encode (AnyInt i)) = Ok i ->
      Int_roundtrip_YAML Y encode i v0 = Some (None, {| recv := i; logs := [] |})) /\
   (forall (Y : Yaml.Host) (encode : any -> Yaml.Node Y) f v0,
      Yaml.Decode_float64 Y (encode (AnyFloat64 f)) = Ok f ->
      Float_roundtrip_YAML Y encode f v0 = Some (None, {| recv := f; logs := [] |}))).
Proof.
  split; [| split].
  - split; [reflexivity |].
    split; [intros; apply Int_roundtrip_int64; assumption |].
    split; [intros; apply Float_roundtrip_finite; assumption |].
    intros; apply Float_roundtrip_non_finite; assumption.
  - split; [| split]; intros Y n v v0 H.
    + apply Bool_UnmarshalYAML_native. exact H.
    + apply Int_UnmarshalYAML_native. exact H.
    + apply Float_UnmarshalYAML_native. exact H.
  - split; [| split]; intros Y encode v v0 H.
    + unfold Bool_roundtrip_YAML, Bool_MarshalYAML. f_equal.
      apply Bool_UnmarshalYAML_native. exact H.
    + unfold Int_roundtrip_YAML, Int_MarshalYAML, Int_GetValue. f_equal.
      apply Int_UnmarshalYAML_native. exact H.
    + unfold Float_roundtrip_YAML, Float_MarshalYAML, Float_GetValue. f_equal.
      apply Float_UnmarshalYAML_native. exact H.
Qed.

(** C3 as stated fails for [Float] at NaN: [MarshalJSON] returns an
    error, and no token is there to deserialize. *)
Lemma Float_roundtrip_NaN :
  Float_MarshalJSON Float64.NaN = Err (JsonUnsupportedValueError "NaN") /\
  Float_roundtrip Float64.NaN Float_zero = None.
Proof. split; reflexivity. Qed.

Lemma Deserialize_Serialize_roundtrip_witness :
  Int_roundtrip (- 2 ^ 63) 0 = Some (None, {| recv := - 2 ^ 63; logs := [] |}) /\
  Float_roundtrip float_3_14 Float_zero = Some (None, {| recv := float_3_14; logs := [] |}) /\
  Bool_roundtrip_YAML Strings.ascii_only yaml_values (fun x => x) true false =
  Some (None, {| recv := true; logs := [] |}) /\
  Int_roundtrip_YAML yaml_values (fun x => x) 42 0 =
  Some (None, {| recv := 42; logs := [] |}) /\
  Float_roundtrip_YAML yaml_values (fun x => x) Float64.NaN Float_zero =
  Some (None, {| recv := Float64.NaN; logs := [] |}).
Proof.
  pose proof (Deserialize_Serialize_roundtrip Strings.ascii_only) as [HJ [_ HY]].
  split; [| split; [| split; [| split]]].
  - apply (proj1 (proj2 HJ)). vm_compute. split; [discriminate | reflexivity].
  - apply (proj1 (proj2 (proj2 HJ)) float_3_14 Float_zero); reflexivity.
  - apply (proj1 HY yaml_values (fun x => x) true false). reflexivity.
  - apply (proj1 (proj2 HY) yaml_values (fun x => x) 42 0). reflexivity.
  - apply (proj2 (proj2 HY) yaml_values (fun x => x) Float64.NaN Float_zero). reflexivity.
Defined.

(* ===================================================================== *)
(** ** String *)
(* ===================================================================== *)

(** C7, on the model of the spec.  [String] adopts a string token as it
    is, renders a numeric token in the shortest decimal text that reads
    back as its value (123 as "123", 123.45 as "123.45"; the text of
    every finite value reads back as that value), renders a boolean
    token as "true" or "false", and returns an error on any other
    token, leaving the receiver alone. *)
Theorem String_Deserialize_by_kind :
  (forall (s : string) (v0 : String_),
     adopted s (call (String_UnmarshalJSON (Json.JString s)) v0)) /\
  (forall (lit : string) (f : float64) (v0 : String_),
     Json.Unmarshal_float64 (Json.JNumber lit) = Ok f ->
     adopted (Ftoa.FormatFloat f Ftoa.verb_f)
             (call (String_UnmarshalJSON (Json.JNumber lit)) v0)) /\
  (forall v0 : String_, adopted "123" (call (String_UnmarshalJSON (Json.JNumber "123")) v0) /\
              adopted "123.45" (call (String_UnmarshalJSON (Json.JNumber "123.45")) v0)) /\
  (Atof.ParseFloat "123" = (float_123, None) /\
   Atof.ParseFloat "123.45" = (float_123_45, None)) /\
  (forall f : float64,
     Float64.valid f = true -> Float64.is_finite f = true ->
     Atof.ParseFloat (String_render_number f) = (f, None)) /\
  (forall (b : bool) (v0 : String_), adopted (if b then "true" else "false")
                        (call (String_UnmarshalJSON (Json.JBool b)) v0)) /\
  (forall (d : Json.data) (v0 : String_),
     Json.kind d <> Json.KString -> Json.kind d <> Json.KNumber ->
     Json.kind d <> Json.KBool ->
     failed v0 (call (String_UnmarshalJSON d) v0)).
Proof.
  split; [reflexivity |].
  split.
  { intros lit f v0 H. unfold String_UnmarshalJSON. rewrite H. reflexivity. }
  split; [intros v0; split; vm_compute; reflexivity |].
  split; [split; vm_compute; reflexivity |].
  split; [intros f Hv Hf; apply ParseFloat_FormatFloat; assumption |].
  split; [intros [] v0; reflexivity |].
  intros d v0 Hs Hn Hb.
  destruct d; simpl in Hs, Hn, Hb; try congruence;
    (split; [eexists; reflexivity | reflexivity]).
Qed.

Lemma String_Deserialize_by_kind_witness :
  adopted "98.5" (call (String_UnmarshalJSON (Json.JNumber "98.5")) "") /\
  failed "kept" (call (String_UnmarshalJSON Json.JArray) "kept").
Proof.
  split.
  - pose proof (proj1 (proj2 String_Deserialize_by_kind) "98.5"
                  (S754_finite false 6931321301499904 (-46)) "") as W.
    vm_compute in W. vm_compute. exact (W eq_refl).
  - apply (proj2 (proj2 (proj2 (proj2 (proj2 (proj2 String_Deserialize_by_kind))))) Json.JArray "kept");
      discriminate.
Defined.

(* ===================================================================== *)
(** * Further properties of the code *)
(* ===================================================================== *)

(* ===================================================================== *)
(** ** The strings the integer parsers accept *)
(* ===================================================================== *)

Lemma ParseUint_loop_not_digit (c : ascii) (r : string) (n : Z) :
  Bytes.is_digit c = false ->
  Strconv.ParseUint_loop (String c r) n = (0, Some ErrSyntax).
Proof.
  intros Hc. cbn [Strconv.ParseUint_loop]. unfold Bytes.is_digit in Hc. rewrite Hc.
  destruct (Bytes.in_range "a" "z" (Bytes.lower c)) eqn:El; [| reflexivity].
  unfold Bytes.in_range in El. apply andb_true_iff in El. destruct El as [Ha _].
  apply Z.leb_le in Ha.
  destruct (Z.leb_spec 10 (Bytes.code (Bytes.lower c) - Bytes.code "a" + 10)); [reflexivity | lia].
Qed.

(** When the loop of [ParseUint] ends without an error, its input was
    made of decimal digits and the result is their value. *)
Lemma ParseUint_loop_sound (s : string) (n u : Z) :
  0 <= n <= Strconv.maxUint64 ->
  Strconv.ParseUint_loop s n = (u, None) ->
  Strconv.all_digits s = true /\ u = Strconv.digits_value s n /\ 0 <= u <= Strconv.maxUint64.
Proof.
  revert n. induction s as [| c s IH]; intros n Hn H.
  - cbn in H. injection H as <-. repeat split; lia.
  - destruct (Bytes.is_digit c) eqn:Hc.
    2:{ rewrite ParseUint_loop_not_digit in H by exact Hc. discriminate. }
    pose proof Hc as Hcode. apply is_digit_code in Hcode.
    cbn [Strconv.ParseUint_loop] in H. unfold Bytes.is_digit in Hc. rewrite Hc in H.
    change (Bytes.code "0") with 48 in H.
    unfold Strconv.maxUint64 in *.
    change (2 ^ 64 - 1) with 18446744073709551615 in *.
    change (18446744073709551615 / 10 + 1) with 1844674407370955162 in H.
    change (2 ^ 64) with 18446744073709551616 in H.
    destruct (Z.leb_spec 10 (Bytes.code c - 48)); [lia |].
    destruct (Z.leb_spec 1844674407370955162 n); [discriminate |].
    destruct (Z.lt_ge_cases (n * 10 + (Bytes.code c - 48)) 18446744073709551616) as [Hs | Hb].
    + rewrite Z.mod_small in H by lia.
      destruct (Z.ltb_spec (n * 10 + (Bytes.code c - 48)) (n * 10)); [lia |].
      destruct (Z.ltb_spec 18446744073709551615 (n * 10 + (Bytes.code c - 48))); [lia |].
      cbn [orb] in H. apply IH in H; [| lia].
      destruct H as [Hd [Hu Hr]].
      cbn [Strconv.all_digits Strconv.digits_value]. unfold Bytes.is_digit. rewrite Hc, Hd.
      change (Bytes.code "0") with 48. repeat split; try assumption; lia.
    + exfalso.
      assert (E : (n * 10 + (Bytes.code c - 48)) mod 18446744073709551616
                  = n * 10 + (Bytes.code c - 48) - 18446744073709551616).
      { symmetry. apply Z.mod_unique with (q := 1); lia. }
      rewrite E in H.
      destruct (Z.ltb_spec (n * 10 + (Bytes.code c - 48) - 18446744073709551616) (n * 10));
        [discriminate | lia].
Qed.

Lemma ParseUint_loop_range (s : string) (n u : Z) :
  Strconv.ParseUint_loop s n = (u, Some ErrRange) -> u = Strconv.maxUint64.
Proof.
  revert n. induction s as [| c s IH]; intros n H; [discriminate |].
  cbn [Strconv.ParseUint_loop] in H.
  destruct (if Bytes.in_range "0" "9" c then _ else _) as [d |]; [| discriminate].
  destruct (10 <=? d); [discriminate |].
  destruct (Strconv.maxUint64 / 10 + 1 <=? n); [injection H as <-; reflexivity |].
  destruct (_ || _); [injection H as <-; reflexivity |].
  apply IH in H. exact H.
Qed.

Lemma unsigned_value_Some (s : string) (v : Z) :
  unsigned_value s = Some v <->
  s <> "" /\ Strconv.all_digits s = true /\ v = Strconv.digits_value s 0.
Proof.
  unfold unsigned_value. destruct s as [| c r].
  - split; [discriminate | intros [H _]; congruence].
  - destruct (Strconv.all_digits (String c r)).
    + split; [intros H; injection H as <-; repeat split; discriminate
             | intros [_ [_ ->]]; reflexivity].
    + split; [discriminate | intros [_ [H _]]; discriminate].
Qed.

Lemma unsigned_value_nonneg (s : string) (v : Z) : unsigned_value s = Some v -> 0 <= v.
Proof.
  intros H. apply unsigned_value_Some in H. destruct H as [_ [Hd ->]].
  apply (digits_value_mono s 0 Hd). lia.
Qed.

(** [ParseUint] accepts exactly the non-empty runs of decimal digits
    whose value fits 64 bits. *)
Lemma ParseUint_accepts (s : string) (u : Z) :
  Strconv.ParseUint s = (u, None) <->
  unsigned_value s = Some u /\ u <= Strconv.maxUint64.
Proof.
  split.
  - intros H. unfold Strconv.ParseUint in H. destruct s as [| c r]; [discriminate |].
    apply ParseUint_loop_sound in H; [| unfold Strconv.maxUint64; simpl; lia].
    destruct H as [Hd [Hu Hr]]. split; [| lia].
    apply unsigned_value_Some. repeat split; [discriminate | exact Hd | exact Hu].
  - intros [H Hr]. apply unsigned_value_Some in H. destruct H as [Hne [Hd ->]].
    unfold Strconv.ParseUint. destruct s as [| c r]; [congruence |].
    apply ParseUint_loop_digits; [exact Hd | lia | exact Hr].
Qed.

Lemma digit_not_sign (c : ascii) :
  Bytes.is_digit c = true -> Bytes.same c "+" = false /\ Bytes.same c "-" = false.
Proof.
  intros Hc. apply is_digit_code in Hc. unfold Bytes.same.
  change (Bytes.code "+") with 43. change (Bytes.code "-") with 45.
  split; apply Z.eqb_neq; lia.
Qed.

Lemma sign_not_digit (c : ascii) :
  Bytes.same c "+" || Bytes.same c "-" = true -> Bytes.is_digit c = false.
Proof.
  intros H. destruct (Bytes.is_digit c) eqn:Hc; [| reflexivity].
  destruct (digit_not_sign c Hc) as [H1 H2]. rewrite H1, H2 in H. discriminate.
Qed.

Lemma ParseUint_loop_digits_syntax (s : string) (n u : Z) :
  Strconv.all_digits s = true -> Strconv.ParseUint_loop s n <> (u, Some ErrSyntax).
Proof.
  revert n. induction s as [| c s IH]; intros n Hd EP; [discriminate |].
  cbn [Strconv.all_digits] in Hd. apply andb_true_iff in Hd. destruct Hd as [Hc Hd].
  pose proof Hc as Hcode. apply is_digit_code in Hcode.
  cbn [Strconv.ParseUint_loop] in EP. unfold Bytes.is_digit in Hc. rewrite Hc in EP.
  change (Bytes.code "0") with 48 in EP.
  destruct (Z.leb_spec 10 (Bytes.code c - 48)); [lia |].
  destruct (Strconv.maxUint64 / 10 + 1 <=? n); [discriminate |].
  destruct (_ || _); [discriminate |].
  exact (IH _ Hd EP).
Qed.

Lemma ParseUint_syntax (s : string) (u : Z) :
  Strconv.ParseUint s = (u, Some ErrSyntax) -> unsigned_value s = None.
Proof.
  intros H. destruct (unsigned_value s) as [v |] eqn:E; [| reflexivity].
  apply unsigned_value_Some in E. destruct E as [Hne [Hd _]].
  unfold Strconv.ParseUint in H. destruct s as [| c r]; [congruence |].
  exfalso. exact (ParseUint_loop_digits_syntax _ _ _ Hd H).
Qed.

Lemma ParseUint_range (s : string) (u : Z) :
  Strconv.ParseUint s = (u, Some ErrRange) ->
  u = Strconv.maxUint64 /\
  forall v, unsigned_value s = Some v -> Strconv.maxUint64 < v.
Proof.
  intros H. split.
  - unfold Strconv.ParseUint in H. destruct s as [| c r]; [discriminate |].
    exact (ParseUint_loop_range _ _ _ H).
  - intros v Hv. destruct (Z.lt_ge_cases Strconv.maxUint64 v) as [| Hle]; [assumption |].
    exfalso. assert (E : Strconv.ParseUint s = (v, None))
      by (apply ParseUint_accepts; split; [exact Hv | lia]).
    rewrite E in H. discriminate.
Qed.

(** [ParseInt(s, 10, 64)] accepts exactly the optionally signed runs of
    decimal digits that denote an [int64]. *)
Lemma ParseInt_as_accepts (fn s : string) (v : Z) :
  Strconv.ParseInt_as fn s = (v, None) <->
  integer_value s = Some v /\ is_int64 v = true.
Proof.
  unfold is_int64. rewrite andb_true_iff, Z.leb_le, Z.ltb_lt.
  change (2 ^ 63) with 9223372036854775808.
  destruct s as [| c r]; [cbn; split; [discriminate | intros [H _]; discriminate] |].
  cbn [Strconv.ParseInt_as integer_value].
  change (2 ^ 63) with 9223372036854775808.
  set (s' := if Bytes.same c "+" || Bytes.same c "-" then r else String c r).
  assert (Hiv : (if Bytes.same c "+" then unsigned_value r
                 else if Bytes.same c "-" then option_map Z.opp (unsigned_value r)
                 else unsigned_value (String c r))
                = if Bytes.same c "-" then option_map Z.opp (unsigned_value s')
                  else unsigned_value s').
  { unfold s'. destruct (Bytes.same c "+") eqn:Ep.
    - apply same_eq in Ep. subst c. reflexivity.
    - cbn [orb]. destruct (Bytes.same c "-"); reflexivity. }
  rewrite Hiv. clear Hiv.
  destruct (Strconv.ParseUint s') as [un [[] |]] eqn:EP.
  - (* syntax error *)
    apply ParseUint_syntax in EP. rewrite EP.
    split; [discriminate |]. destruct (Bytes.same c "-"); intros [H _]; discriminate.
  - (* range error *)
    apply ParseUint_range in EP. destruct EP as [-> Hbig].
    unfold Strconv.maxUint64 in *. change (2 ^ 64 - 1) with 18446744073709551615 in *.
    destruct (Bytes.same c "-"); cbn [negb andb].
    + change (9223372036854775808 <? 18446744073709551615) with true. cbn iota.
      split; [discriminate |]. intros [H Hr].
      destruct (unsigned_value s') as [w |]; [| discriminate].
      specialize (Hbig w eq_refl). injection H as <-. lia.
    + change (9223372036854775808 <=? 18446744073709551615) with true. cbn iota.
      split; [discriminate |]. intros [H Hr]. specialize (Hbig v H). lia.
  - apply ParseUint_accepts in EP. destruct EP as [Hu Hmax]. rewrite Hu.
    pose proof (unsigned_value_nonneg _ _ Hu) as Hnn.
    destruct (Bytes.same c "-"); cbn [negb andb option_map].
    + destruct (Z.ltb_spec 9223372036854775808 un) as [Hcmp | Hcmp].
      * split; [discriminate |]. intros [H Hr]. injection H as <-. lia.
      * split; [intros H; injection H as <-; split; [reflexivity | lia]
               | intros [H _]; injection H as <-; reflexivity].
    + destruct (Z.leb_spec 9223372036854775808 un) as [Hcmp | Hcmp].
      * split; [discriminate |]. intros [H Hr]. injection H as <-. lia.
      * split; [intros H; injection H as <-; split; [reflexivity | lia]
               | intros [H _]; injection H as <-; reflexivity].
Qed.

Lemma Atoi_fast_byte (c : ascii) :
  (9 <? (Bytes.code c - Bytes.code "0") mod 256) = negb (Bytes.is_digit c) /\
  (Bytes.is_digit c = true ->
   (Bytes.code c - Bytes.code "0") mod 256 = Bytes.code c - Bytes.code "0").
Proof.
  destruct c as [[] [] [] [] [] [] [] []]; vm_compute; split; congruence.
Qed.

(** The fast path of [Atoi] accepts exactly the runs of decimal digits. *)
Lemma Atoi_fast_spec (s : string) (n : Z) :
  Strconv.Atoi_fast s n =
  if Strconv.all_digits s then Some (Strconv.digits_value s n) else None.
Proof.
  revert n. induction s as [| c s IH]; intros n; [reflexivity |].
  cbn [Strconv.Atoi_fast Strconv.all_digits Strconv.digits_value].
  destruct (Atoi_fast_byte c) as [H1 H2]. rewrite H1.
  destruct (Bytes.is_digit c); cbn [negb andb]; [| reflexivity].
  rewrite IH, (H2 eq_refl). reflexivity.
Qed.

(** [Atoi] accepts exactly the optionally signed runs of decimal digits
    that denote an [int64], on its fast path and on its slow one. *)
Lemma Atoi_accepts (s : string) (v : Z) :
  Strconv.Atoi s = (v, None) <->
  integer_value s = Some v /\ is_int64 v = true.
Proof.
  unfold Strconv.Atoi.
  destruct ((0 <? Z.of_nat (String.length s)) && (Z.of_nat (String.length s) <? 19)) eqn:El;
    [| apply ParseInt_as_accepts].
  apply andb_true_iff in El. destruct El as [_ Hlen]. apply Z.ltb_lt in Hlen.
  destruct s as [| c r]; [cbn; split; [discriminate | intros [H _]; discriminate] |].
  cbn [integer_value].
  assert (Hshort : forall t w, (String.length t <= String.length (String c r))%nat ->
                      unsigned_value t = Some w -> 0 <= w < 10 ^ 18).
  { intros t w Ht Hw. pose proof (unsigned_value_nonneg _ _ Hw).
    apply unsigned_value_Some in Hw. destruct Hw as [_ [Hd ->]].
    pose proof (digits_value_bounds t 0 Hd ltac:(lia)) as [_ Hb].
    split; [assumption |]. eapply Z.lt_le_trans; [exact Hb |].
    rewrite Z.mul_1_l. apply Z.pow_le_mono_r; lia. }
  assert (Hr18 : forall w, 0 <= w < 10 ^ 18 -> is_int64 w = true /\ is_int64 (- w) = true).
  { intros w Hw. unfold is_int64. rewrite !andb_true_iff, !Z.leb_le, !Z.ltb_lt.
    change (2 ^ 63) with 9223372036854775808.
    change (10 ^ 18) with 1000000000000000000 in Hw. lia. }
  assert (Hfast : forall t, Strconv.Atoi_fast t 0 =
                     match t with
                     | EmptyString => Some 0
                     | _ => unsigned_value t
                     end).
  { intros t. rewrite Atoi_fast_spec. destruct t; reflexivity. }
  destruct (Bytes.same c "+") eqn:Ep.
  - apply same_eq in Ep. subst c.
    change (Bytes.same "+" "-") with false. cbn [orb andb].
    destruct r as [| c' r']; [cbn; split; [discriminate | intros [H _]; discriminate] |].
    cbn [String.length]. rewrite Nat2Z.inj_succ.
    destruct (Z.ltb_spec (Z.succ (Z.of_nat (String.length r'))) 1) as [Hcmp | Hcmp]; [lia |].
    rewrite Hfast.
    destruct (unsigned_value (String c' r')) as [w |] eqn:Ew.
    + pose proof (Hr18 w (Hshort (String c' r') w ltac:(cbn [String.length]; lia) Ew)) as [Hr _].
      split; [intros H; injection H as <-; split; [reflexivity | exact Hr]
             | intros [H _]; injection H as <-; reflexivity].
    + split; [discriminate | intros [H _]; discriminate].
  - destruct (Bytes.same c "-") eqn:Em.
    + cbn [orb andb].
      destruct r as [| c' r']; [cbn; split; [discriminate | intros [H _]; discriminate] |].
      cbn [String.length]. rewrite Nat2Z.inj_succ.
      destruct (Z.ltb_spec (Z.succ (Z.of_nat (String.length r'))) 1) as [Hcmp | Hcmp]; [lia |].
      rewrite Hfast.
      destruct (unsigned_value (String c' r')) as [w |] eqn:Ew; cbn [option_map].
      * pose proof (Hr18 w (Hshort (String c' r') w ltac:(cbn [String.length]; lia) Ew)) as [_ Hr].
        split; [intros H; injection H as <-; split; [reflexivity | exact Hr]
               | intros [H _]; injection H as <-; reflexivity].
      * split; [discriminate | intros [H _]; discriminate].
    + cbn [orb andb]. rewrite Hfast.
      destruct (unsigned_value (String c r)) as [w |] eqn:Ew.
      * pose proof (Hr18 w (Hshort (String c r) w ltac:(cbn [String.length]; lia) Ew)) as [Hr _].
        split; [intros H; injection H as <-; split; [reflexivity | exact Hr]
               | intros [H _]; injection H as <-; reflexivity].
      * split; [discriminate | intros [H _]; discriminate].
Qed.

Lemma settled_quiet {T : Type} (zero v : T) : settled zero (None, {| recv := v; logs := [] |}).
Proof. split; [reflexivity | left; reflexivity]. Qed.

Lemma settled_fell_back {T : Type} (zero : T) (r : outcome T) :
  fell_back zero r -> settled zero r.
Proof. intros H. split; [apply H | right; exact H]. Qed.

Lemma settled_logged {T : Type} (zero : T) (msg : string) (a : list (string * attr)) :
  settled zero
    (None, {| recv := zero;
              logs := [ {| level := LevelError; message := msg; attrs := a |} ] |}).
Proof. apply settled_fell_back, fell_back_intro. Qed.

Create HintDb settle.
#[local] Hint Resolve settled_quiet settled_logged : settle.

(** X1. [Scan] never returns an error: whatever the raw value and whatever
    the receiver held, [Bool.Scan], [Int.Scan] and [Float.Scan] return
    [nil], and they either log nothing or leave the zero value with
    exactly one record of severity error. *)
Theorem Scan_settles (U : Strings.Unicode) (value : any) :
  (forall v0, settled false (call (Bool_Scan U value) v0)) /\
  (forall v0, settled 0 (call (Int_Scan value) v0)) /\
  (forall v0, settled Float_zero (call (Float_Scan value) v0)).
Proof.
  split; [| split]; intros v0.
  - unfold Bool_Scan. destruct value; cbn; auto with settle.
    destruct (parseBool U s) as [b [e |]]; cbn; auto with settle.
  - unfold Int_Scan. destruct value; cbn; auto with settle.
    destruct (Strconv.Atoi s) as [n [e |]]; cbn; auto with settle.
  - unfold Float_Scan. destruct value; cbn; auto with settle.
    destruct (Atof.ParseFloat s) as [f [e |]]; cbn; auto with settle.
Qed.

(** X2. A diagnostic always comes with the zero value.  For every JSON
    token and every YAML node, with any YAML decoder, each
    [UnmarshalJSON] and [UnmarshalYAML] of [Bool], [Int] and [Float]
    either logs nothing or leaves the zero value with exactly one
    record of severity error. *)
Theorem Deserialize_settles (U : Strings.Unicode) (Y : Yaml.Host) :
  (forall d v0, settled false (call (Bool_UnmarshalJSON U d) v0)) /\
  (forall d v0, settled 0 (call (Int_UnmarshalJSON d) v0)) /\
  (forall d v0, settled Float_zero (call (Float_UnmarshalJSON d) v0)) /\
  (forall n v0, settled false (call (Bool_UnmarshalYAML U Y n) v0)) /\
  (forall n v0, settled 0 (call (Int_UnmarshalYAML Y n) v0)) /\
  (forall n v0, settled Float_zero (call (Float_UnmarshalYAML Y n) v0)).
Proof.
  split; [| split; [| split; [| split; [| split]]]]; intros d v0.
  - unfold Bool_UnmarshalJSON. destruct d; cbn; auto with settle.
    destruct (parseBool U s) as [b [e |]]; cbn; auto with settle.
  - unfold Int_UnmarshalJSON. destruct d; cbn; auto with settle.
    + destruct (Strconv.ParseInt lit) as [n [e |]]; cbn; auto with settle.
    + destruct (Strconv.Atoi s) as [n [e |]]; cbn; auto with settle.
  - unfold Float_UnmarshalJSON. destruct d; cbn; auto with settle.
    + destruct (Atof.ParseFloat lit) as [f [e |]]; cbn; auto with settle.
    + destruct (Atof.ParseFloat s) as [f [e |]]; cbn; auto with settle.
  - unfold Bool_UnmarshalYAML.
    destruct (Yaml.Decode_bool Y d); cbn; auto with settle.
    destruct (Yaml.Decode_string Y d) as [s |]; cbn; auto with settle.
    destruct (parseBool U s) as [b [e' |]]; cbn; auto with settle.
  - unfold Int_UnmarshalYAML.
    destruct (Yaml.Decode_int Y d); cbn; auto with settle.
    destruct (Yaml.Decode_string Y d) as [s |]; cbn; auto with settle.
    destruct (Strconv.Atoi s) as [b [e' |]]; cbn; auto with settle.
  - unfold Float_UnmarshalYAML.
    destruct (Yaml.Decode_float64 Y d); cbn; auto with settle.
    destruct (Yaml.Decode_string Y d) as [s |]; cbn; auto with settle.
    destruct (Atof.ParseFloat s) as [b [e' |]]; cbn; auto with settle.
Qed.

(** X3. Every [UnmarshalJSON], [UnmarshalYAML] and [Scan] of [Bool], [Int]
    and [Float] overwrites the receiver: what the call returns, stores
    and logs depends on the input alone, never on the value the
    receiver held before.  A JSON null, for one, resets a [Bool] that
    was true. *)
Theorem receiver_overwritten (U : Strings.Unicode) (Y : Yaml.Host) :
  (forall d v0 v1, call (Bool_UnmarshalJSON U d) v0 = call (Bool_UnmarshalJSON U d) v1) /\
  (forall d v0 v1, call (Int_UnmarshalJSON d) v0 = call (Int_UnmarshalJSON d) v1) /\
  (forall d v0 v1, call (Float_UnmarshalJSON d) v0 = call (Float_UnmarshalJSON d) v1) /\
  (forall n v0 v1, call (Bool_UnmarshalYAML U Y n) v0 = call (Bool_UnmarshalYAML U Y n) v1) /\
  (forall n v0 v1, call (Int_UnmarshalYAML Y n) v0 = call (Int_UnmarshalYAML Y n) v1) /\
  (forall n v0 v1, call (Float_UnmarshalYAML Y n) v0 = call (Float_UnmarshalYAML Y n) v1) /\
  (forall x v0 v1, call (Bool_Scan U x) v0 = call (Bool_Scan U x) v1) /\
  (forall x v0 v1, call (Int_Scan x) v0 = call (Int_Scan x) v1) /\
  (forall x v0 v1, call (Float_Scan x) v0 = call (Float_Scan x) v1) /\
  call (Bool_UnmarshalJSON U Json.JNull) true = (None, {| recv := false; logs := [] |}).
Proof.
  split; [| split; [| split; [| split; [| split; [| split; [| split; [| split; [| split]]]]]]]];
    try reflexivity; intros d v0 v1.
  - unfold Bool_UnmarshalJSON. destruct d; cbn; try reflexivity.
    destruct (parseBool U s) as [b [e |]]; reflexivity.
  - unfold Int_UnmarshalJSON. destruct d; cbn; try reflexivity.
    + destruct (Strconv.ParseInt lit) as [n [e |]]; reflexivity.
    + destruct (Strconv.Atoi s) as [n [e |]]; reflexivity.
  - unfold Float_UnmarshalJSON. destruct d; cbn; try reflexivity.
    + destruct (Atof.ParseFloat lit) as [f [e |]]; reflexivity.
    + destruct (Atof.ParseFloat s) as [f [e |]]; reflexivity.
  - unfold Bool_UnmarshalYAML.
    destruct (Yaml.Decode_bool Y d); cbn; try reflexivity.
    destruct (Yaml.Decode_string Y d) as [s |]; cbn; try reflexivity.
    destruct (parseBool U s) as [b [e' |]]; reflexivity.
  - unfold Int_UnmarshalYAML.
    destruct (Yaml.Decode_int Y d); cbn; try reflexivity.
    destruct (Yaml.Decode_string Y d) as [s |]; cbn; try reflexivity.
    destruct (Strconv.Atoi s) as [b [e' |]]; reflexivity.
  - unfold Float_UnmarshalYAML.
    destruct (Yaml.Decode_float64 Y d); cbn; try reflexivity.
    destruct (Yaml.Decode_string Y d) as [s |]; cbn; try reflexivity.
    destruct (Atof.ParseFloat s) as [b [e' |]]; reflexivity.
  - unfold Bool_Scan. destruct d; cbn; try reflexivity.
    destruct (parseBool U s) as [b [e |]]; reflexivity.
  - unfold Int_Scan. destruct d; cbn; try reflexivity.
    destruct (Strconv.Atoi s) as [n [e |]]; reflexivity.
  - unfold Float_Scan. destruct d; cbn; try reflexivity.
    destruct (Atof.ParseFloat s) as [f [e |]]; reflexivity.
Qed.

(** X4. What [Value] hands to the database comes back through [Scan]: for
    every [Bool] and every [Float], NaN and the infinities included,
    [Scan] of the value [Value] returns stores the original and logs
    nothing; [Value] itself never fails. *)
Theorem Value_Scan_roundtrip (U : Strings.Unicode) :
  (forall b v0,
     snd (Bool_Value b) = None /\
     adopted b (call (Bool_Scan U (fst (Bool_Value b))) v0)) /\
  (forall f v0,
     snd (Float_Value f) = None /\
     adopted f (call (Float_Scan (fst (Float_Value f))) v0)).
Proof. split; intros; split; reflexivity. Qed.

(** X5. [Int.Value] returns a Go [int], a type [Int.Scan] has no case for:
    handed straight back to [Scan] it leaves 0 and a record about the
    unsupported type [int].  The same number as an [int64] is stored
    as it is. *)
Theorem Int_Value_Scan (i : Int) (v0 : Int) :
  Int_Value i = (AnyInt i, None) /\
  call (Int_Scan (fst (Int_Value i))) v0 =
  (None, {| recv := 0;
            logs := [ {| level := LevelError;
                         message := "unsupported Int value type from database";
                         attrs := [("type", AttrString "int")] |} ] |}) /\
  adopted i (call (Int_Scan (AnyInt64 (Int_GetValue i))) v0).
Proof. repeat split. Qed.

(** X6. The text of a string is read the same way on every channel.  A
    JSON string token and a database string with the same content
    leave the same value, and log a record in the same cases; a YAML
    node that the decoder gives as a string only leaves exactly what
    the JSON string token leaves. *)
Theorem string_channels_agree (U : Strings.Unicode) (Y : Yaml.Host) (s : string) :
  (forall v0 v1,
     recv (snd (call (Bool_Scan U (AnyString s)) v0)) =
     recv (snd (call (Bool_UnmarshalJSON U (Json.JString s)) v1)) /\
     length (logs (snd (call (Bool_Scan U (AnyString s)) v0))) =
     length (logs (snd (call (Bool_UnmarshalJSON U (Json.JString s)) v1)))) /\
  (forall v0 v1,
     recv (snd (call (Int_Scan (AnyString s)) v0)) =
     recv (snd (call (Int_UnmarshalJSON (Json.JString s)) v1)) /\
     length (logs (snd (call (Int_Scan (AnyString s)) v0))) =
     length (logs (snd (call (Int_UnmarshalJSON (Json.JString s)) v1)))) /\
  (forall v0 v1,
     recv (snd (call (Float_Scan (AnyString s)) v0)) =
     recv (snd (call (Float_UnmarshalJSON (Json.JString s)) v1)) /\
     length (logs (snd (call (Float_Scan (AnyString s)) v0))) =
     length (logs (snd (call (Float_UnmarshalJSON (Json.JString s)) v1)))) /\
  (forall n v0 v1 e, Yaml.Decode_bool Y n = Err e -> Yaml.Decode_string Y n = Ok s ->
     call (Bool_UnmarshalYAML U Y n) v0 = call (Bool_UnmarshalJSON U (Json.JString s)) v1) /\
  (forall n v0 v1 e, Yaml.Decode_int Y n = Err e -> Yaml.Decode_string Y n = Ok s ->
     call (Int_UnmarshalYAML Y n) v0 = call (Int_UnmarshalJSON (Json.JString s)) v1) /\
  (forall n v0 v1 e, Yaml.Decode_float64 Y n = Err e -> Yaml.Decode_string Y n = Ok s ->
     call (Float_UnmarshalYAML Y n) v0 = call (Float_UnmarshalJSON (Json.JString s)) v1).
Proof.
  split; [| split; [| split; [| split; [| split]]]].
  - intros v0 v1. unfold Bool_Scan, Bool_UnmarshalJSON. cbn.
    destruct (parseBool U s) as [b [e |]]; split; reflexivity.
  - intros v0 v1. unfold Int_Scan, Int_UnmarshalJSON. cbn.
    destruct (Strconv.Atoi s) as [b [e |]]; split; reflexivity.
  - intros v0 v1. unfold Float_Scan, Float_UnmarshalJSON. cbn.
    destruct (Atof.ParseFloat s) as [b [e |]]; split; reflexivity.
  - intros n v0 v1 e Hb Hs. unfold Bool_UnmarshalYAML, Bool_UnmarshalJSON.
    rewrite Hb, Hs. cbn. destruct (parseBool U s) as [b [e' |]]; reflexivity.
  - intros n v0 v1 e Hb Hs. unfold Int_UnmarshalYAML, Int_UnmarshalJSON.
    rewrite Hb, Hs. cbn. destruct (Strconv.Atoi s) as [b [e' |]]; reflexivity.
  - intros n v0 v1 e Hb Hs. unfold Float_UnmarshalYAML, Float_UnmarshalJSON.
    rewrite Hb, Hs. cbn. destruct (Atof.ParseFloat s) as [b [e' |]]; reflexivity.
Qed.

Lemma string_channels_agree_witness :
  call (Int_UnmarshalYAML yaml_strings "42") 7 =
  call (Int_UnmarshalJSON (Json.JString "42")) 7.
Proof.
  apply (proj1 (proj2 (proj2 (proj2 (proj2
           (string_channels_agree Strings.ascii_only yaml_strings "42")))))
           "42" 7 7 (YamlTypeError [])); reflexivity.
Defined.

(* ===================================================================== *)
(** ** Integers in text *)
(* ===================================================================== *)

Lemma Atoi_cases (s : string) :
  match integer_value s with
  | Some v => if is_int64 v then Strconv.Atoi s = (v, None)
              else snd (Strconv.Atoi s) <> None
  | None => snd (Strconv.Atoi s) <> None
  end.
Proof.
  destruct (integer_value s) as [v |] eqn:Ev.
  - destruct (is_int64 v) eqn:Er.
    + apply Atoi_accepts. split; [exact Ev | exact Er].
    + destruct (Strconv.Atoi s) as [w [e |]] eqn:Ea; [discriminate |].
      apply Atoi_accepts in Ea. destruct Ea as [Ew Hr]. congruence.
  - destruct (Strconv.Atoi s) as [w [e |]] eqn:Ea; [discriminate |].
    apply Atoi_accepts in Ea. destruct Ea as [Ew Hr]. congruence.
Qed.

Lemma ParseInt_cases (s : string) :
  match integer_value s with
  | Some v => if is_int64 v then Strconv.ParseInt s = (v, None)
              else snd (Strconv.ParseInt s) <> None
  | None => snd (Strconv.ParseInt s) <> None
  end.
Proof.
  unfold Strconv.ParseInt.
  destruct (integer_value s) as [v |] eqn:Ev.
  - destruct (is_int64 v) eqn:Er.
    + apply ParseInt_as_accepts. split; [exact Ev | exact Er].
    + destruct (Strconv.ParseInt_as "ParseInt" s) as [w [e |]] eqn:Ea; [discriminate |].
      apply ParseInt_as_accepts in Ea. destruct Ea as [Ew Hr]. congruence.
  - destruct (Strconv.ParseInt_as "ParseInt" s) as [w [e |]] eqn:Ea; [discriminate |].
    apply ParseInt_as_accepts in Ea. destruct Ea as [Ew Hr]. congruence.
Qed.

Lemma Int_UnmarshalJSON_string (s : string) (v0 : Int) :
  call (Int_UnmarshalJSON (Json.JString s)) v0 =
  match Strconv.Atoi s with
  | (v, None) => (None, {| recv := v; logs := [] |})
  | (_, Some e) =>
      (None, {| recv := 0;
                logs := [ {| level := LevelError; message := "invalid Int string value";
                             attrs := [("value", AttrString s); ("error", AttrError e)] |} ] |})
  end.
Proof.
  unfold Int_UnmarshalJSON. cbn. destruct (Strconv.Atoi s) as [v [e |]]; reflexivity.
Qed.

Lemma Int_Scan_string (s : string) (v0 : Int) :
  call (Int_Scan (AnyString s)) v0 =
  match Strconv.Atoi s with
  | (v, None) => (None, {| recv := v; logs := [] |})
  | (_, Some e) =>
      (None, {| recv := 0;
                logs := [ {| level := LevelError; message := "invalid Int value from database";
                             attrs := [("value", AttrString s); ("error", AttrError e)] |} ] |})
  end.
Proof.
  unfold Int_Scan. cbn. destruct (Strconv.Atoi s) as [v [e |]]; reflexivity.
Qed.

Lemma Int_UnmarshalJSON_number (lit : string) (v0 : Int) :
  call (Int_UnmarshalJSON (Json.JNumber lit)) v0 =
  match Strconv.ParseInt lit with
  | (v, None) => (None, {| recv := v; logs := [] |})
  | (_, Some _) =>
      (None, {| recv := 0;
                logs := [ {| level := LevelError;
                             message := "invalid Int value: not an int or string";
                             attrs := [("error", AttrError (JsonUnmarshalTypeError "number" "string"))] |} ] |})
  end.
Proof.
  unfold Int_UnmarshalJSON. cbn. destruct (Strconv.ParseInt lit) as [v [e |]]; reflexivity.
Qed.

(** X7. The strings [Int] takes.  A JSON string token or a database string
    is adopted exactly when it is an optional sign followed by one or
    more decimal digits and the number fits an [int64]; the number is
    then the value stored.  Every other string (empty, with a space, a
    fraction, an exponent, a base prefix or an underscore, or out of
    range) leaves 0 and one record. *)
Theorem Int_string_accepted (s : string) (v0 : Int) :
  match integer_value s with
  | Some v =>
      if is_int64 v then
        adopted v (call (Int_UnmarshalJSON (Json.JString s)) v0) /\
        adopted v (call (Int_Scan (AnyString s)) v0)
      else
        fell_back 0 (call (Int_UnmarshalJSON (Json.JString s)) v0) /\
        fell_back 0 (call (Int_Scan (AnyString s)) v0)
  | None =>
      fell_back 0 (call (Int_UnmarshalJSON (Json.JString s)) v0) /\
      fell_back 0 (call (Int_Scan (AnyString s)) v0)
  end.
Proof.
  pose proof (Atoi_cases s) as H.
  rewrite Int_UnmarshalJSON_string, Int_Scan_string.
  destruct (integer_value s) as [v |]; [destruct (is_int64 v) |].
  - rewrite H. split; reflexivity.
  - destruct (Strconv.Atoi s) as [w [e |]]; [| cbn in H; congruence].
    split; apply fell_back_intro.
  - destruct (Strconv.Atoi s) as [w [e |]]; [| cbn in H; congruence].
    split; apply fell_back_intro.
Qed.

(** X8. The JSON numbers [Int] takes.  A number token is adopted exactly
    when its literal is an integer literal that fits an [int64]; a
    literal with a fraction or an exponent, 1.0 and 1e3 included, or
    one out of range, leaves 0 and one record. *)
Theorem Int_number_accepted (lit : string) (v0 : Int) :
  match integer_value lit with
  | Some v =>
      if is_int64 v then adopted v (call (Int_UnmarshalJSON (Json.JNumber lit)) v0)
      else fell_back 0 (call (Int_UnmarshalJSON (Json.JNumber lit)) v0)
  | None => fell_back 0 (call (Int_UnmarshalJSON (Json.JNumber lit)) v0)
  end.
Proof.
  pose proof (ParseInt_cases lit) as H.
  rewrite Int_UnmarshalJSON_number.
  destruct (integer_value lit) as [v |]; [destruct (is_int64 v) |].
  - rewrite H. reflexivity.
  - destruct (Strconv.ParseInt lit) as [w [e |]]; [| cbn in H; congruence].
    apply fell_back_intro.
  - destruct (Strconv.ParseInt lit) as [w [e |]]; [| cbn in H; congruence].
    apply fell_back_intro.
Qed.

(** X9. A number in quotes is read as the bare number: for every literal,
    the JSON number token and the JSON string token with the same text
    leave the same value in an [Int], and in a [Float], and log a
    record in the same cases. *)
Theorem quoted_number_agrees (lit : string) :
  (forall v0 v1,
     recv (snd (call (Int_UnmarshalJSON (Json.JNumber lit)) v0)) =
     recv (snd (call (Int_UnmarshalJSON (Json.JString lit)) v1)) /\
     length (logs (snd (call (Int_UnmarshalJSON (Json.JNumber lit)) v0))) =
     length (logs (snd (call (Int_UnmarshalJSON (Json.JString lit)) v1)))) /\
  (forall v0 v1,
     recv (snd (call (Float_UnmarshalJSON (Json.JNumber lit)) v0)) =
     recv (snd (call (Float_UnmarshalJSON (Json.JString lit)) v1)) /\
     length (logs (snd (call (Float_UnmarshalJSON (Json.JNumber lit)) v0))) =
     length (logs (snd (call (Float_UnmarshalJSON (Json.JString lit)) v1)))).
Proof.
  split; intros v0 v1.
  - rewrite Int_UnmarshalJSON_number, Int_UnmarshalJSON_string.
    pose proof (Atoi_cases lit) as Ha. pose proof (ParseInt_cases lit) as Hp.
    destruct (integer_value lit) as [v |]; [destruct (is_int64 v) |].
    + rewrite Ha, Hp. split; reflexivity.
    + destruct (Strconv.Atoi lit) as [w [e |]]; [| cbn in Ha; congruence].
      destruct (Strconv.ParseInt lit) as [w' [e' |]]; [| cbn in Hp; congruence].
      split; reflexivity.
    + destruct (Strconv.Atoi lit) as [w [e |]]; [| cbn in Ha; congruence].
      destruct (Strconv.ParseInt lit) as [w' [e' |]]; [| cbn in Hp; congruence].
      split; reflexivity.
  - unfold Float_UnmarshalJSON. cbn.
    destruct (Atof.ParseFloat lit) as [f [e |]]; split; reflexivity.
Qed.

Lemma is_int64_spec (v : Z) : is_int64 v = true <-> - 2 ^ 63 <= v < 2 ^ 63.
Proof. unfold is_int64. rewrite andb_true_iff, Z.leb_le, Z.ltb_lt. tauto. Qed.

Lemma to_int_int64 (f : float64) : is_int64 (Float64.to_int f) = true.
Proof.
  unfold Float64.to_int.
  destruct (Float64.is_finite f); cbn [andb]; [| reflexivity].
  destruct (- 2 ^ 63 <=? Float64.trunc f) eqn:E1; cbn [andb]; [| reflexivity].
  destruct (Float64.trunc f <? 2 ^ 63) eqn:E2; [| reflexivity].
  unfold is_int64. rewrite E1, E2. reflexivity.
Qed.

(** X10. An [Int] stays an [int64].  Whatever JSON token is deserialized,
    the value stored fits 64 bits; so does the value [Scan] stores from
    a raw value that is itself well typed, and the value
    [UnmarshalYAML] stores when the decoder yields [int]s only. *)
Theorem Int_stays_int64 :
  (forall d v0, is_int64 (recv (snd (call (Int_UnmarshalJSON d) v0))) = true) /\
  (forall x v0,
     (forall n, x = AnyInt64 n -> is_int64 n = true) ->
     is_int64 (recv (snd (call (Int_Scan x) v0))) = true) /\
  (forall (Y : Yaml.Host) n v0,
     (forall v, Yaml.Decode_int Y n = Ok v -> is_int64 v = true) ->
     is_int64 (recv (snd (call (Int_UnmarshalYAML Y n) v0))) = true).
Proof.
  assert (HA : forall s, is_int64 (recv (snd (call (Int_Scan (AnyString s)) 0))) = true).
  { intros s. rewrite Int_Scan_string.
    destruct (Strconv.Atoi s) as [w [e |]] eqn:Ea; [reflexivity |].
    apply Atoi_accepts in Ea. apply Ea. }
  split; [| split].
  - intros d v0. destruct d; try reflexivity.
    + rewrite Int_UnmarshalJSON_number.
      destruct (Strconv.ParseInt lit) as [w [e |]] eqn:Ea; [reflexivity |].
      apply ParseInt_as_accepts in Ea. apply Ea.
    + rewrite Int_UnmarshalJSON_string.
      destruct (Strconv.Atoi s) as [w [e |]] eqn:Ea; [reflexivity |].
      apply Atoi_accepts in Ea. apply Ea.
  - intros x v0 Hx. destruct x; try reflexivity.
    + apply (Hx n eq_refl).
    + apply to_int_int64.
    + rewrite Int_Scan_string.
      destruct (Strconv.Atoi s) as [w [e |]] eqn:Ea; [reflexivity |].
      apply Atoi_accepts in Ea. apply Ea.
  - intros Y n v0 Hd. unfold Int_UnmarshalYAML.
    destruct (Yaml.Decode_int Y n) as [v | e]; [exact (Hd v eq_refl) |].
    destruct (Yaml.Decode_string Y n) as [s | e']; [| reflexivity].
    cbn. destruct (Strconv.Atoi s) as [w [e2 |]] eqn:Ea; [reflexivity |].
    apply Atoi_accepts in Ea. apply Ea.
Qed.

Lemma Int_stays_int64_witness :
  is_int64 (recv (snd (call (Int_Scan (AnyInt64 5)) 7))) = true.
Proof.
  apply (proj1 (proj2 Int_stays_int64) (AnyInt64 5) 7).
  intros n H. injection H as <-. reflexivity.
Defined.

Lemma unsigned_value_FormatUint (u : Z) :
  0 <= u -> unsigned_value (Strconv.FormatUint u) = Some u.
Proof.
  intros Hu. apply unsigned_value_Some.
  split; [apply FormatUint_nonempty |].
  split; [apply FormatUint_all_digits; exact Hu |].
  symmetry. apply FormatUint_value. exact Hu.
Qed.

Lemma FormatUint_head (u : Z) :
  0 <= u -> exists c r, Strconv.FormatUint u = String c r /\ Bytes.is_digit c = true.
Proof.
  intros Hu. pose proof (FormatUint_nonempty u) as Hne.
  pose proof (FormatUint_all_digits u Hu) as Hd.
  destruct (Strconv.FormatUint u) as [| c r]; [congruence |].
  cbn [Strconv.all_digits] in Hd. apply andb_true_iff in Hd.
  exists c, r. split; [reflexivity | apply Hd].
Qed.

Lemma integer_value_FormatInt (i : Z) : integer_value (Strconv.FormatInt i) = Some i.
Proof.
  unfold Strconv.FormatInt. destruct (Z.ltb_spec i 0) as [Hneg | Hpos].
  - cbn [integer_value]. change (Bytes.same "-" "+") with false.
    change (Bytes.same "-" "-") with true. cbn iota.
    rewrite unsigned_value_FormatUint by lia. cbn. f_equal. lia.
  - destruct (FormatUint_head i Hpos) as [c [r [E Hc]]].
    pose proof (unsigned_value_FormatUint i Hpos) as Hv. rewrite E in *.
    cbn [integer_value]. destruct (digit_not_sign c Hc) as [-> ->]. exact Hv.
Qed.

(** X11. An integer written as text comes back.  For every [int64] [i], the
    decimal text of [i] in a JSON string token or in a database string
    is adopted as [i]: nothing is logged and the receiver holds [i]. *)
Theorem Int_text_roundtrip (i : Z) (v0 : Int) :
  is_int64 i = true ->
  adopted i (call (Int_UnmarshalJSON (Json.JString (Strconv.FormatInt i))) v0) /\
  adopted i (call (Int_Scan (AnyString (Strconv.FormatInt i))) v0).
Proof.
  intros Hi. rewrite Int_UnmarshalJSON_string, Int_Scan_string.
  assert (E : Strconv.Atoi (Strconv.FormatInt i) = (i, None)).
  { apply Atoi_accepts. split; [apply integer_value_FormatInt | exact Hi]. }
  rewrite E. split; reflexivity.
Qed.

Lemma Int_text_roundtrip_witness :
  adopted (- 2 ^ 63) (call (Int_UnmarshalJSON (Json.JString (Strconv.FormatInt (- 2 ^ 63)))) 7) /\
  adopted (- 2 ^ 63) (call (Int_Scan (AnyString (Strconv.FormatInt (- 2 ^ 63)))) 7).
Proof. apply (Int_text_roundtrip (- 2 ^ 63) 7). reflexivity. Defined.

(** X12. What [Int] writes to JSON is a JSON integer literal that denotes
    the value: 0 is written 0, a positive value as digits that start
    with a digit other than 0, a negative value as a minus sign and
    such digits; there is never a plus sign, a leading zero, a
    fraction or an exponent. *)
Theorem Int_MarshalJSON_literal (i : Int) :
  exists lit,
    Int_MarshalJSON i = Ok (Json.JNumber lit) /\
    integer_value lit = Some i /\
    (i = 0 -> lit = "0") /\
    (0 < i -> leading lit) /\
    (i < 0 -> exists ds, lit = String "-" ds /\ leading ds).
Proof.
  exists (Strconv.FormatInt i). split; [reflexivity |].
  split; [apply integer_value_FormatInt |].
  unfold Strconv.FormatInt. split; [| split].
  - intros ->. reflexivity.
  - intros Hi. destruct (Z.ltb_spec i 0); [lia |]. apply FormatUint_leading. exact Hi.
  - intros Hi. destruct (Z.ltb_spec i 0); [| lia].
    eexists. split; [reflexivity |]. apply FormatUint_leading. lia.
Qed.

(* ===================================================================== *)
(** ** White space in the text of a number *)
(* ===================================================================== *)

Lemma space_byte_cases (c : ascii) :
  Strings.asciiSpace c = true ->
  c = "009"%char \/ c = "010"%char \/ c = "011"%char \/ c = "012"%char \/
  c = "013"%char \/ c = " "%char.
Proof.
  intros H.
  assert (Hc : 9 <= Bytes.code c <= 13 \/ Bytes.code c = 32).
  { unfold Strings.asciiSpace, Bytes.in_range, Bytes.same in H.
    change (Bytes.code "009") with 9 in H. change (Bytes.code "013") with 13 in H.
    change (Bytes.code " ") with 32 in H.
    apply orb_true_iff in H. destruct H as [H | H].
    - apply andb_true_iff in H. rewrite !Z.leb_le in H. left. lia.
    - apply Z.eqb_eq in H. right. exact H. }
  rewrite <- (of_code_code c).
  assert (E : Bytes.code c = 9 \/ Bytes.code c = 10 \/ Bytes.code c = 11 \/
              Bytes.code c = 12 \/ Bytes.code c = 13 \/ Bytes.code c = 32) by lia.
  destruct E as [E | [E | [E | [E | [E | E]]]]]; rewrite E; tauto.
Qed.

(** No byte that a number parser steps over is white space. *)
Lemma space_byte (c : ascii) :
  Strings.asciiSpace c = true ->
  Bytes.is_digit c = false /\
  Bytes.same c "+" = false /\ Bytes.same c "-" = false /\
  Bytes.same c "_" = false /\ Bytes.same c "." = false /\
  Bytes.same c "0" = false /\
  Bytes.in_range "a" "f" (Bytes.lower c) = false /\
  Bytes.same (Bytes.lower c) "x" = false /\
  Bytes.same (Bytes.lower c) "e" = false /\
  Bytes.same (Bytes.lower c) "p" = false /\
  Bytes.in_range "A" "Z" c = false.
Proof.
  intros H. apply space_byte_cases in H.
  destruct H as [-> | [-> | [-> | [-> | [-> | ->]]]]]; vm_compute; tauto.
Qed.

Lemma no_space_append (a b : string) : no_space (a ++ b) = no_space a && no_space b.
Proof.
  induction a as [| c a IH]; [reflexivity |].
  cbn [append no_space]. rewrite IH. apply andb_assoc.
Qed.

Lemma commonPrefixLen_bounds (s p : string) :
  0 <= Atof.commonPrefixLenIgnoreCase s p <= Z.of_nat (String.length s).
Proof.
  revert p. induction s as [| c s IH]; intros p; [cbn; lia |].
  destruct p as [| q p]; [cbn [Atof.commonPrefixLenIgnoreCase]; lia |].
  cbn [Atof.commonPrefixLenIgnoreCase String.length]. rewrite Nat2Z.inj_succ.
  specialize (IH p). destruct (Bytes.same _ q); lia.
Qed.

Lemma commonPrefixLen_full (s p : string) :
  no_space p = true ->
  Atof.commonPrefixLenIgnoreCase s p = Z.of_nat (String.length s) ->
  no_space s = true.
Proof.
  revert p. induction s as [| c s IH]; intros p Hp H; [reflexivity |].
  destruct p as [| q p]; [cbn in H; lia |].
  cbn [Atof.commonPrefixLenIgnoreCase String.length] in H. rewrite Nat2Z.inj_succ in H.
  cbn [no_space] in Hp. apply andb_true_iff in Hp. destruct Hp as [Hq Hp].
  destruct (Bytes.same _ q) eqn:Es.
  2:{ pose proof (Nat2Z.is_nonneg (String.length s)). lia. }
  cbn [no_space]. rewrite (IH p Hp) by lia. rewrite andb_true_r.
  destruct (Strings.asciiSpace c) eqn:Ec; [| reflexivity].
  exfalso. destruct (space_byte c Ec) as (_ & _ & _ & _ & _ & _ & _ & _ & _ & _ & Hu).
  rewrite Hu in Es. apply same_eq in Es. subst q. rewrite Ec in Hq. discriminate.
Qed.

Lemma sign_no_space (c : ascii) :
  Bytes.same c "+" || Bytes.same c "-" = true -> Strings.asciiSpace c = false.
Proof.
  intros H. destruct (Strings.asciiSpace c) eqn:Ec; [| reflexivity].
  destruct (space_byte c Ec) as (_ & Hp & Hm & _). rewrite Hp, Hm in H. discriminate.
Qed.

(** [special] reads the whole of a string only when it has no white
    space. *)
Lemma special_no_space (s : string) (f : float64) :
  Atof.special s = Some (f, Z.of_nat (String.length s)) -> no_space s = true.
Proof.
  destruct s as [| c r]; [discriminate |].
  assert (Hinf : forall neg nsign t,
             (let n := Atof.commonPrefixLenIgnoreCase t "infinity" in
              let n := if (3 <? n) && (n <? 8) then 3 else n in
              if (n =? 3) || (n =? 8) then Some (Float64.Inf neg, nsign + n) else None)
             = Some (f, nsign + Z.of_nat (String.length t)) ->
             no_space t = true).
  { intros neg nsign t. cbv zeta.
    pose proof (commonPrefixLen_bounds t "infinity") as Hb.
    destruct ((3 <? _) && (_ <? 8)) eqn:Emid.
    - change (3 =? 3) with true. cbn [orb]. intros H. injection H as _ H.
      apply andb_true_iff in Emid. destruct Emid as [Hlo _]. apply Z.ltb_lt in Hlo. lia.
    - destruct ((_ =? 3) || (_ =? 8)); [| discriminate].
      intros H. injection H as _ H.
      apply (commonPrefixLen_full t "infinity"); [reflexivity | lia]. }
  unfold Atof.special. cbn [String.length]. rewrite Nat2Z.inj_succ.
  destruct (Bytes.same c "+" || Bytes.same c "-") eqn:Es.
  - intros H. cbn [no_space]. rewrite (sign_no_space c Es). cbn [negb andb].
    apply (Hinf (Bytes.same c "-") 1 r).
    transitivity (Some (f, Z.succ (Z.of_nat (String.length r))));
      [exact H | f_equal; f_equal; lia].
  - destruct (Bytes.same c "i" || Bytes.same c "I").
    + intros H. apply (Hinf false 0 (String c r)).
      transitivity (Some (f, Z.succ (Z.of_nat (String.length r)))); [exact H |].
      cbn [String.length]. rewrite Nat2Z.inj_succ. reflexivity.
    + destruct (Bytes.same c "n" || Bytes.same c "N"); [| discriminate].
      destruct (_ =? 3) eqn:E3; [| discriminate].
      apply Z.eqb_eq in E3. intros H. injection H as _ H.
      apply (commonPrefixLen_full (String c r) "nan"); [reflexivity |].
      cbn [String.length]. rewrite Nat2Z.inj_succ. lia.
Qed.

(** The digit loop of [readFloat] steps over no white space. *)
Lemma read_digits_no_space (hex : bool) (s : string) (st st' : Atof.mantissa) (s3 : string) :
  Atof.read_digits hex s st = (st', s3) ->
  exists pre, s = pre ++ s3 /\ no_space pre = true.
Proof.
  revert st. induction s as [| c s IH]; intros st H.
  - cbn in H. injection H as _ <-. exists EmptyString. split; reflexivity.
  - assert (Hstop : Atof.read_digits hex (String c s) st = (st, String c s) ->
                    exists pre, String c s = pre ++ s3 /\ no_space pre = true).
    { intros E. rewrite E in H. injection H as _ <-. exists EmptyString. split; reflexivity. }
    assert (Hstep : forall st1, Atof.read_digits hex s st1 = (st', s3) ->
                      Strings.asciiSpace c = false ->
                      exists pre, String c s = pre ++ s3 /\ no_space pre = true).
    { intros st1 E Hc. destruct (IH st1 E) as [pre [-> Hp]].
      exists (String c pre). cbn [append no_space]. rewrite Hc, Hp. split; reflexivity. }
    destruct (Strings.asciiSpace c) eqn:Ec.
    + apply Hstop. cbn [Atof.read_digits].
      destruct (space_byte c Ec) as (Hd & _ & _ & Hu & Hdot & _ & Hhex & _).
      unfold Bytes.is_digit in Hd. rewrite Hu, Hdot, Hd, Hhex, andb_false_r. reflexivity.
    + cbn [Atof.read_digits] in H.
      destruct (Bytes.same c "_"); [eapply Hstep; [exact H | reflexivity] |].
      destruct (Bytes.same c ".").
      { destruct (Atof.sawdot st).
        - injection H as _ <-. exists EmptyString. split; reflexivity.
        - eapply Hstep; [exact H | reflexivity]. }
      destruct (Bytes.in_range "0" "9" c).
      { destruct (Bytes.same c "0" && (Atof.nd st =? 0));
          (eapply Hstep; [exact H | reflexivity]). }
      destruct (hex && Bytes.in_range "a" "f" (Bytes.lower c)).
      { eapply Hstep; [exact H | reflexivity]. }
      injection H as _ <-. exists EmptyString. split; reflexivity.
Qed.

Lemma read_exp_digits_no_space (s : string) (e : Z) (us : bool) (e' : Z) (us' : bool) (s5 : string) :
  Atof.read_exp_digits s e us = (e', us', s5) ->
  exists pre, s = pre ++ s5 /\ no_space pre = true.
Proof.
  revert e us. induction s as [| c s IH]; intros e us H.
  - cbn in H. injection H as _ _ <-. exists EmptyString. split; reflexivity.
  - cbn [Atof.read_exp_digits] in H.
    destruct (Strings.asciiSpace c) eqn:Ec.
    + destruct (space_byte c Ec) as (Hd & _ & _ & Hu & _).
      unfold Bytes.is_digit in Hd. rewrite Hu, Hd in H.
      injection H as _ _ <-. exists EmptyString. split; reflexivity.
    + assert (Hstep : forall e1 us1, Atof.read_exp_digits s e1 us1 = (e', us', s5) ->
                        exists pre, String c s = pre ++ s5 /\ no_space pre = true).
      { intros e1 us1 E. destruct (IH e1 us1 E) as [pre [-> Hp]].
        exists (String c pre). cbn [append no_space]. rewrite Ec, Hp. split; reflexivity. }
      destruct (Bytes.same c "_"); [eapply Hstep; exact H |].
      destruct (Bytes.in_range "0" "9" c); [eapply Hstep; exact H |].
      injection H as _ _ <-. exists EmptyString. split; reflexivity.
Qed.

Lemma read_exponent_no_space (hex : bool) (s : string) (dp : Z) (us : bool)
      (dp' : Z) (us' : bool) (s' : string) :
  Atof.read_exponent hex s dp us = Some (dp', us', s') ->
  exists pre, s = pre ++ s' /\ no_space pre = true.
Proof.
  unfold Atof.read_exponent. intros H.
  assert (Hnone : Some (dp, us, s) = Some (dp', us', s') ->
                  exists pre, s = pre ++ s' /\ no_space pre = true).
  { intros E. injection E as _ _ <-. exists EmptyString. split; reflexivity. }
  destruct s as [| ce r3]; [destruct hex; [discriminate | exact (Hnone H)] |].
  destruct (Bytes.same (Bytes.lower ce) (if hex then "p"%char else "e"%char)) eqn:Ee.
  2:{ destruct hex; [discriminate | exact (Hnone H)]. }
  assert (Hce : Strings.asciiSpace ce = false).
  { destruct (Strings.asciiSpace ce) eqn:Ec; [| reflexivity].
    destruct (space_byte ce Ec) as (_ & _ & _ & _ & _ & _ & _ & _ & He & Hp & _).
    destruct hex; congruence. }
  destruct r3 as [| cs r4]; [discriminate |].
  destruct (Bytes.same cs "+" || Bytes.same cs "-") eqn:Es.
  - destruct r4 as [| cd r5]; [discriminate |].
    destruct (Bytes.in_range "0" "9" cd); [| discriminate].
    destruct (Atof.read_exp_digits (String cd r5) 0 us) as [[e1 us1] s5] eqn:Er.
    injection H as _ _ <-.
    destruct (read_exp_digits_no_space _ _ _ _ _ _ Er) as [pre [E Hp]].
    exists (String ce (String cs pre)). cbn [append no_space].
    rewrite Hce, (sign_no_space cs Es), Hp, <- E. split; reflexivity.
  - destruct (Bytes.in_range "0" "9" cs); [| discriminate].
    destruct (Atof.read_exp_digits (String cs r4) 0 us) as [[e1 us1] s5] eqn:Er.
    injection H as _ _ <-.
    destruct (read_exp_digits_no_space _ _ _ _ _ _ Er) as [pre [E Hp]].
    exists (String ce pre). cbn [append no_space].
    rewrite Hce, Hp, <- E. split; reflexivity.
Qed.

Lemma read_sign_no_space (s : string) (neg : bool) (s1 : string) :
  Atof.read_sign s = (neg, s1) -> exists pre, s = pre ++ s1 /\ no_space pre = true.
Proof.
  unfold Atof.read_sign. destruct s as [| c r].
  - intros H. injection H as _ <-. exists EmptyString. split; reflexivity.
  - destruct (Bytes.same c "+") eqn:Ep.
    + intros H. injection H as _ <-. exists (String c EmptyString).
      cbn [append no_space]. rewrite sign_no_space by (rewrite Ep; reflexivity).
      split; reflexivity.
    + destruct (Bytes.same c "-") eqn:Em.
      * intros H. injection H as _ <-. exists (String c EmptyString).
        cbn [append no_space]. rewrite sign_no_space by (rewrite Em; apply orb_true_r).
        split; reflexivity.
      * intros H. injection H as _ <-. exists EmptyString. split; reflexivity.
Qed.

Lemma read_base_no_space (s : string) (hex : bool) (s2 : string) :
  Atof.read_base s = (hex, s2) -> exists pre, s = pre ++ s2 /\ no_space pre = true.
Proof.
  unfold Atof.read_base. intros H.
  assert (Hnone : (false, s) = (hex, s2) ->
                  exists pre, s = pre ++ s2 /\ no_space pre = true).
  { intros E. injection E as _ <-. exists EmptyString. split; reflexivity. }
  destruct s as [| c0 [| c1 [| c2 r2]]]; try exact (Hnone H).
  destruct (Bytes.same c0 "0" && Bytes.same (Bytes.lower c1) "x") eqn:E; [| exact (Hnone H)].
  apply andb_true_iff in E. destruct E as [E0 E1].
  injection H as _ <-. exists (String c0 (String c1 EmptyString)).
  cbn [append no_space].
  assert (H0 : Strings.asciiSpace c0 = false).
  { destruct (Strings.asciiSpace c0) eqn:Ec; [| reflexivity].
    destruct (space_byte c0 Ec) as (_ & _ & _ & _ & _ & Hz & _). congruence. }
  assert (H1 : Strings.asciiSpace c1 = false).
  { destruct (Strings.asciiSpace c1) eqn:Ec; [| reflexivity].
    destruct (space_byte c1 Ec) as (_ & _ & _ & _ & _ & _ & _ & Hx & _). congruence. }
  rewrite H0, H1. split; reflexivity.
Qed.

(** [readFloat] reads the whole of a string only when it has no white
    space. *)
Lemma readFloat_no_space (s : string) (n : Atof.number) :
  Atof.readFloat s = Some n -> Atof.rest n = "" -> no_space s = true.
Proof.
  unfold Atof.readFloat. destruct s as [| c r]; [discriminate |].
  generalize (String c r). clear c r. intros s.
  destruct (Atof.read_sign s) as [neg s1] eqn:E1.
  destruct (Atof.read_base s1) as [hex s2] eqn:E2.
  destruct (Atof.read_digits hex s2 Atof.mantissa0) as [st s3] eqn:E3.
  destruct (negb (Atof.sawdigits st)); [discriminate |].
  destruct (Atof.read_exponent hex s3 _ _) as [[[dp' us] s'] |] eqn:E4; [| discriminate].
  intros H Hr. injection H as <-. cbn [Atof.rest] in Hr. subst s'.
  destruct (read_sign_no_space _ _ _ E1) as [p1 [-> H1]].
  destruct (read_base_no_space _ _ _ E2) as [p2 [-> H2]].
  destruct (read_digits_no_space _ _ _ _ _ E3) as [p3 [-> H3]].
  destruct (read_exponent_no_space _ _ _ _ _ _ _ E4) as [p4 [-> H4]].
  rewrite !no_space_append, H1, H2, H3, H4. reflexivity.
Qed.

(** [ParseFloat] accepts no text with white space in it. *)
Lemma ParseFloat_no_space (s : string) (f : float64) :
  Atof.ParseFloat s = (f, None) -> no_space s = true.
Proof.
  unfold Atof.ParseFloat.
  destruct (Atof.special s) as [[g n] |] eqn:Es.
  - destruct (Z.eqb_spec n (Z.of_nat (String.length s))) as [-> | Hne]; [| discriminate].
    intros _. exact (special_no_space s g Es).
  - destruct (Atof.readFloat s) as [n |] eqn:Er; [| discriminate].
    destruct (Atof.rest n) eqn:Erest; [| discriminate].
    intros _. exact (readFloat_no_space s n Er Erest).
Qed.

Lemma digits_no_space (s : string) : Strconv.all_digits s = true -> no_space s = true.
Proof.
  induction s as [| c s IH]; [reflexivity |].
  cbn [Strconv.all_digits no_space]. intros H. apply andb_true_iff in H.
  destruct H as [Hc Hs]. rewrite (IH Hs), andb_true_r.
  destruct (Strings.asciiSpace c) eqn:Ec; [| reflexivity].
  destruct (space_byte c Ec) as (Hd & _). congruence.
Qed.

Lemma integer_value_no_space (s : string) (v : Z) :
  integer_value s = Some v -> no_space s = true.
Proof.
  assert (Hu : forall t w, unsigned_value t = Some w -> no_space t = true).
  { intros t w H. apply unsigned_value_Some in H. apply digits_no_space, H. }
  destruct s as [| c r]; [discriminate |]. cbn [integer_value].
  destruct (Bytes.same c "+") eqn:Ep.
  - intros H. cbn [no_space]. rewrite sign_no_space by (rewrite Ep; reflexivity).
    exact (Hu r v H).
  - destruct (Bytes.same c "-") eqn:Em.
    + intros H. cbn [no_space]. rewrite sign_no_space by (rewrite Em; apply orb_true_r).
      destruct (unsigned_value r) as [w |] eqn:Ew; [| discriminate]. exact (Hu r w Ew).
    + intros H. exact (Hu _ v H).
Qed.

Lemma Float_UnmarshalJSON_string (s : string) (v0 : Float) :
  call (Float_UnmarshalJSON (Json.JString s)) v0 =
  match Atof.ParseFloat s with
  | (v, None) => (None, {| recv := v; logs := [] |})
  | (_, Some e) =>
      (None, {| recv := Float_zero;
                logs := [ {| level := LevelError; message := "invalid Float string value";
                             attrs := [("value", AttrString s); ("error", AttrError e)] |} ] |})
  end.
Proof.
  unfold Float_UnmarshalJSON. cbn. destruct (Atof.ParseFloat s) as [v [e |]]; reflexivity.
Qed.

Lemma Float_Scan_string (s : string) (v0 : Float) :
  call (Float_Scan (AnyString s)) v0 =
  match Atof.ParseFloat s with
  | (v, None) => (None, {| recv := v; logs := [] |})
  | (_, Some e) =>
      (None, {| recv := Float_zero;
                logs := [ {| level := LevelError; message := "invalid Float value from database";
                             attrs := [("value", AttrString s); ("error", AttrError e)] |} ] |})
  end.
Proof.
  unfold Float_Scan. cbn. destruct (Atof.ParseFloat s) as [v [e |]]; reflexivity.
Qed.

(** X13. The numeric wrappers do not trim.  A string with an ASCII
    white-space byte anywhere in it (in front, behind or inside) is
    never a number: as a JSON string token or as a database string it
    leaves 0 and one record in an [Int], and in a [Float]. *)
Theorem numbers_refuse_space (s : string) (v0 : Int) (w0 : Float) :
  no_space s = false ->
  fell_back 0 (call (Int_UnmarshalJSON (Json.JString s)) v0) /\
  fell_back 0 (call (Int_Scan (AnyString s)) v0) /\
  fell_back Float_zero (call (Float_UnmarshalJSON (Json.JString s)) w0) /\
  fell_back Float_zero (call (Float_Scan (AnyString s)) w0).
Proof.
  intros Hs.
  rewrite Int_UnmarshalJSON_string, Int_Scan_string,
    Float_UnmarshalJSON_string, Float_Scan_string.
  destruct (Strconv.Atoi s) as [v [e |]] eqn:Ea.
  2:{ apply Atoi_accepts in Ea. destruct Ea as [Ev _].
      apply integer_value_no_space in Ev. congruence. }
  destruct (Atof.ParseFloat s) as [f [e' |]] eqn:Ef.
  2:{ apply ParseFloat_no_space in Ef. congruence. }
  repeat split; try apply fell_back_intro; eexists; split; reflexivity.
Qed.

Lemma numbers_refuse_space_witness :
  fell_back 0 (call (Int_UnmarshalJSON (Json.JString "42 ")) 7) /\
  fell_back 0 (call (Int_Scan (AnyString "42 ")) 7) /\
  fell_back Float_zero (call (Float_UnmarshalJSON (Json.JString "42 ")) float_42) /\
  fell_back Float_zero (call (Float_Scan (AnyString "42 ")) float_42).
Proof. apply (numbers_refuse_space "42 " 7 float_42). reflexivity. Defined.

(* ===================================================================== *)
(** ** parseBool: white space and letter case *)
(* ===================================================================== *)

Lemma space_is_ascii (c : ascii) :
  Strings.asciiSpace c = true -> (Bytes.RuneSelf <=? Bytes.code c) = false.
Proof.
  intros H. apply space_byte_cases in H.
  destruct H as [-> | [-> | [-> | [-> | [-> | ->]]]]]; reflexivity.
Qed.

(** [TrimSpace] drops ASCII white space in front of any string. *)
Lemma TrimSpace_left (U : Strings.Unicode) (l t : string) :
  all_space l = true -> Strings.TrimSpace U (l ++ t) = Strings.TrimSpace U t.
Proof.
  induction l as [| c l IH]; intros Hl; [reflexivity |].
  cbn [all_space] in Hl. apply andb_true_iff in Hl. destruct Hl as [Hc Hl].
  cbn [append Strings.TrimSpace]. rewrite (space_is_ascii c Hc), Hc. exact (IH Hl).
Qed.

Lemma trim_stop_left (sp t : string) :
  all_space sp = true -> Strings.trim_stop (sp ++ t) = Strings.trim_stop t.
Proof.
  induction sp as [| c sp IH]; intros Hs; [reflexivity |].
  cbn [all_space] in Hs. apply andb_true_iff in Hs. destruct Hs as [Hc Hs].
  cbn [append Strings.trim_stop]. rewrite (space_is_ascii c Hc), Hc. exact (IH Hs).
Qed.

(** [TrimSpace] drops ASCII white space behind an ASCII string. *)
Lemma TrimSpace_right (U : Strings.Unicode) (s r : string) :
  Strings.isASCII s = true -> all_space r = true ->
  Strings.TrimSpace U (s ++ r) = Strings.TrimSpace U s.
Proof.
  intros Hs Hr. induction s as [| c s IH].
  - cbn [append]. pose proof (TrimSpace_left U r "" Hr) as E.
    rewrite append_nil_r in E. exact E.
  - destruct (isASCII_head c s Hs) as [Hc Hs'].
    cbn [append Strings.TrimSpace]. rewrite Hc.
    destruct (Strings.asciiSpace c); [exact (IH Hs') |].
    change (String c (s ++ r)) with (String c s ++ r).
    rewrite rev_append.
    rewrite trim_stop_left; [reflexivity |].
    rewrite all_space_rev. exact Hr.
Qed.

(** X14. White space around an ASCII word does not change what [parseBool]
    makes of it, the value and the error alike. *)
Theorem parseBool_ignores_space (U : Strings.Unicode) (l s r : string) :
  all_space l = true -> all_space r = true -> Strings.isASCII s = true ->
  parseBool U (l ++ s ++ r) = parseBool U s.
Proof.
  intros Hl Hr Hs. unfold parseBool.
  rewrite TrimSpace_left by exact Hl. rewrite TrimSpace_right by assumption.
  reflexivity.
Qed.

(** Lower-casing an ASCII byte keeps it ASCII and keeps what it is to
    [TrimSpace]. *)
Lemma lower_byte (c : ascii) :
  (Bytes.RuneSelf <=? Bytes.code c) = false ->
  let c' := if Bytes.in_range "A" "Z" c then Bytes.of_code (Bytes.code c + 32) else c in
  (Bytes.RuneSelf <=? Bytes.code c') = false /\
  Strings.asciiSpace c' = Strings.asciiSpace c /\
  Bytes.in_range "A" "Z" c' = false.
Proof.
  intros Hc. cbv zeta. apply Z.leb_gt in Hc. unfold Bytes.RuneSelf in *.
  pose proof (code_range c) as Hr.
  destruct (Bytes.in_range "A" "Z" c) eqn:Eu.
  - unfold Bytes.in_range in Eu. apply andb_true_iff in Eu. rewrite !Z.leb_le in Eu.
    change (Bytes.code "A") with 65 in Eu. change (Bytes.code "Z") with 90 in Eu.
    assert (E : Bytes.code (Bytes.of_code (Bytes.code c + 32)) = Bytes.code c + 32)
      by (apply code_of_code; lia).
    unfold Strings.asciiSpace, Bytes.in_range, Bytes.same. rewrite E.
    change (Bytes.code "009") with 9. change (Bytes.code "013") with 13.
    change (Bytes.code " ") with 32. change (Bytes.code "A") with 65.
    change (Bytes.code "Z") with 90.
    repeat split.
    + apply Z.leb_gt. lia.
    + destruct (Z.leb_spec 9 (Bytes.code c + 32)), (Z.leb_spec (Bytes.code c + 32) 13),
        (Z.eqb_spec (Bytes.code c + 32) 32), (Z.leb_spec 9 (Bytes.code c)),
        (Z.leb_spec (Bytes.code c) 13), (Z.eqb_spec (Bytes.code c) 32);
        cbn; try reflexivity; lia.
    + destruct (Z.leb_spec 65 (Bytes.code c + 32)), (Z.leb_spec (Bytes.code c + 32) 90);
        cbn; try reflexivity; lia.
  - repeat split; [apply Z.leb_gt; lia | exact Eu].
Qed.

Lemma lower_ascii_append (a b : string) :
  Strings.lower_ascii (a ++ b) = Strings.lower_ascii a ++ Strings.lower_ascii b.
Proof.
  induction a as [| c a IH]; [reflexivity |].
  cbn [append Strings.lower_ascii]. rewrite IH. reflexivity.
Qed.

Lemma lower_ascii_rev (s : string) :
  Strings.lower_ascii (Strings.rev s) = Strings.rev (Strings.lower_ascii s).
Proof.
  induction s as [| c s IH]; [reflexivity |].
  cbn [Strings.lower_ascii]. rewrite !rev_cons, lower_ascii_append, IH. reflexivity.
Qed.

Lemma isASCII_lower (s : string) :
  Strings.isASCII s = true -> Strings.isASCII (Strings.lower_ascii s) = true.
Proof.
  induction s as [| c s IH]; [reflexivity |]. intros H.
  destruct (isASCII_head c s H) as [Hc Hs].
  cbn [Strings.lower_ascii Strings.isASCII].
  destruct (lower_byte c Hc) as [H1 _]. apply Z.leb_gt in H1.
  apply andb_true_iff. split; [apply Z.ltb_lt; exact H1 | exact (IH Hs)].
Qed.

Lemma hasUpper_lower (s : string) :
  Strings.isASCII s = true -> Strings.hasUpper (Strings.lower_ascii s) = false.
Proof.
  induction s as [| c s IH]; [reflexivity |]. intros H.
  destruct (isASCII_head c s H) as [Hc Hs].
  cbn [Strings.lower_ascii Strings.hasUpper].
  destruct (lower_byte c Hc) as [_ [_ H3]]. rewrite H3, (IH Hs). reflexivity.
Qed.

Lemma trim_stop_lower (r : string) :
  Strings.isASCII r = true ->
  Strings.trim_stop (Strings.lower_ascii r) =
  (fst (Strings.trim_stop r), Strings.lower_ascii (snd (Strings.trim_stop r))).
Proof.
  induction r as [| c r IH]; [reflexivity |]. intros H.
  destruct (isASCII_head c r H) as [Hc Hr].
  cbn [Strings.lower_ascii Strings.trim_stop].
  destruct (lower_byte c Hc) as [H1 [H2 _]]. rewrite H1, H2, Hc.
  destruct (Strings.asciiSpace c); [exact (IH Hr) | reflexivity].
Qed.

(** On ASCII text, trimming and lower-casing commute. *)
Lemma TrimSpace_lower (U : Strings.Unicode) (s : string) :
  Strings.isASCII s = true ->
  Strings.TrimSpace U (Strings.lower_ascii s) = Strings.lower_ascii (Strings.TrimSpace U s).
Proof.
  induction s as [| c s IH]; [reflexivity |]. intros H.
  destruct (isASCII_head c s H) as [Hc Hs].
  cbn [Strings.lower_ascii Strings.TrimSpace].
  destruct (lower_byte c Hc) as [H1 [H2 _]]. rewrite H1, H2, Hc.
  destruct (Strings.asciiSpace c); [exact (IH Hs) |].
  change (String (if Bytes.in_range "A" "Z" c then Bytes.of_code (Bytes.code c + 32) else c)
                 (Strings.lower_ascii s))
    with (Strings.lower_ascii (String c s)).
  rewrite <- lower_ascii_rev.
  assert (Har : Strings.isASCII (Strings.rev (String c s)) = true)
    by (rewrite isASCII_rev; exact H).
  rewrite (trim_stop_lower _ Har).
  destruct (trim_stop_ascii _ Har) as [sp [t [_ [_ [Ht _]]]]]. rewrite Ht.
  cbn [fst snd]. symmetry. apply lower_ascii_rev.
Qed.

Lemma TrimSpace_isASCII (U : Strings.Unicode) (s : string) :
  Strings.isASCII s = true -> Strings.isASCII (Strings.TrimSpace U s) = true.
Proof.
  intros H. destruct (TrimSpace_ascii U s H) as [l [r [E _]]].
  rewrite E in H. rewrite !isASCII_append in H.
  apply andb_true_iff in H. destruct H as [_ H]. apply andb_true_iff in H. apply H.
Qed.

(** What [parseBool] compares with its table, for ASCII input. *)
Lemma parseBool_normal_form (U : Strings.Unicode) (s : string) :
  Strings.isASCII s = true ->
  Strings.ToLower U (Strings.TrimSpace U s) = Strings.TrimSpace U (Strings.lower_ascii s).
Proof.
  intros H. rewrite ToLower_ascii by (apply TrimSpace_isASCII; exact H).
  symmetry. apply TrimSpace_lower. exact H.
Qed.

(** X15. [parseBool] does not look at letter case: two ASCII strings that
    differ in the case of their letters only get the same value and
    the same error. *)
Theorem parseBool_ignores_case (U : Strings.Unicode) (s t : string) :
  Strings.isASCII s = true -> Strings.isASCII t = true ->
  Strings.lower_ascii s = Strings.lower_ascii t ->
  parseBool U s = parseBool U t.
Proof.
  intros Hs Ht E. unfold parseBool.
  rewrite (parseBool_normal_form U s Hs), (parseBool_normal_form U t Ht), E.
  reflexivity.
Qed.

Lemma parseBool_ignores_space_witness :
  parseBool Strings.ascii_only (String "009" " " ++ "Yes" ++ String "010" "") =
  parseBool Strings.ascii_only "Yes".
Proof.
  apply (parseBool_ignores_space Strings.ascii_only (String "009" " ") "Yes" (String "010" ""));
    reflexivity.
Defined.

Lemma parseBool_ignores_case_witness :
  parseBool Strings.ascii_only " tRuE" = parseBool Strings.ascii_only " TRUE".
Proof. apply (parseBool_ignores_case Strings.ascii_only " tRuE" " TRUE"); reflexivity. Defined.

(* ===================================================================== *)
(** ** Floats in text *)
(* ===================================================================== *)

(** [ParseFloat] reads back what [FormatFloat] writes, for the finite
    values and for NaN and the infinities. *)
Lemma ParseFloat_FormatFloat_any (f : float64) (fmt : Ftoa.verb) :
  Float64.valid f = true -> Atof.ParseFloat (Ftoa.FormatFloat f fmt) = (f, None).
Proof.
  intros Hv. destruct (Float64.is_finite f) eqn:Hf.
  - apply ParseFloat_FormatFloat; assumption.
  - destruct f as [s | [] | | s m e]; try discriminate Hf; vm_compute; reflexivity.
Qed.

(** X16. A float written as text comes back.  The shortest decimal text of
    any [float64], NaN and the infinities included, in any of the
    layouts [e], [f] and [g], is adopted as that value from a JSON
    string token and from a database string; so is the literal that
    [Float.MarshalJSON] writes, put in quotes. *)
Theorem Float_text_roundtrip (f : float64) (fmt : Ftoa.verb) (v0 : Float) :
  Float64.valid f = true ->
  adopted f (call (Float_UnmarshalJSON (Json.JString (Ftoa.FormatFloat f fmt))) v0) /\
  adopted f (call (Float_Scan (AnyString (Ftoa.FormatFloat f fmt))) v0) /\
  (forall lit, Float_MarshalJSON f = Ok (Json.JNumber lit) ->
     adopted f (call (Float_UnmarshalJSON (Json.JString lit)) v0) /\
     adopted f (call (Float_Scan (AnyString lit)) v0)).
Proof.
  intros Hv. rewrite Float_UnmarshalJSON_string, Float_Scan_string.
  rewrite (ParseFloat_FormatFloat_any f fmt Hv).
  split; [reflexivity |]. split; [reflexivity |].
  intros lit Hm. rewrite Float_UnmarshalJSON_string, Float_Scan_string.
  destruct (Float64.is_finite f) eqn:Hf.
  - destruct (Marshal_float64_reads_back f Hv Hf) as [lit' [Hm' Hp]].
    unfold Float_MarshalJSON in Hm. rewrite Hm' in Hm. injection Hm as <-.
    rewrite Hp. split; reflexivity.
  - unfold Float_MarshalJSON, Json.Marshal_float64 in Hm.
    unfold Float64.is_finite in Hf. apply negb_false_iff in Hf.
    rewrite orb_comm in Hf. rewrite Hf in Hm. discriminate.
Qed.

Lemma Float_text_roundtrip_witness :
  Float_MarshalJSON float_3_14 = Ok (Json.JNumber "3.14") /\
  (adopted float_3_14
     (call (Float_UnmarshalJSON (Json.JString (Ftoa.FormatFloat float_3_14 Ftoa.verb_e)))
           Float_zero) /\
   adopted float_3_14
     (call (Float_Scan (AnyString (Ftoa.FormatFloat float_3_14 Ftoa.verb_e))) Float_zero) /\
   adopted float_3_14 (call (Float_UnmarshalJSON (Json.JString "3.14")) Float_zero) /\
   adopted float_3_14 (call (Float_Scan (AnyString "3.14")) Float_zero)).
Proof.
  split; [vm_compute; reflexivity |].
  pose proof (Float_text_roundtrip float_3_14 Ftoa.verb_e Float_zero) as H.
  destruct (H eq_refl) as [H1 [H2 H3]].
  split; [exact H1 |]. split; [exact H2 |].
  apply (H3 "3.14"). vm_compute. reflexivity.
Defined.

Lemma fmtF_integer (neg : bool) (c : Z) :
  0 < c ->
  Ftoa.fmtF neg (Ftoa.d (Ftoa.decimal_of c 0)) (Ftoa.dp (Ftoa.decimal_of c 0)) =
  if neg then String "-" (Strconv.FormatUint c) else Strconv.FormatUint c.
Proof.
  intros Hc. unfold Ftoa.decimal_of. cbn [Ftoa.d Ftoa.dp].
  destruct (strip_trailing (Strconv.FormatUint c) (FormatUint_leading c Hc))
    as [z [d' [E [Hd Hl]]]].
  rewrite Hd. rewrite E at 1. rewrite length_append, zeros_length.
  pose proof (leading_bounds d' Hl) as Hb.
  assert (Hlen : (1 <= String.length d')%nat).
  { destruct Hl as [h [t [-> _]]]. cbn. lia. }
  unfold Ftoa.fmtF. cbv zeta.
  rewrite Z.add_0_l.
  destruct (Z.leb_spec (Z.of_nat (String.length d' + z)) 0) as [Hle | Hgt]; [lia |].
  destruct (Z.ltb_spec (Z.of_nat (String.length d' + z)) (Z.of_nat (String.length d')))
    as [Hlt | Hge]; [lia |].
  replace (Z.to_nat (Z.of_nat (String.length d' + z) - Z.of_nat (String.length d')))
    with z by lia.
  rewrite <- E. reflexivity.
Qed.

(** [ParseFloat] reads the decimal text of an integer below [2 ^ 53]
    in magnitude as that integer. *)
Lemma ParseFloat_FormatInt (i : Z) :
  Z.abs i < 2 ^ 53 ->
  Atof.ParseFloat (Strconv.FormatInt i) = (Float64.of_int i, None).
Proof.
  intros Hi. destruct (Z.eq_dec i 0) as [-> | Hne]; [vm_compute; reflexivity |].
  destruct (of_int_exact i Hne Hi) as [m [e [Ef [Hb [He Hm]]]]].
  rewrite Ef.
  assert (Hc : 0 < Z.abs i) by lia.
  assert (Hdv : decimal_value m e (Z.abs i) 0).
  { unfold decimal_value. rewrite (Z.max_r 0 (- e)) by lia.
    rewrite (Z.max_l 0 e) by lia. change (Z.max 0 0) with 0. change (Z.max 0 (- 0)) with 0.
    rewrite Hm. cbn [Z.pow]. ring. }
  pose proof (reads_back_as_exact m e Hb (i <? 0) (Z.abs i) 0 Hc Hdv) as Hr.
  pose proof (good_decimal_of (i <? 0) m e (Z.abs i) 0 ltac:(lia) Hr) as Hg.
  pose proof (ParseFloat_fmtF _ _ _ _ Hg) as Hp.
  rewrite (fmtF_integer (i <? 0) (Z.abs i) Hc) in Hp.
  unfold Strconv.FormatInt. destruct (Z.ltb_spec i 0) as [Hneg | Hpos].
  - replace (- i) with (Z.abs i) by lia. exact Hp.
  - replace i with (Z.abs i) at 1 by lia. exact Hp.
Qed.

(** X17. A [Float] reads what an [Int] writes.  For every integer below
    [2 ^ 53] in magnitude the JSON that [Int.MarshalJSON] produces is
    adopted by [Float.UnmarshalJSON] as the [float64] of that integer,
    whose integer part is the integer again; nothing is logged. *)
Theorem Float_reads_Int_JSON (i : Int) (v0 : Float) :
  Z.abs i < 2 ^ 53 ->
  exists d,
    Int_MarshalJSON i = Ok d /\
    adopted (Float64.of_int i) (call (Float_UnmarshalJSON d) v0) /\
    Float64.trunc (Float64.of_int i) = i.
Proof.
  intros Hi. exists (Json.JNumber (Strconv.FormatInt i)).
  split; [reflexivity |]. split; [| apply trunc_of_int; exact Hi].
  unfold adopted, Float_UnmarshalJSON, Json.Unmarshal_float64.
  rewrite (ParseFloat_FormatInt i Hi). reflexivity.
Qed.

Lemma Float_reads_Int_JSON_witness :
  exists d,
    Int_MarshalJSON (-42) = Ok d /\
    adopted (Float64.of_int (-42)) (call (Float_UnmarshalJSON d) Float_zero) /\
    Float64.trunc (Float64.of_int (-42)) = -42.
Proof. apply (Float_reads_Int_JSON (-42) Float_zero). reflexivity. Defined.

(* ===================================================================== *)
(** ** When a Bool ends up true *)
(* ===================================================================== *)

Lemma parseBool_true (U : Strings.Unicode) (s : string) :
  fst (parseBool U s) = true <->
  In (Strings.ToLower U (Strings.TrimSpace U s)) truthy.
Proof.
  pose proof (parseBool_cases U s) as H. cbv zeta in H.
  destruct H as [[Ht E] | [[Hf [Hnt E]] | [Hnt [Hnf E]]]]; rewrite E; cbn [fst].
  - tauto.
  - split; [discriminate | tauto].
  - split; [discriminate | tauto].
Qed.

Lemma Bool_UnmarshalJSON_string (U : Strings.Unicode) (s : string) (v0 : Bool) :
  recv (snd (call (Bool_UnmarshalJSON U (Json.JString s)) v0)) = fst (parseBool U s).
Proof.
  unfold Bool_UnmarshalJSON. cbn.
  pose proof (parseBool_cases U s) as H. cbv zeta in H.
  destruct H as [[_ E] | [[_ [_ E]] | [_ [_ E]]]]; rewrite E; reflexivity.
Qed.

Lemma Bool_Scan_string (U : Strings.Unicode) (s : string) (v0 : Bool) :
  recv (snd (call (Bool_Scan U (AnyString s)) v0)) = fst (parseBool U s).
Proof.
  unfold Bool_Scan. cbn.
  pose proof (parseBool_cases U s) as H. cbv zeta in H.
  destruct H as [[_ E] | [[_ [_ E]] | [_ [_ E]]]]; rewrite E; reflexivity.
Qed.

(** X18. When a [Bool] ends up true.  After [UnmarshalJSON] the wrapper is
    true exactly when the token was the literal true or a string whose
    trimmed, lower-cased text is in the truthy list; a JSON number,
    1 included, never makes it true.  After [Scan] it is true exactly
    when the raw value was the [bool] true, a non-zero [int64], or such
    a string. *)
Theorem Bool_true_iff (U : Strings.Unicode) :
  (forall d v0,
     recv (snd (call (Bool_UnmarshalJSON U d) v0)) = true <->
     d = Json.JBool true \/
     exists s, d = Json.JString s /\
               In (Strings.ToLower U (Strings.TrimSpace U s)) truthy) /\
  (forall x v0,
     recv (snd (call (Bool_Scan U x) v0)) = true <->
     x = AnyBool true \/
     (exists n, x = AnyInt64 n /\ n <> 0) \/
     exists s, x = AnyString s /\
               In (Strings.ToLower U (Strings.TrimSpace U s)) truthy).
Proof.
  split.
  - intros d v0. destruct d as [| b | lit | s | | |].
    all: try (split; [discriminate | intros [H | [s [H _]]]; discriminate]).
    + destruct b; cbn.
      * split; [left; reflexivity | reflexivity].
      * split; [discriminate | intros [H | [s [H _]]]; discriminate].
    + rewrite Bool_UnmarshalJSON_string, parseBool_true. split.
      * intros H. right. exists s. split; [reflexivity | exact H].
      * intros [H | [s' [H Hin]]]; [discriminate |]. injection H as ->. exact Hin.
  - intros x v0. destruct x as [| b | n | n | f | s | t].
    all: try (split; [discriminate | intros [H | [[n' [H _]] | [s' [H _]]]]; discriminate]).
    + destruct b; cbn.
      * split; [left; reflexivity | reflexivity].
      * split; [discriminate | intros [H | [[n' [H _]] | [s' [H _]]]]; discriminate].
    + cbn. rewrite negb_true_iff, Z.eqb_neq. split.
      * intros H. right. left. exists n. split; [reflexivity | exact H].
      * intros [H | [[n' [H Hn]] | [s' [H _]]]]; try discriminate.
        injection H as ->. exact Hn.
    + rewrite Bool_Scan_string, parseBool_true. split.
      * intros H. right. right. exists s. split; [reflexivity | exact H].
      * intros [H | [[n' [H _]] | [s' [H Hin]]]]; try discriminate.
        injection H as ->. exact Hin.
Qed.

(* ===================================================================== *)
(** ** What is written to JSON is a JSON number *)
(* ===================================================================== *)

Lemma skip_digits_all (ds t : string) :
  Strconv.all_digits ds = true ->
  JsonNumber.skip_digits (ds ++ t) = JsonNumber.skip_digits t.
Proof.
  induction ds as [| c ds IH]; [reflexivity |].
  cbn [Strconv.all_digits append JsonNumber.skip_digits]. intros H.
  apply andb_true_iff in H. destruct H as [Hc Hd].
  unfold Bytes.is_digit in Hc. rewrite Hc. exact (IH Hd).
Qed.

Lemma skip_digits_end (ds : string) :
  Strconv.all_digits ds = true -> JsonNumber.skip_digits ds = "".
Proof.
  intros H. rewrite <- (append_nil_r ds) at 1. rewrite skip_digits_all by exact H.
  reflexivity.
Qed.

Lemma leading_head (ds : string) :
  leading ds ->
  exists h t, ds = String h t /\ Strconv.all_digits t = true /\
              Bytes.same h "0" = false /\ Bytes.in_range "1" "9" h = true /\
              Bytes.same h "-" = false.
Proof.
  intros [h [t [-> [Hd Hh]]]]. exists h, t.
  cbn [Strconv.all_digits] in Hd. apply andb_true_iff in Hd. destruct Hd as [Hc Ht].
  apply is_digit_code in Hc.
  unfold Bytes.same, Bytes.in_range.
  change (Bytes.code "0") with 48. change (Bytes.code "1") with 49.
  change (Bytes.code "9") with 57. change (Bytes.code "-") with 45.
  repeat split; try assumption.
  - apply Z.eqb_neq. exact Hh.
  - apply andb_true_iff. split; apply Z.leb_le; lia.
  - apply Z.eqb_neq. lia.
Qed.

(** A sign in front does not matter to the grammar when digits follow. *)
Lemma isValidNumber_signed (neg : bool) (c : ascii) (r : string) :
  Bytes.same c "-" = false ->
  JsonNumber.isValidNumber (if neg then String "-" (String c r) else String c r) =
  match JsonNumber.integer_part (String c r) with
  | None => false
  | Some s => JsonNumber.exponent_end (JsonNumber.fraction s)
  end.
Proof.
  intros Hc. destruct neg.
  - unfold JsonNumber.isValidNumber. change (Bytes.same "-" "-") with true. reflexivity.
  - unfold JsonNumber.isValidNumber. rewrite Hc. reflexivity.
Qed.

(** The layout [%f] of digits that start with a digit other than 0 is a
    JSON number. *)
Lemma fmtF_number (neg : bool) (ds : string) (dp : Z) :
  leading ds -> JsonNumber.isValidNumber (Ftoa.fmtF neg ds dp) = true.
Proof.
  intros Hl. pose proof Hl as [h0 [t0 [E0 [Hall _]]]].
  destruct (leading_head ds Hl) as [h [t [E [Ht [Hz [Hn Hm]]]]]].
  assert (Hlen : (1 <= String.length ds)%nat) by (rewrite E; cbn; lia).
  unfold Ftoa.fmtF. cbv zeta.
  destruct (Z.leb_spec dp 0) as [Hle | Hgt].
  - destruct (Z.ltb_spec 0 (Z.of_nat (String.length ds) - dp)) as [_ | Hbad]; [| lia].
    change ("0." ++ Ftoa.zeros (Z.to_nat (- dp)) ++ ds)
      with (String "0" (String "." (Ftoa.zeros (Z.to_nat (- dp)) ++ ds))).
    rewrite isValidNumber_signed by reflexivity.
    cbn [JsonNumber.integer_part]. change (Bytes.same "0" "0") with true. cbn iota.
    assert (Hd : Strconv.all_digits (Ftoa.zeros (Z.to_nat (- dp)) ++ ds) = true)
      by (rewrite all_digits_app, zeros_all_digits, Hall; reflexivity).
    destruct (Ftoa.zeros (Z.to_nat (- dp)) ++ ds) as [| c1 r1] eqn:Ez.
    { exfalso. destruct (Ftoa.zeros (Z.to_nat (- dp))); [| discriminate].
      cbn in Ez. rewrite E in Ez. discriminate. }
    cbn [Strconv.all_digits] in Hd. apply andb_true_iff in Hd. destruct Hd as [Hc1 Hr1].
    unfold JsonNumber.fraction. change (Bytes.same "." ".") with true.
    unfold Bytes.is_digit in Hc1. rewrite Hc1. cbn [andb].
    rewrite (skip_digits_end r1 Hr1). reflexivity.
  - destruct (Z.ltb_spec dp (Z.of_nat (String.length ds))) as [Hin | Hout].
    + pose proof (leading_take (Z.to_nat dp) ds Hl ltac:(lia)) as Hlt.
      destruct (leading_head _ Hlt) as [h1 [t1 [E1 [Ht1 [Hz1 [Hn1 Hm1]]]]]].
      destruct (all_digits_take_drop (Z.to_nat dp) ds Hall) as [_ Hdrop].
      rewrite E1. change (String h1 t1 ++ "." ++ Ftoa.drop (Z.to_nat dp) ds)
        with (String h1 (t1 ++ String "." (Ftoa.drop (Z.to_nat dp) ds))).
      rewrite isValidNumber_signed by exact Hm1.
      cbn [JsonNumber.integer_part]. rewrite Hz1, Hn1.
      rewrite skip_digits_all by exact Ht1.
      cbn [JsonNumber.skip_digits]. change (Bytes.in_range "0" "9" ".") with false. cbn iota.
      destruct (Ftoa.drop (Z.to_nat dp) ds) as [| c2 r2] eqn:Ed.
      { exfalso. pose proof (take_drop (Z.to_nat dp) ds) as Htd. rewrite Ed, append_nil_r in Htd.
        pose proof (take_length (Z.to_nat dp) ds ltac:(lia)) as Htl.
        rewrite Htd in Htl. lia. }
      cbn [Strconv.all_digits] in Hdrop. apply andb_true_iff in Hdrop.
      destruct Hdrop as [Hc2 Hr2]. unfold Bytes.is_digit in Hc2.
      unfold JsonNumber.fraction. change (Bytes.same "." ".") with true.
      rewrite Hc2. cbn [andb]. rewrite (skip_digits_end r2 Hr2). reflexivity.
    + rewrite E. change (String h t ++ Ftoa.zeros (Z.to_nat (dp - Z.of_nat (String.length (String h t)))))
        with (String h (t ++ Ftoa.zeros (Z.to_nat (dp - Z.of_nat (String.length (String h t)))))).
      rewrite isValidNumber_signed by exact Hm.
      cbn [JsonNumber.integer_part]. rewrite Hz, Hn.
      rewrite skip_digits_end
        by (rewrite all_digits_app, Ht, zeros_all_digits; reflexivity).
      reflexivity.
Qed.

Lemma exponent_ends_all : forallb exponent_ends (zrange (- 400) 801) = true.
Proof. vm_compute. reflexivity. Qed.

Lemma exponent_ends_range (exp : Z) : - 400 <= exp <= 400 -> exponent_ends exp = true.
Proof.
  intros H. pose proof exponent_ends_all as Hall.
  rewrite forallb_forall in Hall. apply Hall. apply zrange_In. lia.
Qed.

(** A mantissa of [%e] followed by an exponent that ends a JSON number
    is a JSON number. *)
Lemma fmtE_number (neg : bool) (h : ascii) (t et : string) :
  leading (String h t) ->
  (exists r, et = String "e" r) ->
  JsonNumber.exponent_end et = true ->
  JsonNumber.isValidNumber
    (if neg
     then String "-" (match t with
                      | EmptyString => String h EmptyString
                      | _ => String h ("." ++ t)
                      end ++ et)
     else match t with
          | EmptyString => String h EmptyString
          | _ => String h ("." ++ t)
          end ++ et) = true.
Proof.
  intros Hl [r ->] He.
  destruct (leading_head _ Hl) as [h' [t' [E [Ht [Hz [Hn Hm]]]]]].
  injection E as <- <-.
  destruct t as [| c1 r1].
  - change (String h "" ++ String "e" r) with (String h (String "e" r)).
    rewrite isValidNumber_signed by exact Hm.
    cbn [JsonNumber.integer_part]. rewrite Hz, Hn.
    cbn [JsonNumber.skip_digits]. change (Bytes.in_range "0" "9" "e") with false. cbn iota.
    assert (Hf : JsonNumber.fraction (String "e" r) = String "e" r).
    { unfold JsonNumber.fraction. destruct r; reflexivity. }
    rewrite Hf. exact He.
  - change (String h ("." ++ String c1 r1) ++ String "e" r)
      with (String h (String "." (String c1 (r1 ++ String "e" r)))).
    rewrite isValidNumber_signed by exact Hm.
    cbn [JsonNumber.integer_part]. rewrite Hz, Hn.
    cbn [JsonNumber.skip_digits]. change (Bytes.in_range "0" "9" ".") with false. cbn iota.
    cbn [Strconv.all_digits] in Ht. apply andb_true_iff in Ht. destruct Ht as [Hc1 Hr1].
    unfold Bytes.is_digit in Hc1.
    unfold JsonNumber.fraction. change (Bytes.same "." ".") with true.
    rewrite Hc1. cbn [andb]. rewrite skip_digits_all by exact Hr1.
    cbn [JsonNumber.skip_digits]. change (Bytes.in_range "0" "9" "e") with false. cbn iota.
    exact He.
Qed.

Lemma digits_number (neg : bool) (ds : string) :
  leading ds ->
  JsonNumber.isValidNumber (if neg then String "-" ds else ds) = true.
Proof.
  intros Hl. destruct (leading_head ds Hl) as [h [t [-> [Ht [Hz [Hn Hm]]]]]].
  rewrite isValidNumber_signed by exact Hm.
  cbn [JsonNumber.integer_part]. rewrite Hz, Hn, (skip_digits_end t Ht). reflexivity.
Qed.

(** X19. What [Int] and [Float] write to JSON is a number of the JSON
    grammar, so the scanner of a reader makes one number token of it:
    for every [Int], and for every finite [Float] in either layout,
    [MarshalJSON] returns a literal that [isValidNumber] accepts. *)
Theorem MarshalJSON_is_number :
  (forall i : Int, is_number (Int_MarshalJSON i) = true) /\
  (forall f : Float, Float64.valid f = true -> Float64.is_finite f = true ->
                     is_number (Float_MarshalJSON f) = true).
Proof.
  split.
  - intros i. unfold Int_MarshalJSON, Json.Marshal_int, is_number, Strconv.FormatInt.
    destruct (Z.ltb_spec i 0) as [Hneg | Hpos].
    + apply (digits_number true). apply FormatUint_leading. lia.
    + destruct (Z.eq_dec i 0) as [-> | Hne]; [reflexivity |].
      apply (digits_number false). apply FormatUint_leading. lia.
  - intros f Hv Hf. unfold Float_MarshalJSON, Json.Marshal_float64, is_number.
    destruct f as [s | s | | s m e]; try discriminate Hf.
    { destruct s; reflexivity. }
    cbn [Float64.IsInf Float64.IsNaN orb negb andb].
    pose proof (shortest_good s m e (valid_finite_bounded s m e Hv)) as Hg.
    pose proof (good_point s m e _ Hg) as Hp.
    destruct Hg as [Hr Hl].
    match goal with |- context [if ?c then _ else _] => destruct c end.
    + pose proof Hl as [h [t [Eds _]]].
      unfold Ftoa.FormatFloat. cbn [Ftoa.sign_of]. rewrite Eds, fmtE_cons.
      pose proof (exponent_checks_range
                    (Ftoa.dp (Ftoa.shortest (S754_finite s m e)) - 1) ltac:(lia)) as Hc.
      unfold exponent_checks in Hc. apply andb_true_iff in Hc. destruct Hc as [Hc Hlen].
      apply andb_true_iff in Hc. destruct Hc as [_ Hc]. apply Z.leb_le in Hlen.
      pose proof (exponent_ends_range
                    (Ftoa.dp (Ftoa.shortest (S754_finite s m e)) - 1) ltac:(lia)) as He.
      unfold exponent_ends in He. apply andb_true_iff in He. destruct He as [_ He].
      destruct (exponent_check_spec _ _ 0 Hc) as [[r Er] _].
      set (mt := match t with
                 | EmptyString => String h EmptyString
                 | _ => String h ("." ++ t)
                 end).
      set (et := Ftoa.fmt_exponent (Ftoa.dp (Ftoa.shortest (S754_finite s m e)) - 1)) in *.
      assert (Hclean : Json.clean_exponent (if s then String "-" (mt ++ et) else mt ++ et)
                       = if s then String "-" (mt ++ Json.clean_exponent et)
                         else mt ++ Json.clean_exponent et).
      { destruct s.
        - change (String "-" (mt ++ et)) with (String "-" mt ++ et).
          rewrite clean_exponent_app by exact Hlen. reflexivity.
        - apply clean_exponent_app. exact Hlen. }
      rewrite Hclean. rewrite Eds in Hl.
      apply (fmtE_number s h t (Json.clean_exponent et) Hl); [| exact He].
      exists r. exact Er.
    + unfold Ftoa.FormatFloat. cbn [Ftoa.sign_of]. apply fmtF_number. exact Hl.
Qed.

Lemma MarshalJSON_is_number_witness :
  is_number (Int_MarshalJSON (- 2 ^ 63)) = true /\
  is_number (Float_MarshalJSON float_3_14) = true.
Proof.
  split.
  - apply (proj1 MarshalJSON_is_number).
  - apply (proj2 MarshalJSON_is_number float_3_14); reflexivity.
Defined.
